(** * Telnet user sessions of the remote console server (remcons)

    A shallow embedding of [uspace/srv/hid/remcons/user.c]: the session
    registry, the receive path with its telnet filter, the send path with
    its batch buffer, and the cursor model.

    Conventions of the embedding.
    - A [char] or [uint8_t] is modelled by the value of the octet it holds,
      an integer in [Z]; the comparisons the source makes (with 0, 8, 10,
      13, 251..255) do not depend on the signedness of [char].
    - [size_t] indices are [nat]; the only subtraction on them,
      [sizeof(send_buf) - send_buf_used], agrees with the machine
      subtraction whenever [send_buf_used <= SEND_BUF_SIZE].
    - An [int] is modelled by its value in [Z].  The additions and
      subtractions on the column [cursor_x] and on the id counter wrap
      around modulo 2^32, as two's-complement arithmetic does
      ([int_wrap]).  The row [cursor_y] is raised only while it is below
      [(int)rows - 1], which keeps that addition from overflowing;
      [(int)rows - 1] overflows for no row count but [INT_MIN].  The
      theorems about the cursor that depend on the range say so.
    - The per-session mutex [guard] and the registry mutex [users_guard]
      make every public operation atomic; operations are therefore modelled
      as state transformers on one session and its TCP connection.
    - A pointer to a session is its position in the registry list; [NULL]
      is [None]. *)

From stdpp Require Import prelude.
From Stdlib Require Import ZArith Lia.

Set Default Proof Using "Type".

(** ** Outcomes of a call *)

(** A call returns, or blocks for ever on the transport, or stops at a
    failed [assert], or (for the loops, which run on a fuel budget) runs
    out of fuel. *)
Inductive outcome (A : Type) : Type :=
  | Done (a : A)
  | Blocked
  | AssertFailed
  | OutOfFuel.
Arguments Done {A} a.
Arguments Blocked {A}.
Arguments AssertFailed {A}.
Arguments OutOfFuel {A}.

(** ** Error codes (abi/errno.h) *)

(** Modelled from the spec: [abi/errno.h] is not part of the sources at
    hand; the spec names a success code and a distinct peer-closed code,
    which [user.c] spells [EOK] and [ENOENT].  Only their being different
    is used. *)

Definition errno_t := Z.
Definition EOK : errno_t := 0%Z.
Definition ENOENT : errno_t := 1%Z.

(** ** Machine integers *)

Definition INT_MIN : Z := (-2147483648)%Z.
Definition INT_MAX : Z := 2147483647%Z.

(** The value of an [int] expression whose mathematical value is [z]. *)
Definition int_wrap (z : Z) : Z :=
  ((z + 2147483648) mod 4294967296 - 2147483648)%Z.

(** [z] is the value of an [int]. *)
Definition int_range (z : Z) : Prop := (INT_MIN ≤ z ≤ INT_MAX)%Z.

(** ** Telnet constants (telnet.h) *)

Definition byte := Z.
Definition telnet_cmd_t := Z.

(** Modelled from the spec: [telnet.h] is not part of the sources at hand;
    the spec gives IAC = 255 and the option commands WILL = 251,
    WONT = 252, DO = 253, DONT = 254. *)
Definition TELNET_IAC : byte := 255%Z.
Definition TELNET_WILL : byte := 251%Z.
Definition TELNET_WONT : byte := 252%Z.
Definition TELNET_DO : byte := 253%Z.
Definition TELNET_DONT : byte := 254%Z.

Definition TELNET_IS_OPTION_CODE (code : byte) : bool :=
  (code =? TELNET_WILL)%Z || (code =? TELNET_WONT)%Z ||
  (code =? TELNET_DO)%Z || (code =? TELNET_DONT)%Z.

(** ** The TCP connection (inet/tcp.h), seen through its contract *)

(** Modelled from the spec: the transport is an external collaborator,
    known by its contract: a blocking [recv_wait(buf, cap)] that returns
    at most [cap] bytes, zero bytes at the end of the peer's stream, or an
    error; and [send(buf, n)] that returns an error code.  The end of the
    stream is final: once reached, every call meets it again. *)

(** What the peer and the network will do on the receiving side: data
    segments arrive in order, or a receive call fails with a non-zero
    error code. *)
Inductive rx_event : Type :=
  | RxData (bs : list byte)
  | RxError (code : positive).

(** What happens once all events are consumed: the peer stays silent (a
    receive call blocks for ever) or the peer has closed its side (every
    receive call returns zero bytes). *)
Inductive rx_end : Type :=
  | PeerSilent
  | PeerClosed.

Record tcp_conn_t : Type := mk_conn {
  rx : list rx_event;      (* pending receive events *)
  rx_fin : rx_end;         (* what follows them *)
  tx : list byte;          (* bytes that reached the wire *)
  tx_rc : list errno_t     (* results of the next send calls; EOK after *)
}.

Definition set_rx (c : tcp_conn_t) (r : list rx_event) : tcp_conn_t :=
  mk_conn r (rx_fin c) (tx c) (tx_rc c).

(** [tcp_conn_recv_wait(conn, buf, bsize, &nrecv)]: returns the error code
    and the bytes stored in [buf] ([nrecv] is their number).  At most
    [bsize] bytes of the first pending segment are taken, the rest of the
    segment stays pending. *)
Fixpoint recv_wait_events (r : list rx_event) (fin : rx_end) (bsize : nat)
    : outcome (errno_t * list byte * list rx_event) :=
  match r with
  | [] =>
      match fin with
      | PeerSilent => Blocked
      | PeerClosed => Done (EOK, [], [])
      end
  | RxError code :: r' => Done (Zpos code, [], r')
  | RxData [] :: r' => recv_wait_events r' fin bsize
  | RxData bs :: r' =>
      Done (EOK, take bsize bs,
            match drop bsize bs with
            | [] => r'
            | rest => RxData rest :: r'
            end)
  end.

Definition tcp_conn_recv_wait (c : tcp_conn_t) (bsize : nat)
    : outcome (errno_t * list byte * tcp_conn_t) :=
  match recv_wait_events (rx c) (rx_fin c) bsize with
  | Done (rc, bs, r') => Done (rc, bs, set_rx c r')
  | Blocked => Blocked
  | AssertFailed => AssertFailed
  | OutOfFuel => OutOfFuel
  end.

(** [tcp_conn_send(conn, data, size)]: on success the bytes are on the
    wire; a failed call puts nothing on the wire. *)
Definition tcp_conn_send (c : tcp_conn_t) (data : list byte)
    : errno_t * tcp_conn_t :=
  match tx_rc c with
  | [] => (EOK, mk_conn (rx c) (rx_fin c) (tx c ++ data) [])
  | rc :: rcs =>
      if (rc =? EOK)%Z
      then (EOK, mk_conn (rx c) (rx_fin c) (tx c ++ data) rcs)
      else (rc, mk_conn (rx c) (rx_fin c) (tx c) rcs)
  end.

(** ** The session structure (user.h) *)

(** Modelled from the spec: [user.h] is not part of the sources at hand;
    the fields are those [user.c] reads and writes, which section 3 of
    the spec lists.  [rows] holds the value of [(int)user->rows]. *)

Record telnet_user_t : Type := mk_user {
  id : Z;
  service_id : Z;
  socket_buffer : list byte;
  socket_buffer_len : nat;
  socket_buffer_pos : nat;
  send_buf : list byte;
  send_buf_used : nat;
  task_finished : bool;
  socket_closed : bool;
  srvs_aborted : bool;
  locsrv_connection_count : Z;
  cursor_x : Z;
  cursor_y : Z;
  rows : Z
}.

Definition set_socket_buffer (u : telnet_user_t) (b : list byte)
    (len pos : nat) : telnet_user_t :=
  mk_user (id u) (service_id u) b len pos (send_buf u) (send_buf_used u)
    (task_finished u) (socket_closed u) (srvs_aborted u)
    (locsrv_connection_count u) (cursor_x u) (cursor_y u) (rows u).

Definition set_socket_buffer_pos (u : telnet_user_t) (pos : nat)
    : telnet_user_t :=
  set_socket_buffer u (socket_buffer u) (socket_buffer_len u) pos.

Definition set_closed_aborted (u : telnet_user_t) : telnet_user_t :=
  mk_user (id u) (service_id u) (socket_buffer u) (socket_buffer_len u)
    (socket_buffer_pos u) (send_buf u) (send_buf_used u)
    (task_finished u) true true
    (locsrv_connection_count u) (cursor_x u) (cursor_y u) (rows u).

Definition set_send_buf (u : telnet_user_t) (b : list byte) (used : nat)
    : telnet_user_t :=
  mk_user (id u) (service_id u) (socket_buffer u) (socket_buffer_len u)
    (socket_buffer_pos u) b used
    (task_finished u) (socket_closed u) (srvs_aborted u)
    (locsrv_connection_count u) (cursor_x u) (cursor_y u) (rows u).

Definition set_cursor (u : telnet_user_t) (x y : Z) : telnet_user_t :=
  mk_user (id u) (service_id u) (socket_buffer u) (socket_buffer_len u)
    (socket_buffer_pos u) (send_buf u) (send_buf_used u)
    (task_finished u) (socket_closed u) (srvs_aborted u)
    (locsrv_connection_count u) x y (rows u).

Definition set_locsrv_connection_count (u : telnet_user_t) (n : Z)
    : telnet_user_t :=
  mk_user (id u) (service_id u) (socket_buffer u) (socket_buffer_len u)
    (socket_buffer_pos u) (send_buf u) (send_buf_used u)
    (task_finished u) (socket_closed u) (srvs_aborted u)
    n (cursor_x u) (cursor_y u) (rows u).

Section Remcons.

(** The two buffer sizes of [user.h], which is not part of the sources at
    hand: the development holds for every choice of them. *)
Variable BUFFER_SIZE : nat.
Variable SEND_BUF_SIZE : nat.

(** [telnet_user_create]: [blk] is the block [malloc] returned ([None]
    when out of memory), with whatever contents it has, and [asprintf_rc]
    is what [asprintf] returns for the service name; the result is the
    new session, or [None] for [NULL], and the new value of the static
    id counter.  The counter is raised before [asprintf] is called, so a
    failed [asprintf] uses up an id.  The fields the source initialises
    are overwritten.  The service name itself, which no operation below
    reads, is left out; the sentinel [(service_id_t) -1] is kept as the
    integer -1. *)
Definition telnet_user_create (blk : option telnet_user_t)
    (asprintf_rc : Z) (telnet_user_id_counter : Z)
    : option telnet_user_t * Z :=
  match blk with
  | None => (None, telnet_user_id_counter)
  | Some m =>
      let counter := int_wrap (telnet_user_id_counter + 1) in
      if (asprintf_rc <? 0)%Z then (None, counter)
      else
        (Some (mk_user counter (-1)%Z
                 (socket_buffer m) 0 0
                 (send_buf m) 0
                 false false (srvs_aborted m)
                 0%Z 0%Z 0%Z (rows m)),
         counter)
  end.

(** ** Receive path *)

Definition telnet_user_fill_recv_buf (u : telnet_user_t) (c : tcp_conn_t)
    : outcome (errno_t * telnet_user_t * tcp_conn_t) :=
  match tcp_conn_recv_wait c BUFFER_SIZE with
  | Done (rc, bs, c') =>
      if negb (rc =? EOK)%Z then Done (rc, u, c')
      else
        let recv_length := length bs in
        if recv_length =? 0 then Done (ENOENT, set_closed_aborted u, c')
        else
          Done (EOK,
                set_socket_buffer u (list_inserts 0 bs (socket_buffer u))
                  recv_length 0,
                c')
  | Blocked => Blocked
  | AssertFailed => AssertFailed
  | OutOfFuel => OutOfFuel
  end.

Definition telnet_user_recv_next_byte_locked (u : telnet_user_t)
    (c : tcp_conn_t) : outcome (errno_t * byte * telnet_user_t * tcp_conn_t) :=
  let read (u : telnet_user_t) (c : tcp_conn_t) :=
    Done (EOK, socket_buffer u !!! socket_buffer_pos u,
          set_socket_buffer_pos u (S (socket_buffer_pos u)), c) in
  if socket_buffer_len u <=? socket_buffer_pos u then
    match telnet_user_fill_recv_buf u c with
    | Done (rc, u', c') =>
        if negb (rc =? EOK)%Z then Done (rc, 0%Z, u', c') else read u' c'
    | Blocked => Blocked
    | AssertFailed => AssertFailed
    | OutOfFuel => OutOfFuel
    end
  else read u c.

Definition telnet_user_byte_avail (u : telnet_user_t) : bool :=
  socket_buffer_pos u <? socket_buffer_len u.

(** [process_telnet_command] only writes a log line; it has no effect on
    the session. *)
Definition process_telnet_command (u : telnet_user_t)
    (option_code cmd : telnet_cmd_t) : telnet_user_t := u.

(** The body of the inner loop of [telnet_user_recv] after the byte is
    read: the new values of [inside_telnet_command], [next_byte] and
    [telnet_option_code]. *)
Definition recv_filter_byte (inside_telnet_command : bool)
    (telnet_option_code : telnet_cmd_t) (next_byte : byte)
    : bool * byte * telnet_cmd_t :=
  let byte := next_byte in
  let '(inside, next, code) :=
    if inside_telnet_command then
      if TELNET_IS_OPTION_CODE byte then (true, 0%Z, byte)
      else (false, 0%Z, telnet_option_code)
    else (false, next_byte, telnet_option_code) in
  if (byte =? TELNET_IAC)%Z then (true, 0%Z, code) else (inside, next, code).

(** The inner [do ... while (next_byte == 0 && telnet_user_byte_avail(user))]
    loop; it returns the error code and the last value of [next_byte]. *)
Fixpoint recv_skip_loop (fuel : nat) (u : telnet_user_t) (c : tcp_conn_t)
    (inside_telnet_command : bool) (telnet_option_code : telnet_cmd_t)
    : outcome (errno_t * byte * telnet_user_t * tcp_conn_t) :=
  match fuel with
  | 0 => OutOfFuel
  | S fuel' =>
      match telnet_user_recv_next_byte_locked u c with
      | Done (rc, next_byte, u1, c1) =>
          if negb (rc =? EOK)%Z then Done (rc, next_byte, u1, c1)
          else
            let '(inside, next_byte', code) :=
              recv_filter_byte inside_telnet_command telnet_option_code
                next_byte in
            let u2 :=
              if inside_telnet_command && negb (TELNET_IS_OPTION_CODE next_byte)
              then process_telnet_command u1 telnet_option_code next_byte
              else u1 in
            if (next_byte' =? 0)%Z && telnet_user_byte_avail u2
            then recv_skip_loop fuel' u2 c1 inside code
            else Done (EOK, next_byte', u2, c1)
      | Blocked => Blocked
      | AssertFailed => AssertFailed
      | OutOfFuel => OutOfFuel
      end
  end.

(** The bytes the peer has sent and the session has not yet received. *)
Fixpoint rx_stream (r : list rx_event) : list byte :=
  match r with
  | [] => []
  | RxData bs :: r' => bs ++ rx_stream r'
  | RxError _ :: r' => rx_stream r'
  end.

(** Number of bytes still to come, plus the number of pending events: a
    bound on the number of iterations of either loop. *)
Definition recv_budget (u : telnet_user_t) (c : tcp_conn_t) : nat :=
  (socket_buffer_len u - socket_buffer_pos u)
  + length (rx_stream (rx c)) + length (rx c).

(** The outer [do ... while (size > 0 && (avail || *nread == 0))] loop;
    [dst] is what has been stored through [bp] so far, so that [*nread] is
    [length dst]. *)
Fixpoint recv_loop (fuel : nat) (u : telnet_user_t) (c : tcp_conn_t)
    (size : nat) (dst : list byte)
    : outcome (errno_t * list byte * telnet_user_t * tcp_conn_t) :=
  match fuel with
  | 0 => OutOfFuel
  | S fuel' =>
      match recv_skip_loop (S (recv_budget u c)) u c false 0%Z with
      | Done (rc, next_byte, u1, c1) =>
          if negb (rc =? EOK)%Z then Done (rc, dst, u1, c1)
          else
            let next_byte := if (next_byte =? 13)%Z then 10%Z else next_byte in
            let '(dst', size') :=
              if negb (next_byte =? 0)%Z
              then (dst ++ [next_byte], size - 1)
              else (dst, size) in
            if (0 <? size') && (telnet_user_byte_avail u1 || (length dst' =? 0))
            then recv_loop fuel' u1 c1 size' dst'
            else Done (EOK, dst', u1, c1)
      | Blocked => Blocked
      | AssertFailed => AssertFailed
      | OutOfFuel => OutOfFuel
      end
  end.

(** [telnet_user_recv(user, buf, size, &nread)]: returns the error code
    and the bytes stored in [buf] ([nread] is their number). *)
Definition telnet_user_recv (u : telnet_user_t) (c : tcp_conn_t) (size : nat)
    : outcome (errno_t * list byte * telnet_user_t * tcp_conn_t) :=
  if size =? 0 then AssertFailed
  else recv_loop (S (recv_budget u c)) u c size [].

(** ** Send path *)

(** The [while (size > 0)] loop of [telnet_user_send_raw_locked]; [data]
    is what is left to copy, so that [size] is [length data]. *)
Fixpoint send_raw_loop (fuel : nat) (u : telnet_user_t) (c : tcp_conn_t)
    (remain : nat) (data : list byte)
    : outcome (errno_t * telnet_user_t * tcp_conn_t) :=
  match data with
  | [] => Done (EOK, u, c)
  | _ :: _ =>
      match fuel with
      | 0 => OutOfFuel
      | S fuel' =>
          let flushed :=
            if remain =? 0 then
              let '(rc, c') :=
                tcp_conn_send c (take SEND_BUF_SIZE (send_buf u)) in
              if negb (rc =? EOK)%Z then inl (rc, c')
              else inr (set_send_buf u (send_buf u) 0, c', SEND_BUF_SIZE)
            else inr (u, c, remain) in
          match flushed with
          | inl (rc, c') => Done (rc, u, c')
          | inr (u1, c1, remain1) =>
              let now := remain1 `min` length data in
              let u2 :=
                set_send_buf u1
                  (list_inserts (send_buf_used u1) (take now data)
                     (send_buf u1))
                  (send_buf_used u1 + now) in
              send_raw_loop fuel' u2 c1 (remain1 - now) (drop now data)
          end
      end
  end.

Definition telnet_user_send_raw_locked (u : telnet_user_t) (c : tcp_conn_t)
    (data : list byte) : outcome (errno_t * telnet_user_t * tcp_conn_t) :=
  send_raw_loop (length data) u c (SEND_BUF_SIZE - send_buf_used u) data.

(** One iteration of the conversion loop of [telnet_user_send_data_locked]:
    the bytes appended to [converted] and the cursor update.
    [user->cursor_x--] and [user->cursor_x++] are [int] operations. *)
Definition send_data_step (u : telnet_user_t) (d : byte)
    : list byte * telnet_user_t :=
  if (d =? 10)%Z then
    ([13%Z; 10%Z],
     set_cursor u 0%Z
       (if (cursor_y u <? rows u - 1)%Z then (cursor_y u + 1)%Z
        else cursor_y u))
  else
    ([d],
     set_cursor u
       (if (d =? 8)%Z then int_wrap (cursor_x u - 1)
        else int_wrap (cursor_x u + 1))
       (cursor_y u)).

Fixpoint send_data_convert (u : telnet_user_t) (data converted : list byte)
    : list byte * telnet_user_t :=
  match data with
  | [] => (converted, u)
  | d :: data' =>
      let '(out, u') := send_data_step u d in
      send_data_convert u' data' (converted ++ out)
  end.

(** [converted_ok] tells whether [malloc] returned a block for
    [converted]; the source asserts that it did. *)
Definition telnet_user_send_data_locked (converted_ok : bool)
    (u : telnet_user_t) (c : tcp_conn_t) (data : list byte)
    : outcome (errno_t * telnet_user_t * tcp_conn_t) :=
  if negb converted_ok then AssertFailed
  else
    let '(converted, u') := send_data_convert u data [] in
    telnet_user_send_raw_locked u' c converted.

Definition telnet_user_send_data := telnet_user_send_data_locked.

Definition telnet_user_send_raw := telnet_user_send_raw_locked.

Definition telnet_user_flush (u : telnet_user_t) (c : tcp_conn_t)
    : errno_t * telnet_user_t * tcp_conn_t :=
  let '(rc, c') := tcp_conn_send c (take (send_buf_used u) (send_buf u)) in
  if negb (rc =? EOK)%Z then (rc, u, c')
  else (EOK, set_send_buf u (send_buf u) 0, c').

(** [telnet_user_update_cursor_x]: the test [user->cursor_x - 1 == new_x]
    is made on [int] values; the result of the send call is ignored. *)
Definition telnet_user_update_cursor_x (converted_ok : bool)
    (u : telnet_user_t) (c : tcp_conn_t) (new_x : Z)
    : outcome (telnet_user_t * tcp_conn_t) :=
  let sent :=
    if (int_wrap (cursor_x u - 1) =? new_x)%Z then
      match telnet_user_send_data_locked converted_ok u c [8%Z] with
      | Done (_, u', c') => Done (u', c')
      | Blocked => Blocked
      | AssertFailed => AssertFailed
      | OutOfFuel => OutOfFuel
      end
    else Done (u, c) in
  match sent with
  | Done (u', c') => Done (set_cursor u' new_x (cursor_y u'), c')
  | Blocked => Blocked
  | AssertFailed => AssertFailed
  | OutOfFuel => OutOfFuel
  end.

End Remcons.

(** ** Session registry *)

(** The global list [users]; a session pointer is a position in it. *)
Definition user_ptr := option nat.

Definition telnet_user_add (users : list telnet_user_t) (u : telnet_user_t)
    : list telnet_user_t :=
  users ++ [u].

(** [telnet_user_destroy]: the session is unlinked from the list and
    freed; the sessions behind it move up by one position. *)
Definition telnet_user_destroy (users : list telnet_user_t) (user : user_ptr)
    : outcome (list telnet_user_t) :=
  match user with
  | None => AssertFailed
  | Some i => Done (delete i users)
  end.

(** What a call of [telnet_user_get_for_client_connection] does: it
    returns a pointer, or it dereferences [NULL]. *)
Inductive lookup_result : Type :=
  | Returned (p : user_ptr)
  | NullDereference.

(** [p->locsrv_connection_count += d]; [None] when [p] is [NULL]. *)
Definition connection_count_add (users : list telnet_user_t) (p : user_ptr)
    (d : Z) : option (list telnet_user_t) :=
  match p with
  | None => None
  | Some i =>
      Some (alter (fun s =>
              set_locsrv_connection_count s (locsrv_connection_count s + d)%Z)
              i users)
  end.

Definition telnet_user_get_for_client_connection
    (users : list telnet_user_t) (id : Z)
    : lookup_result * list telnet_user_t :=
  match list_find (fun tmp => service_id tmp = id) users with
  | None => (Returned None, users)
  | Some (i, s) =>
      let user : user_ptr := Some i in
      match connection_count_add users user 1 with
      | None => (NullDereference, users)
      | Some users1 =>
          if task_finished s || socket_closed s then
            let user : user_ptr := None in
            match connection_count_add users1 user (-1) with
            | None => (NullDereference, users1)
            | Some users2 => (Returned user, users2)
            end
          else (Returned user, users1)
      end
  end.

(** [telnet_user_notify_client_disconnected], on the session itself. *)
Definition telnet_user_notify_client_disconnected (u : telnet_user_t)
    : outcome telnet_user_t :=
  if negb (0 <? locsrv_connection_count u)%Z then AssertFailed
  else Done (set_locsrv_connection_count u (locsrv_connection_count u - 1)%Z).

Definition telnet_user_is_zombie (u : telnet_user_t) : bool :=
  socket_closed u || task_finished u.

(** ** Specification-level functions *)

(** Line-ending expansion in the words of the design: every LF becomes
    CR LF, every other byte passes through. *)
Definition lf_to_crlf (s : list byte) : list byte :=
  flat_map (fun b => if (b =? 10)%Z then [13%Z; 10%Z] else [b]) s.

(** Decoding of a command-free receive stream in the words of the design:
    NUL is dropped, CR becomes LF. *)
Definition cr_to_lf (b : byte) : byte := if (b =? 13)%Z then 10%Z else b.

Definition decode_plain (s : list byte) : list byte :=
  cr_to_lf <$> filter (fun b => b ≠ 0%Z) s.

(** The cursor rule in the words of the design, on a pair (column, row). *)
Definition cursor_after_byte (nrows : Z) (xy : Z * Z) (d : byte) : Z * Z :=
  let '(x, y) := xy in
  if (d =? 8)%Z then ((x - 1)%Z, y)
  else if (d =? 10)%Z then (0%Z, if (y <? nrows - 1)%Z then (y + 1)%Z else y)
  else ((x + 1)%Z, y).

(** The cursor update of the code on a pair (column, row): as the rule
    above, with the column computed in [int] arithmetic. *)
Definition cursor_step (nrows : Z) (xy : Z * Z) (d : byte) : Z * Z :=
  let '(x, y) := xy in
  if (d =? 10)%Z then (0%Z, if (y <? nrows - 1)%Z then (y + 1)%Z else y)
  else if (d =? 8)%Z then (int_wrap (x - 1), y)
  else (int_wrap (x + 1), y).

(** A byte that [recv] may hand to its caller. *)
Definition deliverable (b : byte) : Prop :=
  b ≠ 0%Z ∧ b ≠ 13%Z ∧ b ≠ 255%Z.

(** The bytes a returned [recv] call stored for its caller. *)
Definition delivered {S T : Type}
    (o : outcome (errno_t * list byte * S * T)) : list byte :=
  match o with
  | Done (_, dst, _, _) => dst
  | _ => []
  end.

(** ** Well-formed sessions *)

(** The arrays have the sizes their types give them. *)
Definition buffers_typed (BUFFER_SIZE SEND_BUF_SIZE : nat)
    (u : telnet_user_t) : Prop :=
  length (socket_buffer u) = BUFFER_SIZE ∧ length (send_buf u) = SEND_BUF_SIZE.

(** The buffer-index invariants. *)
Definition index_inv (BUFFER_SIZE SEND_BUF_SIZE : nat)
    (u : telnet_user_t) : Prop :=
  socket_buffer_pos u ≤ socket_buffer_len u ∧
  socket_buffer_len u ≤ BUFFER_SIZE ∧
  send_buf_used u ≤ SEND_BUF_SIZE.

(** Every byte the send path accepted and did not lose: what is on the
    wire followed by what waits in the batch buffer. *)
Definition out_stream (u : telnet_user_t) (c : tcp_conn_t) : list byte :=
  tx c ++ take (send_buf_used u) (send_buf u).

(** Every byte the peer sent and [recv] has not consumed yet. *)
Definition in_stream (u : telnet_user_t) (c : tcp_conn_t) : list byte :=
  drop (socket_buffer_pos u) (take (socket_buffer_len u) (socket_buffer u))
  ++ rx_stream (rx c).

(** All coming send calls succeed. *)
Definition tx_ok (c : tcp_conn_t) : Prop :=
  Forall (fun rc => rc = EOK) (tx_rc c).

(** A zero-filled block, as a block for [telnet_user_create]. *)
Definition zero_block (BUFFER_SIZE SEND_BUF_SIZE : nat) (nrows : Z)
    : telnet_user_t :=
  mk_user 0 0 (replicate BUFFER_SIZE 0%Z) 0 0 (replicate SEND_BUF_SIZE 0%Z) 0
    false false false 0 0 0 nrows.

(** A fresh session on a 24-row terminal. *)
Definition fresh_user (BUFFER_SIZE SEND_BUF_SIZE : nat) : telnet_user_t :=
  default (zero_block BUFFER_SIZE SEND_BUF_SIZE 24)
    (telnet_user_create (Some (zero_block BUFFER_SIZE SEND_BUF_SIZE 24))
       0 0).1.

(** A connection on which the peer sends the given segments and then
    stays silent, and on which every send succeeds. *)
Definition peer_sends (segs : list (list byte)) : tcp_conn_t :=
  mk_conn (RxData <$> segs) PeerSilent [] [].

(** What a returned [recv] call reports: the error code and the bytes. *)
Definition recv_returns {S T : Type}
    (o : outcome (errno_t * list byte * S * T)) : option (errno_t * list byte) :=
  match o with
  | Done (rc, dst, _, _) => Some (rc, dst)
  | _ => None
  end.

(** A registry whose only session has service id 7, a closed socket and
    two attached clients. *)
Definition zombie_registry : list telnet_user_t :=
  [mk_user 1 7 [] 0 0 [] 0 false true true 2 0 0 24].

(** The eight ways to cut the bytes IAC DO 0x18 'A' into segments. *)
Definition iac_do_splits : list (list (list byte)) :=
  [ [[255; 253; 24; 65]];
    [[255; 253; 24]; [65]];
    [[255; 253]; [24; 65]];
    [[255; 253]; [24]; [65]];
    [[255]; [253; 24; 65]];
    [[255]; [253; 24]; [65]];
    [[255]; [253]; [24; 65]];
    [[255]; [253]; [24]; [65]] ]%Z.

(** ** Case analyses used in the proofs *)

(** What a returned refill did: it failed in the transport, it met the
    end of the stream, or it stored a segment. *)
Inductive fill_case (BUFFER_SIZE : nat) (u : telnet_user_t) (c : tcp_conn_t)
    : errno_t → telnet_user_t → tcp_conn_t → Prop :=
  | fill_error code r' :
      rx_stream (rx c) = rx_stream r' →
      length r' < length (rx c) →
      fill_case BUFFER_SIZE u c (Zpos code) u (set_rx c r')
  | fill_closed r' :
      rx_stream (rx c) = rx_stream r' →
      length r' ≤ length (rx c) →
      (BUFFER_SIZE = 0 ∨ (r' = [] ∧ rx_fin c = PeerClosed)) →
      fill_case BUFFER_SIZE u c ENOENT (set_closed_aborted u) (set_rx c r')
  | fill_data b bs r' :
      rx_stream (rx c) = (b :: bs) ++ rx_stream r' →
      length r' ≤ length (rx c) →
      length (b :: bs) ≤ BUFFER_SIZE →
      fill_case BUFFER_SIZE u c EOK
        (set_socket_buffer u (list_inserts 0 (b :: bs) (socket_buffer u))
           (length (b :: bs)) 0)
        (set_rx c r').

(** What a returned [telnet_user_recv_next_byte_locked] did: it took a
    buffered byte, or it refilled the drained buffer and took the first
    byte, or the refill did not bring data. *)
Inductive next_byte_case (BUFFER_SIZE : nat) (u : telnet_user_t)
    (c : tcp_conn_t) : errno_t → byte → telnet_user_t → tcp_conn_t → Prop :=
  | next_buffered :
      socket_buffer_pos u < socket_buffer_len u →
      next_byte_case BUFFER_SIZE u c EOK
        (socket_buffer u !!! socket_buffer_pos u)
        (set_socket_buffer_pos u (S (socket_buffer_pos u))) c
  | next_filled b bs r' :
      socket_buffer_len u ≤ socket_buffer_pos u →
      rx_stream (rx c) = (b :: bs) ++ rx_stream r' →
      length r' ≤ length (rx c) →
      length (b :: bs) ≤ BUFFER_SIZE →
      next_byte_case BUFFER_SIZE u c EOK
        (list_inserts 0 (b :: bs) (socket_buffer u) !!! 0)
        (set_socket_buffer u (list_inserts 0 (b :: bs) (socket_buffer u))
           (length (b :: bs)) 1)
        (set_rx c r')
  | next_failed rc u' c' :
      socket_buffer_len u ≤ socket_buffer_pos u →
      rc ≠ EOK →
      fill_case BUFFER_SIZE u c rc u' c' →
      next_byte_case BUFFER_SIZE u c rc 0%Z u' c'.

(** What the outer loop of [telnet_user_recv] does with the byte the
    inner loop ended on: CR is folded to LF and a non-zero byte is
    stored; the result is the new [dst] and [size]. *)
Definition recv_store (dst : list byte) (size : nat) (next_byte : byte)
    : list byte * nat :=
  let next_byte := if (next_byte =? 13)%Z then 10%Z else next_byte in
  if negb (next_byte =? 0)%Z then (dst ++ [next_byte], size - 1)
  else (dst, size).

(** The condition of the outer loop. *)
Definition recv_continue (u : telnet_user_t) (dst : list byte) (size : nat)
    : bool :=
  (0 <? size) && (telnet_user_byte_avail u || (length dst =? 0)).

(** The runs of the inner loop that return: the loop reads bytes while
    the filter yields zero and the buffer has more. *)
Inductive skip_run (BUFFER_SIZE : nat)
    : telnet_user_t → tcp_conn_t → bool → telnet_cmd_t →
      errno_t → byte → telnet_user_t → tcp_conn_t → Prop :=
  | skip_fail u c inside code rc b u' c' :
      next_byte_case BUFFER_SIZE u c rc b u' c' →
      rc ≠ EOK →
      skip_run BUFFER_SIZE u c inside code rc b u' c'
  | skip_stop u c inside code b u' c' :
      next_byte_case BUFFER_SIZE u c EOK b u' c' →
      ((recv_filter_byte inside code b).1.2 =? 0)%Z
        && telnet_user_byte_avail u' = false →
      skip_run BUFFER_SIZE u c inside code EOK
        (recv_filter_byte inside code b).1.2 u' c'
  | skip_more u c inside code b u1 c1 rc next_byte u' c' :
      next_byte_case BUFFER_SIZE u c EOK b u1 c1 →
      (recv_filter_byte inside code b).1.2 = 0%Z →
      telnet_user_byte_avail u1 = true →
      skip_run BUFFER_SIZE u1 c1 (recv_filter_byte inside code b).1.1
        (recv_filter_byte inside code b).2 rc next_byte u' c' →
      skip_run BUFFER_SIZE u c inside code rc next_byte u' c'.

(** The runs of the outer loop that return. *)
Inductive recv_run (BUFFER_SIZE : nat)
    : telnet_user_t → tcp_conn_t → nat → list byte →
      errno_t → list byte → telnet_user_t → tcp_conn_t → Prop :=
  | recv_fail u c size dst rc b u' c' :
      skip_run BUFFER_SIZE u c false 0%Z rc b u' c' →
      rc ≠ EOK →
      recv_run BUFFER_SIZE u c size dst rc dst u' c'
  | recv_stop u c size dst b u' c' :
      skip_run BUFFER_SIZE u c false 0%Z EOK b u' c' →
      recv_continue u' (recv_store dst size b).1 (recv_store dst size b).2
        = false →
      recv_run BUFFER_SIZE u c size dst EOK (recv_store dst size b).1 u' c'
  | recv_more u c size dst b u1 c1 rc out u' c' :
      skip_run BUFFER_SIZE u c false 0%Z EOK b u1 c1 →
      recv_continue u1 (recv_store dst size b).1 (recv_store dst size b).2
        = true →
      recv_run BUFFER_SIZE u1 c1 (recv_store dst size b).2
        (recv_store dst size b).1 rc out u' c' →
      recv_run BUFFER_SIZE u c size dst rc out u' c'.

(** [u'] differs from [u] in the batch buffer and its fill index only. *)
Definition same_but_send (u u' : telnet_user_t) : Prop :=
  u' = set_send_buf u (send_buf u') (send_buf_used u').

(** The state a session and its connection are in once the end of the
    peer's stream has been met: the flags are set, the receive buffer is
    drained and nothing more will arrive. *)
Definition peer_closed_state (u : telnet_user_t) (c : tcp_conn_t) : Prop :=
  socket_closed u = true ∧ srvs_aborted u = true ∧
  socket_buffer_len u ≤ socket_buffer_pos u ∧
  rx c = [] ∧ rx_fin c = PeerClosed.

(** The operations on a session, and their effect on the session and the
    connection together with the error code (EOK for [update_cursor_x],
    which returns nothing). *)
Inductive session_op : Type :=
  | OpRecv (size : nat)
  | OpSendData (converted_ok : bool) (data : list byte)
  | OpSendRaw (data : list byte)
  | OpFlush
  | OpUpdateCursorX (converted_ok : bool) (new_x : Z).

Definition run_op (BUFFER_SIZE SEND_BUF_SIZE : nat) (o : session_op)
    (u : telnet_user_t) (c : tcp_conn_t)
    : outcome (errno_t * telnet_user_t * tcp_conn_t) :=
  match o with
  | OpRecv size =>
      match telnet_user_recv BUFFER_SIZE u c size with
      | Done (rc, _, u', c') => Done (rc, u', c')
      | Blocked => Blocked
      | AssertFailed => AssertFailed
      | OutOfFuel => OutOfFuel
      end
  | OpSendData ok data => telnet_user_send_data SEND_BUF_SIZE ok u c data
  | OpSendRaw data => telnet_user_send_raw SEND_BUF_SIZE u c data
  | OpFlush => Done (telnet_user_flush u c)
  | OpUpdateCursorX ok new_x =>
      match telnet_user_update_cursor_x SEND_BUF_SIZE ok u c new_x with
      | Done (u', c') => Done (EOK, u', c')
      | Blocked => Blocked
      | AssertFailed => AssertFailed
      | OutOfFuel => OutOfFuel
      end
  end.

(** A sequence of operations, each started when the one before has
    returned. *)
Fixpoint run_ops (BUFFER_SIZE SEND_BUF_SIZE : nat) (os : list session_op)
    (u : telnet_user_t) (c : tcp_conn_t)
    : outcome (telnet_user_t * tcp_conn_t) :=
  match os with
  | [] => Done (u, c)
  | o :: os' =>
      match run_op BUFFER_SIZE SEND_BUF_SIZE o u c with
      | Done (_, u', c') => run_ops BUFFER_SIZE SEND_BUF_SIZE os' u' c'
      | Blocked => Blocked
      | AssertFailed => AssertFailed
      | OutOfFuel => OutOfFuel
      end
  end.

(** A sequence of operations used as a test case. *)
Definition sample_ops : list session_op :=
  [OpSendData true [97; 10; 98; 99; 100]%Z; OpRecv 3; OpFlush;
   OpUpdateCursorX true 3; OpSendRaw [1; 2; 3; 4; 5]%Z; OpRecv 2].

(** ** Further notions used in the properties *)

(** [u'] differs from [u] on the receiving side only: the receive
    buffer, its indices and the two flags a refill sets. *)
Definition same_but_recv (u u' : telnet_user_t) : Prop :=
  u' = mk_user (id u) (service_id u)
         (socket_buffer u') (socket_buffer_len u') (socket_buffer_pos u')
         (send_buf u) (send_buf_used u)
         (task_finished u) (socket_closed u') (srvs_aborted u')
         (locsrv_connection_count u) (cursor_x u) (cursor_y u) (rows u).

(** The bytes of the receive buffer that are not consumed yet. *)
Definition buffered (u : telnet_user_t) : list byte :=
  drop (socket_buffer_pos u) (take (socket_buffer_len u) (socket_buffer u)).

(** The data segments among the pending events. *)
Fixpoint rx_segments (r : list rx_event) : list (list byte) :=
  match r with
  | [] => []
  | RxData bs :: r' => bs :: rx_segments r'
  | RxError _ :: r' => rx_segments r'
  end.

(** Every pending segment fits into one refill of the buffer. *)
Definition segments_fit (BUFFER_SIZE : nat) (r : list rx_event) : Prop :=
  Forall (fun bs => length bs ≤ BUFFER_SIZE) (rx_segments r).

(** The telnet filter on one run of bytes, [inside] telling whether the
    run starts inside a command: IAC opens a command, inside a command
    the bytes 251..254 keep it open and any other byte ends it, outside
    NUL is dropped and CR becomes LF. *)
Fixpoint telnet_filter (inside : bool) (bs : list byte) : list byte :=
  match bs with
  | [] => []
  | b :: bs' =>
      if (b =? 255)%Z then telnet_filter true bs'
      else if inside then telnet_filter ((251 <=? b)%Z && (b <=? 254)%Z) bs'
      else (if (b =? 0)%Z then [] else [cr_to_lf b]) ++ telnet_filter false bs'
  end.

(** The filter applied to each fill on its own. *)
Definition filter_fills (fills : list (list byte)) : list byte :=
  flat_map (telnet_filter false) fills.

(** * Properties *)

(** Reduce the field accesses of updated sessions and connections, and
    nothing else. *)
Ltac simpl_fields :=
  cbn [id service_id socket_buffer socket_buffer_len socket_buffer_pos
       send_buf send_buf_used task_finished socket_closed srvs_aborted
       locsrv_connection_count cursor_x cursor_y rows
       rx rx_fin tx tx_rc
       set_rx set_socket_buffer set_socket_buffer_pos set_closed_aborted
       set_send_buf set_cursor set_locsrv_connection_count] in *.

(** ** Session registry *)

(** C1 (defect in the code): on a registry whose only session has service
    id 7 and is a zombie (its socket is closed) with two clients
    attached, the lookup of id 7 does not return [NULL]: it raises the
    connection count to three and then dereferences the null pointer,
    so the count is never lowered again. *)
Theorem get_for_client_connection_zombie_null_deref :
  telnet_user_is_zombie <$> zombie_registry = [true] ∧
  telnet_user_get_for_client_connection zombie_registry 7 =
    (NullDereference,
     [mk_user 1 7 [] 0 0 [] 0 false true true 3 0 0 24]).
Proof. split; reflexivity. Qed.

(** The same for every registry: when the first session with the wanted
    service id is a zombie, the lookup ends in the null dereference with
    that session's count raised by one. *)
Lemma get_for_client_connection_zombie (users : list telnet_user_t)
    (sid : Z) (i : nat) (s : telnet_user_t) :
  list_find (fun tmp => service_id tmp = sid) users = Some (i, s) →
  telnet_user_is_zombie s = true →
  telnet_user_get_for_client_connection users sid =
    (NullDereference,
     <[i := set_locsrv_connection_count s (locsrv_connection_count s + 1)%Z]>
       users).
Proof.
  intros Hfind Hz. unfold telnet_user_get_for_client_connection.
  rewrite Hfind. cbn.
  unfold telnet_user_is_zombie in Hz.
  replace (task_finished s || socket_closed s) with true
    by (destruct (task_finished s), (socket_closed s); done).
  cbn. f_equal.
  apply list_find_Some in Hfind as (Hi & _ & _).
  apply list_eq. intros j. destruct (decide (i = j)) as [->|Hne].
  - rewrite list_lookup_alter_eq, Hi.
    rewrite list_lookup_insert_eq by (by eapply lookup_lt_Some). done.
  - by rewrite list_lookup_alter_ne, list_lookup_insert_ne.
Qed.

(** A live session is found, and its count is raised by one. *)
Lemma get_for_client_connection_live (users : list telnet_user_t)
    (sid : Z) (i : nat) (s : telnet_user_t) :
  list_find (fun tmp => service_id tmp = sid) users = Some (i, s) →
  telnet_user_is_zombie s = false →
  telnet_user_get_for_client_connection users sid =
    (Returned (Some i),
     alter (fun s => set_locsrv_connection_count s
                       (locsrv_connection_count s + 1)%Z) i users).
Proof.
  intros Hfind Hz. unfold telnet_user_get_for_client_connection.
  rewrite Hfind. cbn.
  unfold telnet_user_is_zombie in Hz.
  replace (task_finished s || socket_closed s) with false
    by (destruct (task_finished s), (socket_closed s); done).
  done.
Qed.

(** ** Receive path: telnet commands across buffer fills *)

(** C2 (defect in the code): the command state lives in variables of the
    outer loop body and is lost whenever the buffer runs empty inside a
    command.  Of the eight ways to cut IAC DO 0x18 'A' into segments, the
    two that keep the three command bytes in one fill deliver 'A' alone;
    in the other six, command bytes reach the caller. *)
Theorem recv_iac_split_across_fills :
  (fun segs =>
     recv_returns
       (telnet_user_recv 4096 (fresh_user 4096 4096) (peer_sends segs) 4))
    <$> iac_do_splits =
  [ Some (EOK, [65]);
    Some (EOK, [65]);
    Some (EOK, [24; 65]);
    Some (EOK, [24]);
    Some (EOK, [253; 24; 65]);
    Some (EOK, [253; 24]);
    Some (EOK, [253]);
    Some (EOK, [253]) ]%Z.
Proof. vm_compute. reflexivity. Qed.

(** ** Receive path: the transport and the buffer *)

Lemma list_inserts_splice {A} (i : nat) (k l : list A) :
  i + length k ≤ length l →
  list_inserts i k l = take i l ++ k ++ drop (i + length k) l.
Proof.
  intros Hlen.
  rewrite <-(take_drop i l) at 1.
  replace i with (length (take i l) + 0) at 1
    by (rewrite length_take; lia).
  rewrite list_inserts_app_r. f_equal.
  rewrite <-(take_drop (length k) (drop i l)) at 1.
  rewrite list_inserts_0_r by (rewrite length_take, length_drop; lia).
  by rewrite drop_drop.
Qed.

Lemma list_inserts_prefix {A} (k l : list A) :
  length k ≤ length l → list_inserts 0 k l = k ++ drop (length k) l.
Proof. intros Hlen. by rewrite list_inserts_splice. Qed.

Lemma take_inserts_append {A} (i : nat) (k l : list A) :
  i + length k ≤ length l →
  take (i + length k) (list_inserts i k l) = take i l ++ k.
Proof.
  intros Hlen. rewrite list_inserts_splice by done.
  rewrite app_assoc.
  rewrite take_app_length'; [done|].
  rewrite length_app, length_take. lia.
Qed.

Lemma recv_wait_events_Done (r : list rx_event) (fin : rx_end) (n : nat)
    (rc : errno_t) (bs : list byte) (r' : list rx_event) :
  recv_wait_events r fin n = Done (rc, bs, r') →
  rx_stream r = bs ++ rx_stream r' ∧ length r' ≤ length r ∧ length bs ≤ n ∧
  (rc ≠ EOK → bs = [] ∧ length r' < length r ∧ ∃ code, rc = Zpos code) ∧
  (rc = EOK → bs = [] → n = 0 ∨ (r' = [] ∧ fin = PeerClosed)).
Proof.
  revert rc bs r'. induction r as [|e r IH]; intros rc bs r' H; cbn in H.
  - destruct fin; [done|]. injection H as <- <- <-. cbn.
    split_and!; auto with lia.
  - destruct e as [[|b bs0]|code].
    + apply IH in H as (Hs & Hl & Hn & He & Hc). cbn.
      split_and!; auto with lia.
      intros Hrc. destruct (He Hrc) as (? & ? & ?). auto with lia.
    + injection H as <- <- <-.
      assert (Hlen : length (take n (b :: bs0)) ≤ n)
        by (rewrite length_take; lia).
      assert (Hstream : rx_stream (RxData (b :: bs0) :: r) =
                take n (b :: bs0) ++
                rx_stream (match drop n (b :: bs0) with
                           | [] => r
                           | rest => RxData rest :: r
                           end)).
      { change (rx_stream (RxData (b :: bs0) :: r))
          with ((b :: bs0) ++ rx_stream r).
        rewrite <-(take_drop n (b :: bs0)) at 1.
        destruct (drop n (b :: bs0)) as [|x rest].
        - by rewrite app_nil_r.
        - cbn [rx_stream]. by rewrite <-app_assoc. }
      split_and!; [done| |done|done|].
      * destruct (drop n (b :: bs0)); cbn; lia.
      * intros _ Htake. left. destruct n; [done|discriminate].
    + injection H as <- <- <-. cbn. split_and!; auto with lia.
      * intros _. split_and!; eauto with lia.
      * intros; discriminate.
Qed.

Lemma recv_wait_events_no_fault (r : list rx_event) (fin : rx_end) (n : nat) :
  recv_wait_events r fin n ≠ AssertFailed ∧
  recv_wait_events r fin n ≠ OutOfFuel.
Proof.
  induction r as [|[[|b bs]|code] r IH]; cbn; [destruct fin|..]; done.
Qed.

Section Receive.

Variable BUFFER_SIZE : nat.
Variable SEND_BUF_SIZE : nat.

Local Abbreviation fill := (telnet_user_fill_recv_buf BUFFER_SIZE).
Local Abbreviation next_byte := (telnet_user_recv_next_byte_locked BUFFER_SIZE).
Local Abbreviation skip_loop := (recv_skip_loop BUFFER_SIZE).
Local Abbreviation recv_loop' := (recv_loop BUFFER_SIZE).
Local Abbreviation recv := (telnet_user_recv BUFFER_SIZE).
Local Abbreviation typed := (buffers_typed BUFFER_SIZE SEND_BUF_SIZE).
Local Abbreviation inv := (index_inv BUFFER_SIZE SEND_BUF_SIZE).

Lemma fill_recv_buf_Done (u : telnet_user_t) (c : tcp_conn_t) (rc : errno_t)
    (u' : telnet_user_t) (c' : tcp_conn_t) :
  fill u c = Done (rc, u', c') → fill_case BUFFER_SIZE u c rc u' c'.
Proof.
  unfold telnet_user_fill_recv_buf, tcp_conn_recv_wait.
  destruct (recv_wait_events (rx c) (rx_fin c) BUFFER_SIZE)
    as [[[rc0 bs] r']| | |] eqn:Hw; try done.
  apply recv_wait_events_Done in Hw as (Hs & Hl & Hn & He & Hc).
  destruct (rc0 =? EOK)%Z eqn:Hrc; cbn.
  - apply Z.eqb_eq in Hrc as ->.
    destruct bs as [|b bs]; cbn.
    + intros [= <- <- <-]. apply fill_closed; auto.
    + intros [= <- <- <-]. by apply fill_data.
  - apply Z.eqb_neq in Hrc. intros [= <- <- <-].
    destruct (He Hrc) as (-> & Hlt & code & ->).
    by apply fill_error.
Qed.

Lemma fill_recv_buf_no_fault (u : telnet_user_t) (c : tcp_conn_t) :
  fill u c ≠ AssertFailed ∧ fill u c ≠ OutOfFuel.
Proof.
  unfold telnet_user_fill_recv_buf, tcp_conn_recv_wait.
  pose proof (recv_wait_events_no_fault (rx c) (rx_fin c) BUFFER_SIZE) as [? ?].
  destruct (recv_wait_events (rx c) (rx_fin c) BUFFER_SIZE)
    as [[[rc0 bs] r']| | |]; try done.
  destruct (negb (rc0 =? EOK)%Z); [done|].
  destruct (length bs =? 0); done.
Qed.

Lemma recv_next_byte_Done (u : telnet_user_t) (c : tcp_conn_t) (rc : errno_t)
    (b : byte) (u' : telnet_user_t) (c' : tcp_conn_t) :
  next_byte u c = Done (rc, b, u', c') →
  next_byte_case BUFFER_SIZE u c rc b u' c'.
Proof.
  unfold telnet_user_recv_next_byte_locked.
  destruct (socket_buffer_len u <=? socket_buffer_pos u) eqn:Hdrained.
  - apply Nat.leb_le in Hdrained.
    destruct (fill u c) as [[[rc0 u0] c0]| | |] eqn:Hfill; try done.
    apply fill_recv_buf_Done in Hfill.
    destruct (rc0 =? EOK)%Z eqn:Hrc; cbn.
    + apply Z.eqb_eq in Hrc as ->. intros [= <- <- <- <-].
      inversion Hfill; subst. by apply next_filled.
    + apply Z.eqb_neq in Hrc. intros [= <- <- <- <-].
      by apply next_failed.
  - apply Nat.leb_gt in Hdrained. intros [= <- <- <- <-].
    by apply next_buffered.
Qed.

Lemma recv_next_byte_no_fault (u : telnet_user_t) (c : tcp_conn_t) :
  next_byte u c ≠ AssertFailed ∧ next_byte u c ≠ OutOfFuel.
Proof.
  unfold telnet_user_recv_next_byte_locked.
  destruct (socket_buffer_len u <=? socket_buffer_pos u); [|done].
  pose proof (fill_recv_buf_no_fault u c) as [? ?].
  destruct (fill u c) as [[[rc0 u0] c0]| | |]; try done.
  destruct (negb (rc0 =? EOK)%Z); done.
Qed.

(** A byte taken from the buffer does not touch the connection. *)
Lemma recv_next_byte_avail (u : telnet_user_t) (c : tcp_conn_t) :
  telnet_user_byte_avail u = true →
  next_byte u c =
    Done (EOK, socket_buffer u !!! socket_buffer_pos u,
          set_socket_buffer_pos u (S (socket_buffer_pos u)), c).
Proof.
  unfold telnet_user_byte_avail, telnet_user_recv_next_byte_locked.
  intros Hav%Nat.ltb_lt.
  destruct (socket_buffer_len u <=? socket_buffer_pos u) eqn:Hd; [|done].
  apply Nat.leb_le in Hd. lia.
Qed.

(** Every byte read lowers the budget of the loops. *)
Lemma next_byte_case_budget (u : telnet_user_t) (c : tcp_conn_t) (b : byte)
    (u' : telnet_user_t) (c' : tcp_conn_t) :
  next_byte_case BUFFER_SIZE u c EOK b u' c' →
  recv_budget u' c' < recv_budget u c.
Proof.
  unfold recv_budget. inversion 1; subst; cbn; [lia| |done].
  match goal with H : rx_stream _ = _ |- _ => rewrite H end.
  cbn. rewrite length_app. lia.
Qed.

Lemma fill_case_inv (u : telnet_user_t) (c : tcp_conn_t) (rc : errno_t)
    (u' : telnet_user_t) (c' : tcp_conn_t) :
  fill_case BUFFER_SIZE u c rc u' c' → rc ≠ EOK → inv u → inv u'.
Proof. inversion 1; subst; done. Qed.

Lemma next_byte_case_inv (u : telnet_user_t) (c : tcp_conn_t) (rc : errno_t)
    (b : byte) (u' : telnet_user_t) (c' : tcp_conn_t) :
  next_byte_case BUFFER_SIZE u c rc b u' c' → inv u → inv u'.
Proof.
  unfold index_inv. inversion 1; subst; cbn; intros (? & ? & ?).
  - lia.
  - cbn in *. lia.
  - by eapply (fill_case_inv u c rc).
Qed.

(** *** The loops as runs *)

Lemma recv_skip_loop_S (fuel : nat) (u : telnet_user_t) (c : tcp_conn_t)
    (inside : bool) (code : telnet_cmd_t) :
  skip_loop (S fuel) u c inside code =
  match next_byte u c with
  | Done (rc, b, u1, c1) =>
      if negb (rc =? EOK)%Z then Done (rc, b, u1, c1)
      else if ((recv_filter_byte inside code b).1.2 =? 0)%Z
              && telnet_user_byte_avail u1
           then skip_loop fuel u1 c1 (recv_filter_byte inside code b).1.1
                  (recv_filter_byte inside code b).2
           else Done (EOK, (recv_filter_byte inside code b).1.2, u1, c1)
  | Blocked => Blocked
  | AssertFailed => AssertFailed
  | OutOfFuel => OutOfFuel
  end.
Proof.
  cbn [recv_skip_loop].
  destruct (next_byte u c) as [[[[rc b] u1] c1]| | |]; try done.
  destruct (negb (rc =? EOK)%Z); [done|].
  destruct (recv_filter_byte inside code b) as [[i n] o]. cbn [fst snd].
  unfold process_telnet_command.
  by destruct (inside && negb (TELNET_IS_OPTION_CODE b)).
Qed.

Lemma recv_skip_loop_run (fuel : nat) (u : telnet_user_t) (c : tcp_conn_t)
    (inside : bool) (code : telnet_cmd_t) (rc : errno_t) (nb : byte)
    (u' : telnet_user_t) (c' : tcp_conn_t) :
  skip_loop fuel u c inside code = Done (rc, nb, u', c') →
  skip_run BUFFER_SIZE u c inside code rc nb u' c'.
Proof.
  revert u c inside code.
  induction fuel as [|fuel IH]; intros u c inside code; [done|].
  rewrite recv_skip_loop_S.
  destruct (next_byte u c) as [[[[rc0 b] u1] c1]| | |] eqn:Hnb; try done.
  apply recv_next_byte_Done in Hnb.
  destruct (rc0 =? EOK)%Z eqn:Hrc; cbn [negb].
  - apply Z.eqb_eq in Hrc as ->.
    destruct (((recv_filter_byte inside code b).1.2 =? 0)%Z
              && telnet_user_byte_avail u1) eqn:Hcond.
    + intros Hrun. apply andb_true_iff in Hcond as [Hz%Z.eqb_eq Hav].
      eapply skip_more; eauto.
    + intros [= <- <- <- <-]. by apply skip_stop.
  - apply Z.eqb_neq in Hrc. intros [= <- <- <- <-]. by apply skip_fail.
Qed.

(** The inner loop never runs out of the budget, and never fails an
    assertion. *)
Lemma recv_skip_loop_no_fault (fuel : nat) (u : telnet_user_t)
    (c : tcp_conn_t) (inside : bool) (code : telnet_cmd_t) :
  recv_budget u c < fuel →
  skip_loop fuel u c inside code ≠ AssertFailed ∧
  skip_loop fuel u c inside code ≠ OutOfFuel.
Proof.
  revert u c inside code.
  induction fuel as [|fuel IH]; intros u c inside code Hfuel; [lia|].
  rewrite recv_skip_loop_S.
  pose proof (recv_next_byte_no_fault u c) as [? ?].
  destruct (next_byte u c) as [[[[rc0 b] u1] c1]| | |] eqn:Hnb; try done.
  apply recv_next_byte_Done in Hnb.
  destruct (rc0 =? EOK)%Z eqn:Hrc; cbn [negb]; [|done].
  apply Z.eqb_eq in Hrc as ->.
  destruct (((recv_filter_byte inside code b).1.2 =? 0)%Z
            && telnet_user_byte_avail u1); [|done].
  apply IH. apply next_byte_case_budget in Hnb. lia.
Qed.

Lemma skip_run_budget (u : telnet_user_t) (c : tcp_conn_t) (inside : bool)
    (code : telnet_cmd_t) (nb : byte) (u' : telnet_user_t) (c' : tcp_conn_t) :
  skip_run BUFFER_SIZE u c inside code EOK nb u' c' →
  recv_budget u' c' < recv_budget u c.
Proof.
  remember EOK as rc eqn:Hrc.
  induction 1 as [| |u c inside code b u1 c1 rc nb u' c' Hnb Hz Hav Hrun IH];
    subst.
  - done.
  - by eapply next_byte_case_budget.
  - apply next_byte_case_budget in Hnb. specialize (IH eq_refl). lia.
Qed.

Lemma recv_loop_S (fuel : nat) (u : telnet_user_t) (c : tcp_conn_t)
    (size : nat) (dst : list byte) :
  recv_loop' (S fuel) u c size dst =
  match skip_loop (S (recv_budget u c)) u c false 0%Z with
  | Done (rc, b, u1, c1) =>
      if negb (rc =? EOK)%Z then Done (rc, dst, u1, c1)
      else if recv_continue u1 (recv_store dst size b).1
                (recv_store dst size b).2
           then recv_loop' fuel u1 c1 (recv_store dst size b).2
                  (recv_store dst size b).1
           else Done (EOK, (recv_store dst size b).1, u1, c1)
  | Blocked => Blocked
  | AssertFailed => AssertFailed
  | OutOfFuel => OutOfFuel
  end.
Proof.
  cbn [recv_loop].
  destruct (skip_loop _ u c false 0%Z) as [[[[rc b] u1] c1]| | |]; try done.
  destruct (negb (rc =? EOK)%Z); [done|].
  unfold recv_store, recv_continue.
  by destruct (negb ((if (b =? 13)%Z then 10%Z else b) =? 0)%Z).
Qed.

Lemma recv_loop_run (fuel : nat) (u : telnet_user_t) (c : tcp_conn_t)
    (size : nat) (dst : list byte) (rc : errno_t) (out : list byte)
    (u' : telnet_user_t) (c' : tcp_conn_t) :
  recv_loop' fuel u c size dst = Done (rc, out, u', c') →
  recv_run BUFFER_SIZE u c size dst rc out u' c'.
Proof.
  revert u c size dst.
  induction fuel as [|fuel IH]; intros u c size dst; [done|].
  rewrite recv_loop_S.
  destruct (skip_loop _ u c false 0%Z) as [[[[rc0 b] u1] c1]| | |] eqn:Hskip;
    try done.
  apply recv_skip_loop_run in Hskip.
  destruct (rc0 =? EOK)%Z eqn:Hrc; cbn [negb].
  - apply Z.eqb_eq in Hrc as ->.
    destruct (recv_continue u1 _ _) eqn:Hcond.
    + intros Hrun. eapply recv_more; eauto.
    + intros [= <- <- <- <-]. by apply recv_stop.
  - apply Z.eqb_neq in Hrc. intros [= <- <- <- <-].
    by apply (recv_fail BUFFER_SIZE u c size dst rc0 b).
Qed.

Lemma recv_loop_no_fault (fuel : nat) (u : telnet_user_t) (c : tcp_conn_t)
    (size : nat) (dst : list byte) :
  recv_budget u c < fuel →
  recv_loop' fuel u c size dst ≠ AssertFailed ∧
  recv_loop' fuel u c size dst ≠ OutOfFuel.
Proof.
  revert u c size dst.
  induction fuel as [|fuel IH]; intros u c size dst Hfuel; [lia|].
  rewrite recv_loop_S.
  pose proof (recv_skip_loop_no_fault (S (recv_budget u c)) u c false 0%Z)
    as [? ?]; [lia|].
  destruct (skip_loop _ u c false 0%Z) as [[[[rc0 b] u1] c1]| | |] eqn:Hskip;
    try done.
  apply recv_skip_loop_run in Hskip.
  destruct (rc0 =? EOK)%Z eqn:Hrc; cbn [negb]; [|done].
  apply Z.eqb_eq in Hrc as ->.
  destruct (recv_continue u1 _ _); [|done].
  apply IH. apply skip_run_budget in Hskip. lia.
Qed.

(** A returned call is a run of the outer loop on a positive size. *)
Lemma telnet_user_recv_run (u : telnet_user_t) (c : tcp_conn_t) (size : nat)
    (rc : errno_t) (out : list byte) (u' : telnet_user_t) (c' : tcp_conn_t) :
  recv u c size = Done (rc, out, u', c') →
  0 < size ∧ recv_run BUFFER_SIZE u c size [] rc out u' c'.
Proof.
  unfold telnet_user_recv. destruct size as [|size]; [done|].
  cbn [Nat.eqb]. intros H%recv_loop_run. split; [lia|done].
Qed.

(** A call on a positive size returns or blocks. *)
Lemma telnet_user_recv_no_fault (u : telnet_user_t) (c : tcp_conn_t)
    (size : nat) :
  0 < size →
  recv u c size ≠ AssertFailed ∧ recv u c size ≠ OutOfFuel.
Proof.
  unfold telnet_user_recv. destruct size as [|size]; [lia|].
  intros _. cbn [Nat.eqb]. apply recv_loop_no_fault. lia.
Qed.

(** *** What the filter lets through *)

Lemma recv_filter_byte_not_iac (inside : bool) (code : telnet_cmd_t)
    (b : byte) :
  (recv_filter_byte inside code b).1.2 ≠ 255%Z.
Proof.
  unfold recv_filter_byte, TELNET_IAC.
  destruct inside; [destruct (TELNET_IS_OPTION_CODE b)|];
    destruct (b =? 255)%Z eqn:Hb; cbn; try done.
  by apply Z.eqb_neq in Hb.
Qed.

Lemma recv_filter_byte_plain (code : telnet_cmd_t) (b : byte) :
  b ≠ 255%Z → recv_filter_byte false code b = (false, b, code).
Proof.
  intros Hb%Z.eqb_neq. unfold recv_filter_byte, TELNET_IAC. by rewrite Hb.
Qed.

Lemma skip_run_not_iac (u : telnet_user_t) (c : tcp_conn_t) (inside : bool)
    (code : telnet_cmd_t) (nb : byte) (u' : telnet_user_t) (c' : tcp_conn_t) :
  skip_run BUFFER_SIZE u c inside code EOK nb u' c' → nb ≠ 255%Z.
Proof.
  remember EOK as rc eqn:Hrc.
  induction 1; subst; [done| |by auto].
  apply recv_filter_byte_not_iac.
Qed.

Lemma recv_store_deliverable (dst : list byte) (size : nat) (nb : byte) :
  nb ≠ 255%Z → Forall deliverable dst →
  Forall deliverable (recv_store dst size nb).1.
Proof.
  intros Hnb Hdst. unfold recv_store.
  destruct (nb =? 13)%Z eqn:H13; cbn.
  - apply Forall_app. split; [done|]. by repeat constructor.
  - apply Z.eqb_neq in H13.
    destruct (nb =? 0)%Z eqn:H0; cbn; [done|]. apply Z.eqb_neq in H0.
    apply Forall_app. split; [done|]. by repeat constructor.
Qed.

Lemma recv_store_length (dst : list byte) (size : nat) (nb : byte) :
  0 < size →
  length (recv_store dst size nb).1 + (recv_store dst size nb).2
  = length dst + size ∧
  ((recv_store dst size nb).2 = 0 → 1 ≤ length (recv_store dst size nb).1).
Proof.
  intros Hsize. unfold recv_store.
  destruct (negb _); cbn; rewrite ?length_app; cbn; lia.
Qed.

Lemma recv_run_deliverable (u : telnet_user_t) (c : tcp_conn_t) (size : nat)
    (dst : list byte) (rc : errno_t) (out : list byte) (u' : telnet_user_t)
    (c' : tcp_conn_t) :
  recv_run BUFFER_SIZE u c size dst rc out u' c' →
  Forall deliverable dst → Forall deliverable out.
Proof.
  induction 1 as [|u c size dst b u' c' Hskip Hcond
                  |u c size dst b u1 c1 rc out u' c' Hskip Hcond Hrun IH];
    intros Hdst.
  - done.
  - apply recv_store_deliverable; [|done]. by eapply skip_run_not_iac.
  - apply IH, recv_store_deliverable; [|done]. by eapply skip_run_not_iac.
Qed.

(** A successful run stores at least one byte and at most [size]. *)
Lemma recv_run_length (u : telnet_user_t) (c : tcp_conn_t) (size : nat)
    (dst : list byte) (rc : errno_t) (out : list byte) (u' : telnet_user_t)
    (c' : tcp_conn_t) :
  recv_run BUFFER_SIZE u c size dst rc out u' c' →
  0 < size →
  length out ≤ length dst + size ∧ (rc = EOK → 1 ≤ length out).
Proof.
  induction 1 as [|u c size dst b u' c' Hskip Hcond
                  |u c size dst b u1 c1 rc out u' c' Hskip Hcond Hrun IH];
    intros Hsize.
  - split; [lia|done].
  - destruct (recv_store_length dst size b Hsize) as [Hlen Hzero].
    split; [lia|]. intros _.
    unfold recv_continue in Hcond.
    apply andb_false_iff in Hcond as [Hs|Hc].
    + apply Nat.ltb_ge in Hs. apply Hzero. lia.
    + apply orb_false_iff in Hc as [_ Hl%Nat.eqb_neq]. lia.
  - destruct (recv_store_length dst size b Hsize) as [Hlen _].
    unfold recv_continue in Hcond.
    apply andb_true_iff in Hcond as [Hs%Nat.ltb_lt _].
    destruct (IH Hs) as [Hout Hok]. split; [lia|done].
Qed.

(** *** The stream of pending input *)

Lemma decode_plain_cons (b : byte) (s : list byte) :
  decode_plain (b :: s) =
  (if (b =? 0)%Z then [] else [cr_to_lf b]) ++ decode_plain s.
Proof.
  unfold decode_plain. destruct (b =? 0)%Z eqn:Hb.
  - apply Z.eqb_eq in Hb as ->. by rewrite filter_cons_False by auto.
  - apply Z.eqb_neq in Hb. by rewrite filter_cons_True by done.
Qed.

Lemma recv_store_decode (dst : list byte) (size : nat) (nb : byte) :
  (recv_store dst size nb).1 =
  dst ++ (if (nb =? 0)%Z then [] else [cr_to_lf nb]).
Proof.
  unfold recv_store, cr_to_lf.
  destruct (nb =? 13)%Z eqn:H13.
  - apply Z.eqb_eq in H13 as ->. done.
  - destruct (nb =? 0)%Z; cbn; [by rewrite app_nil_r|done].
Qed.

Lemma fill_case_stream (u : telnet_user_t) (c : tcp_conn_t) (rc : errno_t)
    (u' : telnet_user_t) (c' : tcp_conn_t) :
  fill_case BUFFER_SIZE u c rc u' c' → rc ≠ EOK →
  in_stream u' c' = in_stream u c ∧ (typed u → typed u').
Proof.
  unfold in_stream. inversion 1; subst; cbn; try done.
  all: intros _; split; [congruence|done].
Qed.

(** A byte read is the head of the pending input. *)
Lemma next_byte_case_stream (u : telnet_user_t) (c : tcp_conn_t) (b : byte)
    (u' : telnet_user_t) (c' : tcp_conn_t) :
  next_byte_case BUFFER_SIZE u c EOK b u' c' →
  typed u → inv u →
  in_stream u c = b :: in_stream u' c' ∧ typed u'.
Proof.
  unfold in_stream, buffers_typed, index_inv.
  inversion 1 as [Hav|b0 bs r' Hd Hs Hl Hn|]; subst; simpl_fields;
    intros [Hbuf Hsend] (Hpos & Hlen & Hused); [| |done].
  - split; [|done].
    rewrite (drop_S _ (socket_buffer u !!! socket_buffer_pos u)); [done|].
    rewrite lookup_take_lt by done.
    apply list_lookup_lookup_total_lt. lia.
  - rewrite length_inserts. split; [|done].
    rewrite list_inserts_prefix by lia.
    rewrite take_app_length, Hs.
    rewrite drop_ge by (rewrite length_take; lia).
    done.
Qed.

Lemma skip_run_stream (u : telnet_user_t) (c : tcp_conn_t) (inside : bool)
    (code : telnet_cmd_t) (rc : errno_t) (nb : byte) (u' : telnet_user_t)
    (c' : tcp_conn_t) :
  skip_run BUFFER_SIZE u c inside code rc nb u' c' →
  inside = false → typed u → inv u →
  Forall (fun b => b ≠ 255%Z) (in_stream u c) →
  decode_plain (in_stream u c) =
    (if (rc =? EOK)%Z
     then (if (nb =? 0)%Z then [] else [cr_to_lf nb]) else [])
    ++ decode_plain (in_stream u' c') ∧
  typed u' ∧ inv u' ∧ Forall (fun b => b ≠ 255%Z) (in_stream u' c').
Proof.
  induction 1 as [u c inside code rc b u' c' Hnb Hrc
                 |u c inside code b u' c' Hnb Hcond
                 |u c inside code b u1 c1 rc nb u' c' Hnb Hz Hav Hrun IH];
    intros -> Hty Hinv Hplain.
  - pose proof (next_byte_case_inv _ _ _ _ _ _ Hnb Hinv) as Hinv'.
    inversion Hnb as [| |? ? ? ? ? Hfill]; subst; try done.
    destruct (fill_case_stream _ _ _ _ _ Hfill Hrc) as [Hs Hty'].
    apply Z.eqb_neq in Hrc. rewrite Hrc, Hs. auto.
  - pose proof (next_byte_case_inv _ _ _ _ _ _ Hnb Hinv) as Hinv'.
    destruct (next_byte_case_stream _ _ _ _ _ Hnb Hty Hinv) as [Hs Hty'].
    rewrite Hs in Hplain |- *. apply Forall_cons in Hplain as [Hb Hplain].
    rewrite recv_filter_byte_plain by done. cbn [fst snd Z.eqb].
    rewrite decode_plain_cons. auto.
  - pose proof (next_byte_case_inv _ _ _ _ _ _ Hnb Hinv) as Hinv'.
    destruct (next_byte_case_stream _ _ _ _ _ Hnb Hty Hinv) as [Hs Hty'].
    rewrite Hs in Hplain |- *. apply Forall_cons in Hplain as [Hb Hplain].
    rewrite recv_filter_byte_plain in Hz, IH by done. cbn [fst snd] in Hz, IH.
    subst b. rewrite decode_plain_cons. cbn [Z.eqb app]. by apply IH.
Qed.

(** On input without IAC, the bytes stored are the decoded bytes
    consumed, in order. *)
Lemma recv_run_stream (u : telnet_user_t) (c : tcp_conn_t) (size : nat)
    (dst : list byte) (rc : errno_t) (out : list byte) (u' : telnet_user_t)
    (c' : tcp_conn_t) :
  recv_run BUFFER_SIZE u c size dst rc out u' c' →
  typed u → inv u →
  Forall (fun b => b ≠ 255%Z) (in_stream u c) →
  dst ++ decode_plain (in_stream u c) = out ++ decode_plain (in_stream u' c').
Proof.
  induction 1 as [u c size dst rc b u' c' Hskip Hrc
                 |u c size dst b u' c' Hskip Hcond
                 |u c size dst b u1 c1 rc out u' c' Hskip Hcond Hrun IH];
    intros Hty Hinv Hplain.
  - destruct (skip_run_stream _ _ _ _ _ _ _ _ Hskip eq_refl Hty Hinv Hplain)
      as (Hs & _). apply Z.eqb_neq in Hrc. rewrite Hrc in Hs.
    by rewrite Hs.
  - destruct (skip_run_stream _ _ _ _ _ _ _ _ Hskip eq_refl Hty Hinv Hplain)
      as (Hs & _). cbn in Hs.
    by rewrite Hs, recv_store_decode, <-app_assoc.
  - destruct (skip_run_stream _ _ _ _ _ _ _ _ Hskip eq_refl Hty Hinv Hplain)
      as (Hs & Hty' & Hinv' & Hplain'). cbn in Hs.
    rewrite <-(IH Hty' Hinv' Hplain').
    by rewrite Hs, recv_store_decode, <-app_assoc.
Qed.

End Receive.

(** C3: no byte that [recv] stores for its caller is 0, 13 or 255,
    whatever the session, the connection and the capacity.  On pending
    input without IAC the bytes stored are, in order, the decoding of the
    bytes consumed: NUL dropped and CR turned into LF.  The peer's bytes
    'x' CR 'y' are delivered as 'x' LF 'y'. *)
Theorem recv_delivers_no_nul_cr_iac (BUFFER_SIZE SEND_BUF_SIZE : nat)
    (u : telnet_user_t) (c : tcp_conn_t) (size : nat) :
  Forall deliverable (delivered (telnet_user_recv BUFFER_SIZE u c size)) ∧
  (buffers_typed BUFFER_SIZE SEND_BUF_SIZE u →
   index_inv BUFFER_SIZE SEND_BUF_SIZE u →
   Forall (fun b => b ≠ 255%Z) (in_stream u c) →
   ∀ rc out u' c',
     telnet_user_recv BUFFER_SIZE u c size = Done (rc, out, u', c') →
     decode_plain (in_stream u c) = out ++ decode_plain (in_stream u' c')) ∧
  recv_returns
    (telnet_user_recv 4096 (fresh_user 4096 4096)
       (peer_sends [[120; 13; 121]%Z]) 3)
  = Some (EOK, [120; 10; 121]%Z).
Proof.
  split_and!.
  - destruct (telnet_user_recv BUFFER_SIZE u c size)
      as [[[[rc dst] u'] c']| | |] eqn:Hrecv; cbn; try done.
    apply telnet_user_recv_run in Hrecv as [_ Hrun].
    by eapply recv_run_deliverable.
  - intros Hty Hinv Hplain rc out u' c' [_ Hrun]%telnet_user_recv_run.
    by apply (recv_run_stream BUFFER_SIZE SEND_BUF_SIZE) in Hrun.
  - by vm_compute.
Qed.

Lemma recv_delivers_no_nul_cr_iac_witness :
  ∃ u' c',
    telnet_user_recv 4 (fresh_user 4 4)
      (peer_sends [[120; 0; 13]; [121]]%Z) 4
    = Done (EOK, [120; 10]%Z, u', c') ∧
    decode_plain
      (in_stream (fresh_user 4 4) (peer_sends [[120; 0; 13]; [121]]%Z))
    = [120; 10]%Z ++ decode_plain (in_stream u' c').
Proof.
  destruct (recv_delivers_no_nul_cr_iac 4 4 (fresh_user 4 4)
              (peer_sends [[120; 0; 13]; [121]]%Z) 4) as (_ & Hdec & _).
  eexists _, _. split; [vm_compute; reflexivity|].
  eapply (Hdec ltac:(split; reflexivity)
               ltac:(unfold index_inv; cbn; lia)
               ltac:(by repeat constructor) EOK).
  vm_compute. reflexivity.
Defined.

(** C5: a call of [recv] with a positive capacity never returns success
    with zero bytes: it returns success with at least one byte (and at
    most [size]), or it returns an error, or it blocks; on a stream of NUL
    bytes followed by silence it blocks. *)
Theorem recv_success_delivers_a_byte (BUFFER_SIZE : nat)
    (u : telnet_user_t) (c : tcp_conn_t) (size : nat) :
  0 < size →
  match telnet_user_recv BUFFER_SIZE u c size with
  | Done (rc, dst, _, _) => rc = EOK → 1 ≤ length dst ≤ size
  | Blocked => True
  | AssertFailed => False
  | OutOfFuel => False
  end ∧
  telnet_user_recv 4096 (fresh_user 4096 4096) (peer_sends [[0; 0]%Z]) 4
    = Blocked.
Proof.
  intros Hsize. split; [|by vm_compute].
  pose proof (telnet_user_recv_no_fault BUFFER_SIZE u c size Hsize) as [Ha Hf].
  destruct (telnet_user_recv BUFFER_SIZE u c size)
    as [[[[rc dst] u'] c']| | |] eqn:Hrecv; try done.
  apply telnet_user_recv_run in Hrecv as [_ Hrun].
  apply recv_run_length in Hrun as [Hlen Hok]; [|done].
  intros Hrc. specialize (Hok Hrc). cbn in Hlen. lia.
Qed.

Lemma recv_success_delivers_a_byte_witness :
  match telnet_user_recv 8 (fresh_user 8 8) (peer_sends [[120; 13; 121]%Z]) 2
  with
  | Done (rc, dst, _, _) => rc = EOK → 1 ≤ length dst ≤ 2
  | _ => True
  end.
Proof.
  pose proof (recv_success_delivers_a_byte 8 (fresh_user 8 8)
                (peer_sends [[120; 13; 121]%Z]) 2 ltac:(lia)) as [H _].
  destruct (telnet_user_recv 8 (fresh_user 8 8)
              (peer_sends [[120; 13; 121]%Z]) 2) as [[[[rc dst] u'] c']| | |];
    done.
Defined.

(** ** Send path: the batch buffer *)

Lemma tcp_conn_send_spec (c : tcp_conn_t) (data : list byte) :
  let '(rc, c') := tcp_conn_send c data in
  rx c' = rx c ∧ rx_fin c' = rx_fin c ∧
  (if (rc =? EOK)%Z then tx c' = tx c ++ data else tx c' = tx c) ∧
  (tx_ok c → rc = EOK ∧ tx_ok c').
Proof.
  unfold tcp_conn_send, tx_ok. destruct (tx_rc c) as [|rc rcs]; cbn.
  - split_and!; try done.
  - destruct (rc =? EOK)%Z eqn:Hrc; cbn.
    + split_and!; try done. intros [_ ?]%Forall_cons. done.
    + rewrite Hrc. split_and!; try done.
      intros [Heq ?]%Forall_cons. by apply Z.eqb_neq in Hrc.
Qed.

Lemma same_but_send_refl (u : telnet_user_t) : same_but_send u u.
Proof. by destruct u. Qed.

Lemma same_but_send_trans (u1 u2 u3 : telnet_user_t) :
  same_but_send u1 u2 → same_but_send u2 u3 → same_but_send u1 u3.
Proof. unfold same_but_send. intros -> ->. done. Qed.

Lemma same_but_send_set (u : telnet_user_t) (b : list byte) (n : nat) :
  same_but_send u (set_send_buf u b n).
Proof. done. Qed.

Section Send.

Variable BUFFER_SIZE : nat.
Variable SEND_BUF_SIZE : nat.

Local Abbreviation send_loop := (send_raw_loop SEND_BUF_SIZE).
Local Abbreviation send_raw := (telnet_user_send_raw_locked SEND_BUF_SIZE).
Local Abbreviation send_data := (telnet_user_send_data_locked SEND_BUF_SIZE).
Local Abbreviation flush := telnet_user_flush.
Local Abbreviation typed := (buffers_typed BUFFER_SIZE SEND_BUF_SIZE).
Local Abbreviation inv := (index_inv BUFFER_SIZE SEND_BUF_SIZE).

(** What a returned copy loop leaves behind. *)
Lemma send_raw_loop_Done (fuel : nat) (u : telnet_user_t) (c : tcp_conn_t)
    (remain : nat) (data : list byte) (rc : errno_t) (u' : telnet_user_t)
    (c' : tcp_conn_t) :
  remain = SEND_BUF_SIZE - send_buf_used u →
  send_buf_used u ≤ SEND_BUF_SIZE →
  send_loop fuel u c remain data = Done (rc, u', c') →
  same_but_send u u' ∧
  send_buf_used u' ≤ SEND_BUF_SIZE ∧
  length (send_buf u') = length (send_buf u) ∧
  rx c' = rx c ∧ rx_fin c' = rx_fin c ∧
  (tx_ok c → rc = EOK ∧ tx_ok c') ∧
  (rc = EOK → length (send_buf u) = SEND_BUF_SIZE →
   out_stream u' c' = out_stream u c ++ data).
Proof.
  revert u c remain data.
  induction fuel as [|fuel IH]; intros u c remain [|d ds] Hrem Hused;
    cbn [send_raw_loop].
  1,3: intros [= <- <- <-]; rewrite app_nil_r;
       split_and!; auto using same_but_send_refl.
  1: done.
  set (data := d :: ds).
  assert (Hstep : ∀ u1 c1 remain1,
    remain1 = SEND_BUF_SIZE - send_buf_used u1 →
    send_buf_used u1 ≤ SEND_BUF_SIZE →
    send_loop fuel
      (set_send_buf u1
         (list_inserts (send_buf_used u1)
            (take (remain1 `min` length data) data) (send_buf u1))
         (send_buf_used u1 + remain1 `min` length data))
      c1 (remain1 - remain1 `min` length data)
      (drop (remain1 `min` length data) data) = Done (rc, u', c') →
    same_but_send u1 u' ∧
    send_buf_used u' ≤ SEND_BUF_SIZE ∧
    length (send_buf u') = length (send_buf u1) ∧
    rx c' = rx c1 ∧ rx_fin c' = rx_fin c1 ∧
    (tx_ok c1 → rc = EOK ∧ tx_ok c') ∧
    (rc = EOK → length (send_buf u1) = SEND_BUF_SIZE →
     out_stream u' c' = out_stream u1 c1 ++ data)).
  { intros u1 c1 remain1 Hrem1 Hused1 Hrun.
    apply IH in Hrun as (Hsame & Hu & Hlen & Hrx & Hfin & Hok & Hout);
      simpl_fields; [|lia..].
    rewrite length_inserts in Hlen, Hout.
    split_and!; try done.
    intros Hrc Hbuf. rewrite (Hout Hrc Hbuf).
    unfold out_stream. simpl_fields.
    set (now := remain1 `min` length data).
    assert (Hnow : length (take now data) = now)
      by (rewrite length_take; lia).
    rewrite <-Hnow at 1.
    rewrite take_inserts_append by lia.
    by rewrite <-!app_assoc, take_drop. }
  destruct (remain =? 0) eqn:Hz.
  - apply Nat.eqb_eq in Hz.
    pose proof (tcp_conn_send_spec c (take SEND_BUF_SIZE (send_buf u)))
      as Hsend.
    destruct (tcp_conn_send c (take SEND_BUF_SIZE (send_buf u)))
      as [rc0 c0].
    destruct Hsend as (Hrx0 & Hfin0 & Htx0 & Hok0).
    destruct (rc0 =? EOK)%Z eqn:Hrc0; cbn [negb].
    + intros Hrun. apply Hstep in Hrun
        as (Hsame & Hu & Hlen & Hrx & Hfin & Hok & Hout); simpl_fields;
        [|lia..].
      split_and!; try congruence.
      * eapply same_but_send_trans; [apply same_but_send_set|done].
      * intros Hc. destruct (Hok0 Hc). auto.
      * intros Hrc Hbuf. rewrite (Hout Hrc Hbuf).
        unfold out_stream. simpl_fields. rewrite Htx0, take_0, app_nil_r.
        by replace (send_buf_used u) with SEND_BUF_SIZE by lia.
    + intros [= <- <- <-]. apply Z.eqb_neq in Hrc0.
      split_and!; auto using same_but_send_refl.
      all: first [done | intros Hc; by destruct (Hok0 Hc)].
  - by apply Hstep.
Qed.

(** With a buffer of positive size the copy loop returns. *)
Lemma send_raw_loop_returns (fuel : nat) (u : telnet_user_t) (c : tcp_conn_t)
    (remain : nat) (data : list byte) :
  0 < SEND_BUF_SIZE → length data ≤ fuel →
  ∃ r, send_loop fuel u c remain data = Done r.
Proof.
  intros Hpos. revert u c remain data.
  induction fuel as [|fuel IH]; intros u c remain [|d ds] Hfuel;
    cbn [send_raw_loop]; eauto; [cbn in Hfuel; lia|].
  set (data := d :: ds) in *.
  assert (Hstep : ∀ u1 c1 remain1, 0 < remain1 →
    ∃ r, send_loop fuel
      (set_send_buf u1
         (list_inserts (send_buf_used u1)
            (take (remain1 `min` length data) data) (send_buf u1))
         (send_buf_used u1 + remain1 `min` length data))
      c1 (remain1 - remain1 `min` length data)
      (drop (remain1 `min` length data) data) = Done r).
  { intros u1 c1 remain1 Hr. apply IH. rewrite length_drop.
    subst data. cbn [length] in *. lia. }
  destruct (remain =? 0) eqn:Hz.
  - destruct (tcp_conn_send c (take SEND_BUF_SIZE (send_buf u)))
      as [rc0 c0].
    destruct (negb (rc0 =? EOK)%Z); eauto.
  - apply Nat.eqb_neq in Hz. apply Hstep. lia.
Qed.

(** The copy loop touches the batch buffer only, whatever its state. *)
Lemma send_raw_loop_same (fuel : nat) (u : telnet_user_t) (c : tcp_conn_t)
    (remain : nat) (data : list byte) (rc : errno_t) (u' : telnet_user_t)
    (c' : tcp_conn_t) :
  send_loop fuel u c remain data = Done (rc, u', c') →
  same_but_send u u' ∧ rx c' = rx c ∧ rx_fin c' = rx_fin c.
Proof.
  revert u c remain data.
  induction fuel as [|fuel IH]; intros u c remain [|d ds];
    cbn [send_raw_loop]; try done.
  1,2: intros [= <- <- <-]; auto using same_but_send_refl.
  destruct (remain =? 0).
  - pose proof (tcp_conn_send_spec c (take SEND_BUF_SIZE (send_buf u)))
      as Hsend.
    destruct (tcp_conn_send c (take SEND_BUF_SIZE (send_buf u)))
      as [rc0 c0].
    destruct Hsend as (Hrx & Hfin & _).
    destruct (negb (rc0 =? EOK)%Z).
    + intros [= <- <- <-]. auto using same_but_send_refl.
    + intros (Hsame & Hrx' & Hfin')%IH. simpl_fields.
      split_and!; [by destruct u|congruence..].
  - intros (Hsame & Hrx' & Hfin')%IH. split; [by destruct u|done].
Qed.

(** *** Translation *)

Lemma send_data_step_spec (u : telnet_user_t) (d : byte) :
  (send_data_step u d).1 = lf_to_crlf [d] ∧
  (send_data_step u d).2 =
    set_cursor u
      (cursor_step (rows u) (cursor_x u, cursor_y u) d).1
      (cursor_step (rows u) (cursor_x u, cursor_y u) d).2.
Proof.
  unfold send_data_step, cursor_step, lf_to_crlf.
  cbn [flat_map]. rewrite app_nil_r.
  destruct (d =? 10)%Z eqn:H10; cbn [fst snd]; [done|].
  by destruct (d =? 8)%Z.
Qed.

Lemma send_data_convert_spec (u : telnet_user_t) (data conv : list byte) :
  (send_data_convert u data conv).1 = conv ++ lf_to_crlf data ∧
  (send_data_convert u data conv).2 =
    set_cursor u
      (foldl (cursor_step (rows u)) (cursor_x u, cursor_y u) data).1
      (foldl (cursor_step (rows u)) (cursor_x u, cursor_y u) data).2.
Proof.
  revert u conv. induction data as [|d data IH]; intros u conv.
  - cbn. rewrite app_nil_r. by destruct u.
  - cbn [send_data_convert foldl].
    destruct (send_data_step_spec u d) as [Hout Hu].
    destruct (send_data_step u d) as [out u1]. cbn [fst snd] in Hout, Hu.
    destruct (IH u1 (conv ++ out)) as [-> ->]. subst out u1.
    simpl_fields. rewrite <-surjective_pairing.
    split; [|done].
    rewrite <-app_assoc. f_equal.
    unfold lf_to_crlf. cbn [flat_map]. by rewrite app_nil_r.
Qed.

(** What a returned [send_data] leaves behind: the cursor follows the
    bytes submitted, the batch buffer and the wire take the translated
    bytes. *)
Lemma send_data_Done (ok : bool) (u : telnet_user_t) (c : tcp_conn_t)
    (data : list byte) (rc : errno_t) (u' : telnet_user_t) (c' : tcp_conn_t) :
  send_data ok u c data = Done (rc, u', c') →
  same_but_send
    (set_cursor u
       (foldl (cursor_step (rows u)) (cursor_x u, cursor_y u) data).1
       (foldl (cursor_step (rows u)) (cursor_x u, cursor_y u) data).2)
    u' ∧
  rx c' = rx c ∧ rx_fin c' = rx_fin c ∧
  (send_buf_used u ≤ SEND_BUF_SIZE →
   send_buf_used u' ≤ SEND_BUF_SIZE ∧
   length (send_buf u') = length (send_buf u) ∧
   rx c' = rx c ∧ rx_fin c' = rx_fin c ∧
   (tx_ok c → rc = EOK ∧ tx_ok c') ∧
   (rc = EOK → length (send_buf u) = SEND_BUF_SIZE →
    out_stream u' c' = out_stream u c ++ lf_to_crlf data)).
Proof.
  unfold telnet_user_send_data_locked, telnet_user_send_raw_locked.
  destruct ok; [|done]. cbn [negb].
  destruct (send_data_convert_spec u data []) as [Hconv Hu].
  destruct (send_data_convert u data []) as [conv u1].
  cbn [fst snd app] in Hconv, Hu. subst conv u1.
  intros Hrun. split_and!.
  1-3: by apply send_raw_loop_same in Hrun as (? & ? & ?).
  - intros Hused.
    apply send_raw_loop_Done in Hrun as (_ & H1 & H2 & H3 & H4 & H5 & H6);
      [|done..].
    unfold out_stream in *. simpl_fields. done.
Qed.

(** With a buffer of positive size [send_data] returns. *)
Lemma send_data_returns (u : telnet_user_t) (c : tcp_conn_t)
    (data : list byte) :
  0 < SEND_BUF_SIZE → ∃ r, send_data true u c data = Done r.
Proof.
  intros Hpos.
  unfold telnet_user_send_data_locked, telnet_user_send_raw_locked.
  cbn [negb]. destruct (send_data_convert u data []) as [conv u1].
  by apply send_raw_loop_returns.
Qed.

End Send.

(** On a connection that accepts what is sent, [flush] puts the batch
    on the wire and empties the buffer. *)
Lemma telnet_user_flush_ok (u : telnet_user_t) (c : tcp_conn_t) :
  tx_ok c →
  ∃ c', telnet_user_flush u c = (EOK, set_send_buf u (send_buf u) 0, c') ∧
        tx c' = out_stream u c ∧ tx_ok c' ∧
        rx c' = rx c ∧ rx_fin c' = rx_fin c.
Proof.
  intros Hok. unfold telnet_user_flush, out_stream.
  pose proof (tcp_conn_send_spec c (take (send_buf_used u) (send_buf u)))
    as Hsend.
  destruct (tcp_conn_send c (take (send_buf_used u) (send_buf u)))
    as [rc c'].
  destruct Hsend as (Hrx & Hfin & Htx & Hrc).
  destruct (Hrc Hok) as [-> Hok']. cbn in Htx |- *. eauto 10.
Qed.

(** ** Send path: line endings *)

(** C4: on a session whose arrays and indices are in order and a
    connection that accepts what is sent, [send_data] followed by [flush]
    succeeds and leaves on the wire everything accepted before, followed
    by the submitted bytes with every LF replaced by CR LF; the batch
    buffer is empty then.  Already after [send_data] the accepted stream
    has grown by exactly these bytes, so successive submissions follow
    each other in order.  Submitting "a\nb" on a fresh session and
    flushing puts 0x61 0x0D 0x0A 0x62 on the wire and leaves the cursor
    at column 1, row 1. *)
Theorem send_data_flush_wire (BUFFER_SIZE SEND_BUF_SIZE : nat)
    (u : telnet_user_t) (c : tcp_conn_t) (s : list byte) :
  0 < SEND_BUF_SIZE →
  buffers_typed BUFFER_SIZE SEND_BUF_SIZE u →
  index_inv BUFFER_SIZE SEND_BUF_SIZE u →
  tx_ok c →
  (∃ u1 c1 u2 c2,
     telnet_user_send_data SEND_BUF_SIZE true u c s = Done (EOK, u1, c1) ∧
     out_stream u1 c1 = out_stream u c ++ lf_to_crlf s ∧
     telnet_user_flush u1 c1 = (EOK, u2, c2) ∧
     tx c2 = out_stream u c ++ lf_to_crlf s ∧
     send_buf_used u2 = 0) ∧
  (∃ u1 c1 u2 c2,
     telnet_user_send_data 4096 true (fresh_user 4096 4096) (peer_sends [])
       [97; 10; 98]%Z = Done (EOK, u1, c1) ∧
     telnet_user_flush u1 c1 = (EOK, u2, c2) ∧
     tx c2 = [97; 13; 10; 98]%Z ∧ cursor_x u2 = 1%Z ∧ cursor_y u2 = 1%Z).
Proof.
  intros Hpos [Hsock Hsend] (_ & _ & Hused) Hok. split.
  - destruct (send_data_returns SEND_BUF_SIZE u c s Hpos)
      as [[[rc u1] c1] Hrun].
    destruct (send_data_Done SEND_BUF_SIZE true u c s rc u1 c1 Hrun)
      as (_ & _ & _ & Hdone).
    destruct (Hdone Hused) as (Hused1 & Hlen & _ & _ & Hrc & Hout).
    destruct (Hrc Hok) as [-> Hok1]. specialize (Hout eq_refl Hsend).
    destruct (telnet_user_flush_ok u1 c1 Hok1) as (c2 & Hflush & Htx & _).
    exists u1, c1, (set_send_buf u1 (send_buf u1) 0), c2.
    split_and!; try done. by rewrite Htx.
  - eexists _, _, _, _. vm_compute. split_and!; reflexivity.
Qed.

Lemma send_data_flush_wire_witness :
  ∃ u1 c1 u2 c2,
    telnet_user_send_data 4 true (fresh_user 4 4) (peer_sends [])
      [10; 97; 10; 98]%Z = Done (EOK, u1, c1) ∧
    telnet_user_flush u1 c1 = (EOK, u2, c2) ∧
    tx c2 = [13; 10; 97; 13; 10; 98]%Z.
Proof.
  destruct (send_data_flush_wire 4 4 (fresh_user 4 4) (peer_sends [])
              [10; 97; 10; 98]%Z) as [(u1 & c1 & u2 & c2 & H1 & _ & H2 & H3 & _) _].
  - lia.
  - split; reflexivity.
  - unfold index_inv. cbn. lia.
  - constructor.
  - exists u1, c1, u2, c2. split_and!; [exact H1|exact H2|exact H3].
Defined.

Lemma same_but_send_fields (u u' : telnet_user_t) :
  same_but_send u u' →
  socket_buffer u' = socket_buffer u ∧
  socket_buffer_len u' = socket_buffer_len u ∧
  socket_buffer_pos u' = socket_buffer_pos u ∧
  socket_closed u' = socket_closed u ∧
  srvs_aborted u' = srvs_aborted u ∧
  cursor_x u' = cursor_x u ∧ cursor_y u' = cursor_y u ∧ rows u' = rows u.
Proof. unfold same_but_send. intros ->. done. Qed.

(** ** Cursor model *)

Lemma int_wrap_id (z : Z) : int_range z → int_wrap z = z.
Proof.
  unfold int_range, int_wrap, INT_MIN, INT_MAX. intros H.
  rewrite Z.mod_small; lia.
Qed.

(** Where the column of the rule is an [int], the code computes it. *)
Lemma cursor_step_in_range (nrows : Z) (xy : Z * Z) (d : byte) :
  int_range (cursor_after_byte nrows xy d).1 →
  cursor_step nrows xy d = cursor_after_byte nrows xy d.
Proof.
  destruct xy as [x y]. unfold cursor_step, cursor_after_byte.
  destruct (d =? 10)%Z eqn:H10, (d =? 8)%Z eqn:H8; cbn [fst]; intros H.
  - apply Z.eqb_eq in H10, H8. by subst.
  - done.
  - by rewrite int_wrap_id.
  - by rewrite int_wrap_id.
Qed.

Lemma cursor_fold_in_range (nrows : Z) (xy : Z * Z) (data : list byte) :
  (∀ k, k ≤ length data →
        int_range (foldl (cursor_after_byte nrows) xy (take k data)).1) →
  foldl (cursor_step nrows) xy data = foldl (cursor_after_byte nrows) xy data.
Proof.
  induction data as [|d data IH] using rev_ind; [done|].
  intros H. rewrite !foldl_app. cbn [foldl]. rewrite IH.
  - apply cursor_step_in_range.
    specialize (H (length (data ++ [d])) (le_n _)).
    by rewrite firstn_all, foldl_app in H.
  - intros k Hk. specialize (H k). rewrite take_app_le in H by done.
    apply H. rewrite length_app. lia.
Qed.

(** The row and the column after a run of bytes: the row is never
    lowered, and raised only up to [nrows - 1]; it is unchanged without
    an LF; the column is 0 after a final LF. *)
Lemma cursor_fold_row (nrows : Z) (data : list byte) (x y : Z) :
  (y ≤ (foldl (cursor_step nrows) (x, y) data).2
     ≤ Z.max y (nrows - 1))%Z ∧
  (Forall (fun d => d ≠ 10%Z) data →
   (foldl (cursor_step nrows) (x, y) data).2 = y) ∧
  (∀ pre, data = pre ++ [10%Z] →
          (foldl (cursor_step nrows) (x, y) data).1 = 0%Z).
Proof.
  split; [|split].
  - revert x y. induction data as [|d data IH]; intros x y; cbn [foldl].
    + cbn. lia.
    + destruct (cursor_step nrows (x, y) d) as [x1 y1] eqn:Hstep.
      assert (Hy1 : (y ≤ y1 ≤ Z.max y (nrows - 1))%Z).
      { unfold cursor_step in Hstep.
        destruct (d =? 10)%Z.
        - destruct (y <? nrows - 1)%Z eqn:Hy; injection Hstep as <- <-;
            [apply Z.ltb_lt in Hy|]; lia.
        - destruct (d =? 8)%Z; injection Hstep as <- <-; lia. }
      specialize (IH x1 y1). lia.
  - revert x y. induction data as [|d data IH]; intros x y Hno; [done|].
    apply Forall_cons in Hno as [Hd Hno]. cbn [foldl].
    unfold cursor_step at 2. apply Z.eqb_neq in Hd. rewrite Hd.
    destruct (d =? 8)%Z; by apply IH.
  - intros pre ->. rewrite foldl_app. cbn [foldl].
    by destruct (foldl (cursor_step nrows) (x, y) pre) as [x' y'].
Qed.

(** C6: on a session whose row and row count are [int] values, and for
    data over which the column of the rule stays an [int] (no column
    overflow at any byte), [send_data] that has returned, with or
    without an error, leaves the cursor where the rule of the design
    takes it over the submitted bytes: a backspace lowers the column by
    one with no clamp at 0, an LF sets the column to 0 and raises the
    row only while it is below [rows - 1], every other byte raises the
    column by one.  The coordinates are again [int] values.  A backspace
    on a fresh session leaves the column at -1.  The range condition is
    needed: with the column at [INT_MAX] one more byte takes it to
    [INT_MIN]. *)
Theorem send_data_cursor_rule (SEND_BUF_SIZE : nat) (ok : bool)
    (u : telnet_user_t) (c : tcp_conn_t) (data : list byte) (rc : errno_t)
    (u' : telnet_user_t) (c' : tcp_conn_t) :
  int_range (cursor_y u) →
  (INT_MIN < rows u ≤ INT_MAX)%Z →
  (∀ k, k ≤ length data →
        int_range
          (foldl (cursor_after_byte (rows u)) (cursor_x u, cursor_y u)
             (take k data)).1) →
  telnet_user_send_data SEND_BUF_SIZE ok u c data = Done (rc, u', c') →
  (cursor_x u', cursor_y u') =
    foldl (cursor_after_byte (rows u)) (cursor_x u, cursor_y u) data ∧
  int_range (cursor_x u') ∧ int_range (cursor_y u') ∧
  rows u' = rows u ∧
  (∀ nrows x y,
     cursor_after_byte nrows (x, y) 8%Z = ((x - 1)%Z, y) ∧
     cursor_after_byte nrows (x, y) 10%Z =
       (0%Z, if (y <? nrows - 1)%Z then (y + 1)%Z else y) ∧
     ∀ d, d ≠ 8%Z → d ≠ 10%Z →
          cursor_after_byte nrows (x, y) d = ((x + 1)%Z, y)) ∧
  (∃ u1 c1,
     telnet_user_send_data 4096 true (fresh_user 4096 4096) (peer_sends [])
       [8%Z] = Done (EOK, u1, c1) ∧ cursor_x u1 = (-1)%Z) ∧
  (∃ u1 c1,
     telnet_user_send_data 4096 true
       (set_cursor (fresh_user 4096 4096) INT_MAX 0) (peer_sends [])
       [97%Z] = Done (EOK, u1, c1) ∧ cursor_x u1 = INT_MIN).
Proof.
  intros Hy0 Hrows Hrange Hrun.
  apply send_data_Done in Hrun as (Hsame & _).
  apply same_but_send_fields in Hsame as (_ & _ & _ & _ & _ & Hx & Hy & Hr).
  simpl_fields.
  destruct (cursor_fold_row (rows u) data (cursor_x u) (cursor_y u))
    as [Hrow _].
  rewrite cursor_fold_in_range in Hx, Hy, Hrow by done.
  split_and!.
  - rewrite Hx, Hy. by rewrite <-surjective_pairing.
  - rewrite Hx. specialize (Hrange (length data) (le_n _)).
    by rewrite firstn_all in Hrange.
  - rewrite Hy. unfold int_range, INT_MIN, INT_MAX in *. lia.
  - done.
  - intros nrows x y. split_and!; [done..|].
    intros d H8%Z.eqb_neq H10%Z.eqb_neq. cbn. by rewrite H8, H10.
  - eexists _, _. vm_compute. split; reflexivity.
  - eexists _, _. vm_compute. split; reflexivity.
Qed.

Lemma send_data_cursor_rule_witness :
  ∃ u' c',
    telnet_user_send_data 4 true (fresh_user 4 4) (peer_sends [])
      [97; 8; 8; 10]%Z = Done (EOK, u', c') ∧
    (cursor_x u', cursor_y u') = ((0)%Z, 1%Z).
Proof.
  eexists _, _. split; [vm_compute; reflexivity|].
  eapply (send_data_cursor_rule 4 true (fresh_user 4 4) (peer_sends [])
            [97; 8; 8; 10]%Z EOK).
  - vm_compute. split; discriminate.
  - vm_compute. split; [reflexivity|discriminate].
  - intros k Hk.
    do 5 (destruct k as [|k]; [vm_compute; split; discriminate|]).
    cbn in Hk. lia.
  - vm_compute. reflexivity.
Defined.

Lemma update_cursor_x_Done (SEND_BUF_SIZE : nat) (ok : bool)
    (u : telnet_user_t) (c : tcp_conn_t) (new_x : Z) (u' : telnet_user_t)
    (c' : tcp_conn_t) :
  telnet_user_update_cursor_x SEND_BUF_SIZE ok u c new_x = Done (u', c') →
  ∃ u1,
    u' = set_cursor u1 new_x (cursor_y u1) ∧
    if (int_wrap (cursor_x u - 1) =? new_x)%Z
    then ∃ rc, telnet_user_send_data SEND_BUF_SIZE ok u c [8%Z]
               = Done (rc, u1, c')
    else u1 = u ∧ c' = c.
Proof.
  unfold telnet_user_update_cursor_x, telnet_user_send_data.
  destruct (int_wrap (cursor_x u - 1) =? new_x)%Z.
  - destruct (telnet_user_send_data_locked SEND_BUF_SIZE ok u c [8%Z])
      as [[[rc u1] c1]| | |]; try done.
    intros [= <- <-]. eauto.
  - intros [= <- <-]. eauto.
Qed.

(** C7: with the column before the call above [INT_MIN], so that the
    column minus one is an [int], and [new_x] an [int]:
    [update_cursor_x] leaves the column at [new_x] whenever it returns.
    When [new_x] is not the column before minus one, nothing is
    submitted: the session changes in its column only and the connection
    not at all.  When it is, the call is that of [send_data] on the
    single byte 8 followed by the assignment; on a session in order and
    a connection that accepts what is sent, the accepted stream grows by
    exactly one backspace in this case and by nothing otherwise.  With
    the column at 5, [update_cursor_x(4)] emits one backspace and leaves
    the column at 4.  The range condition is needed: with the column at
    [INT_MIN] the subtraction wraps around, and [update_cursor_x(INT_MAX)]
    emits a backspace. *)
Theorem update_cursor_x_backspace (BUFFER_SIZE SEND_BUF_SIZE : nat)
    (ok : bool) (u : telnet_user_t) (c : tcp_conn_t) (new_x : Z) :
  (INT_MIN < cursor_x u ≤ INT_MAX)%Z →
  int_range new_x →
  (∀ u' c',
     telnet_user_update_cursor_x SEND_BUF_SIZE ok u c new_x = Done (u', c') →
     cursor_x u' = new_x) ∧
  (new_x ≠ (cursor_x u - 1)%Z →
   telnet_user_update_cursor_x SEND_BUF_SIZE ok u c new_x
   = Done (set_cursor u new_x (cursor_y u), c)) ∧
  (new_x = (cursor_x u - 1)%Z →
   telnet_user_update_cursor_x SEND_BUF_SIZE ok u c new_x =
   match telnet_user_send_data SEND_BUF_SIZE ok u c [8%Z] with
   | Done (_, u1, c1) => Done (set_cursor u1 new_x (cursor_y u1), c1)
   | Blocked => Blocked
   | AssertFailed => AssertFailed
   | OutOfFuel => OutOfFuel
   end) ∧
  (0 < SEND_BUF_SIZE →
   buffers_typed BUFFER_SIZE SEND_BUF_SIZE u →
   index_inv BUFFER_SIZE SEND_BUF_SIZE u →
   tx_ok c →
   ∃ u' c',
     telnet_user_update_cursor_x SEND_BUF_SIZE true u c new_x
     = Done (u', c') ∧
     cursor_x u' = new_x ∧
     out_stream u' c' =
       out_stream u c ++
       (if decide (new_x = (cursor_x u - 1)%Z) then [8%Z] else [])) ∧
  (∃ u' c',
     telnet_user_update_cursor_x 4096 true
       (set_cursor (fresh_user 4096 4096) 5 0) (peer_sends []) 4
     = Done (u', c') ∧
     cursor_x u' = 4%Z ∧ out_stream u' c' = [8%Z]) ∧
  (∃ u' c',
     telnet_user_update_cursor_x 4096 true
       (set_cursor (fresh_user 4096 4096) INT_MIN 0) (peer_sends []) INT_MAX
     = Done (u', c') ∧
     cursor_x u' = INT_MAX ∧ out_stream u' c' = [8%Z]).
Proof.
  intros Hx0 _.
  assert (int_wrap (cursor_x u - 1) = (cursor_x u - 1)%Z) as Hwrap.
  { apply int_wrap_id. unfold int_range, INT_MIN, INT_MAX in *. lia. }
  split_and!.
  - intros u' c' (u1 & -> & _)%update_cursor_x_Done. done.
  - intros Hne. unfold telnet_user_update_cursor_x. rewrite Hwrap.
    destruct (cursor_x u - 1 =? new_x)%Z eqn:Hx; [|done].
    apply Z.eqb_eq in Hx. lia.
  - intros ->. unfold telnet_user_update_cursor_x. rewrite Hwrap.
    rewrite Z.eqb_refl. unfold telnet_user_send_data.
    by destruct (telnet_user_send_data_locked SEND_BUF_SIZE ok u c [8%Z])
      as [[[rc u1] c1]| | |].
  - intros Hpos [Hsock Hsend] (_ & _ & Hused) Hok.
    unfold telnet_user_update_cursor_x. rewrite Hwrap.
    destruct (decide (new_x = (cursor_x u - 1)%Z)) as [->|Hne].
    + rewrite Z.eqb_refl.
      destruct (send_data_returns SEND_BUF_SIZE u c [8%Z] Hpos)
        as [[[rc u1] c1] Hrun].
      rewrite Hrun.
      apply send_data_Done in Hrun as (_ & _ & _ & Hdone).
      destruct (Hdone Hused) as (_ & _ & _ & _ & Hrc & Hout).
      destruct (Hrc Hok) as [-> _]. specialize (Hout eq_refl Hsend).
      eexists _, _. split_and!; [done..|].
      unfold out_stream in *. simpl_fields. by rewrite Hout.
    + destruct (cursor_x u - 1 =? new_x)%Z eqn:Hx.
      { apply Z.eqb_eq in Hx. lia. }
      eexists _, _. split_and!; [done..|].
      unfold out_stream. simpl_fields. by rewrite app_nil_r.
  - eexists _, _. vm_compute. split_and!; reflexivity.
  - eexists _, _. vm_compute. split_and!; reflexivity.
Qed.

Lemma update_cursor_x_backspace_witness :
  ∃ u' c',
    telnet_user_update_cursor_x 4 true (set_cursor (fresh_user 4 4) 3 0)
      (peer_sends []) 2 = Done (u', c') ∧
    cursor_x u' = 2%Z ∧ out_stream u' c' = [8%Z].
Proof.
  destruct (update_cursor_x_backspace 4 4 true
              (set_cursor (fresh_user 4 4) 3 0) (peer_sends []) 2)
    as (_ & _ & _ & H & _).
  - vm_compute. split; [reflexivity|discriminate].
  - vm_compute. split; discriminate.
  - destruct H as (u' & c' & H1 & H2 & H3).
    + lia.
    + split; reflexivity.
    + unfold index_inv. cbn. lia.
    + constructor.
    + exists u', c'. split_and!; [exact H1|exact H2|exact H3].
Defined.

(** ** Flush *)

Lemma flush_frame (u : telnet_user_t) (c : tcp_conn_t) :
  let '(rc, u', c') := telnet_user_flush u c in
  same_but_send u u' ∧ rx c' = rx c ∧ rx_fin c' = rx_fin c.
Proof.
  unfold telnet_user_flush.
  pose proof (tcp_conn_send_spec c (take (send_buf_used u) (send_buf u)))
    as Hsend.
  destruct (tcp_conn_send c (take (send_buf_used u) (send_buf u)))
    as [rc c'].
  destruct Hsend as (Hrx & Hfin & _).
  destruct (negb (rc =? EOK)%Z); split_and!;
    auto using same_but_send_refl, same_but_send_set.
Qed.

(** C10: when the send inside [flush] fails, the session is exactly as
    before the call, batch buffer and fill index included, and nothing
    has reached the wire; the fill index is set to 0, with the batch on
    the wire, only when [flush] returns success.  On a connection whose
    next send fails with code 5, a batch of two bytes stays a batch of two
    bytes. *)
Theorem flush_failure_keeps_batch (u : telnet_user_t) (c : tcp_conn_t) :
  (let '(rc, u', c') := telnet_user_flush u c in
   (rc ≠ EOK → u' = u ∧ tx c' = tx c) ∧
   (rc = EOK →
    send_buf_used u' = 0 ∧ send_buf u' = send_buf u ∧
    tx c' = tx c ++ take (send_buf_used u) (send_buf u)) ∧
   (send_buf_used u' ≠ send_buf_used u → rc = EOK) ∧
   same_but_send u u') ∧
  telnet_user_flush
    (set_send_buf (fresh_user 4 4) [104; 105; 0; 0]%Z 2)
    (mk_conn [] PeerSilent [] [5%Z])
  = (5%Z, set_send_buf (fresh_user 4 4) [104; 105; 0; 0]%Z 2,
     mk_conn [] PeerSilent [] []).
Proof.
  split; [|reflexivity].
  unfold telnet_user_flush.
  pose proof (tcp_conn_send_spec c (take (send_buf_used u) (send_buf u)))
    as Hsend.
  destruct (tcp_conn_send c (take (send_buf_used u) (send_buf u)))
    as [rc c'].
  destruct Hsend as (_ & _ & Htx & _).
  destruct (rc =? EOK)%Z eqn:Hrc; cbn [negb].
  - apply Z.eqb_eq in Hrc as ->. split_and!; try done.
  - apply Z.eqb_neq in Hrc. split_and!; try done.
    apply same_but_send_refl.
Qed.

(** ** Buffer-index invariants *)

Lemma skip_run_inv (BUFFER_SIZE SEND_BUF_SIZE : nat) (u : telnet_user_t)
    (c : tcp_conn_t) (inside : bool) (code : telnet_cmd_t) (rc : errno_t)
    (nb : byte) (u' : telnet_user_t) (c' : tcp_conn_t) :
  skip_run BUFFER_SIZE u c inside code rc nb u' c' →
  index_inv BUFFER_SIZE SEND_BUF_SIZE u →
  index_inv BUFFER_SIZE SEND_BUF_SIZE u'.
Proof.
  induction 1; eauto using next_byte_case_inv.
Qed.

Lemma recv_run_inv (BUFFER_SIZE SEND_BUF_SIZE : nat) (u : telnet_user_t)
    (c : tcp_conn_t) (size : nat) (dst : list byte) (rc : errno_t)
    (out : list byte) (u' : telnet_user_t) (c' : tcp_conn_t) :
  recv_run BUFFER_SIZE u c size dst rc out u' c' →
  index_inv BUFFER_SIZE SEND_BUF_SIZE u →
  index_inv BUFFER_SIZE SEND_BUF_SIZE u'.
Proof.
  induction 1; eauto using skip_run_inv.
Qed.

Lemma same_but_send_inv (BUFFER_SIZE SEND_BUF_SIZE : nat)
    (u u' : telnet_user_t) :
  same_but_send u u' → send_buf_used u' ≤ SEND_BUF_SIZE →
  index_inv BUFFER_SIZE SEND_BUF_SIZE u →
  index_inv BUFFER_SIZE SEND_BUF_SIZE u'.
Proof.
  intros (_ & Hlen & Hpos & _)%same_but_send_fields Hused (? & ? & _).
  unfold index_inv. rewrite Hlen, Hpos. done.
Qed.

Lemma send_data_inv (BUFFER_SIZE SEND_BUF_SIZE : nat) (ok : bool)
    (u : telnet_user_t) (c : tcp_conn_t) (data : list byte) (rc : errno_t)
    (u' : telnet_user_t) (c' : tcp_conn_t) :
  telnet_user_send_data SEND_BUF_SIZE ok u c data = Done (rc, u', c') →
  index_inv BUFFER_SIZE SEND_BUF_SIZE u →
  index_inv BUFFER_SIZE SEND_BUF_SIZE u'.
Proof.
  intros (Hsame & _ & _ & Hdone)%send_data_Done Hinv.
  destruct (Hdone (proj2 (proj2 Hinv))) as (Hused & _).
  eapply same_but_send_inv; [exact Hsame|done|]. exact Hinv.
Qed.

Lemma send_raw_inv (BUFFER_SIZE SEND_BUF_SIZE : nat)
    (u : telnet_user_t) (c : tcp_conn_t) (data : list byte) (rc : errno_t)
    (u' : telnet_user_t) (c' : tcp_conn_t) :
  telnet_user_send_raw SEND_BUF_SIZE u c data = Done (rc, u', c') →
  index_inv BUFFER_SIZE SEND_BUF_SIZE u →
  index_inv BUFFER_SIZE SEND_BUF_SIZE u'.
Proof.
  unfold telnet_user_send_raw, telnet_user_send_raw_locked.
  intros Hrun Hinv.
  apply send_raw_loop_Done in Hrun as (Hsame & Hused & _);
    [|done|apply Hinv].
  by eapply same_but_send_inv.
Qed.

Lemma flush_inv (BUFFER_SIZE SEND_BUF_SIZE : nat)
    (u : telnet_user_t) (c : tcp_conn_t) (rc : errno_t)
    (u' : telnet_user_t) (c' : tcp_conn_t) :
  telnet_user_flush u c = (rc, u', c') →
  index_inv BUFFER_SIZE SEND_BUF_SIZE u →
  index_inv BUFFER_SIZE SEND_BUF_SIZE u'.
Proof.
  unfold telnet_user_flush.
  destruct (tcp_conn_send c (take (send_buf_used u) (send_buf u)))
    as [rc0 c0].
  destruct (negb (rc0 =? EOK)%Z); intros [= <- <- <-]; [done|].
  unfold index_inv. simpl_fields. lia.
Qed.

Lemma update_cursor_x_inv (BUFFER_SIZE SEND_BUF_SIZE : nat) (ok : bool)
    (u : telnet_user_t) (c : tcp_conn_t) (new_x : Z)
    (u' : telnet_user_t) (c' : tcp_conn_t) :
  telnet_user_update_cursor_x SEND_BUF_SIZE ok u c new_x = Done (u', c') →
  index_inv BUFFER_SIZE SEND_BUF_SIZE u →
  index_inv BUFFER_SIZE SEND_BUF_SIZE u'.
Proof.
  intros (u1 & -> & Hcase)%update_cursor_x_Done Hinv.
  destruct (int_wrap (cursor_x u - 1) =? new_x)%Z.
  - destruct Hcase as [rc Hrun].
    by apply (send_data_inv BUFFER_SIZE) in Hrun.
  - by destruct Hcase as [-> _].
Qed.

(** C9: each of [recv], [send_data], [send_raw], [flush] and
    [update_cursor_x], when it returns on a session on which
    [0 <= socket_buffer_pos <= socket_buffer_len <= BUFFER_SIZE] and
    [0 <= send_buf_used <= SEND_BUF_SIZE] hold, returns a session on which
    they hold; so does every sequence of these operations. *)
Theorem operations_keep_index_inv (BUFFER_SIZE SEND_BUF_SIZE : nat)
    (u : telnet_user_t) (c : tcp_conn_t) :
  index_inv BUFFER_SIZE SEND_BUF_SIZE u →
  (∀ size rc out u' c',
     telnet_user_recv BUFFER_SIZE u c size = Done (rc, out, u', c') →
     index_inv BUFFER_SIZE SEND_BUF_SIZE u') ∧
  (∀ ok data rc u' c',
     telnet_user_send_data SEND_BUF_SIZE ok u c data = Done (rc, u', c') →
     index_inv BUFFER_SIZE SEND_BUF_SIZE u') ∧
  (∀ data rc u' c',
     telnet_user_send_raw SEND_BUF_SIZE u c data = Done (rc, u', c') →
     index_inv BUFFER_SIZE SEND_BUF_SIZE u') ∧
  (∀ rc u' c',
     telnet_user_flush u c = (rc, u', c') →
     index_inv BUFFER_SIZE SEND_BUF_SIZE u') ∧
  (∀ ok new_x u' c',
     telnet_user_update_cursor_x SEND_BUF_SIZE ok u c new_x = Done (u', c') →
     index_inv BUFFER_SIZE SEND_BUF_SIZE u') ∧
  (∀ os u' c',
     run_ops BUFFER_SIZE SEND_BUF_SIZE os u c = Done (u', c') →
     index_inv BUFFER_SIZE SEND_BUF_SIZE u').
Proof.
  intros Hinv. split_and!.
  - intros size rc out u' c' [_ Hrun]%telnet_user_recv_run.
    by eapply recv_run_inv.
  - intros ok data rc u' c' Hrun. by eapply send_data_inv.
  - intros data rc u' c' Hrun. by eapply send_raw_inv.
  - intros rc u' c' Hrun. by eapply flush_inv.
  - intros ok new_x u' c' Hrun. by eapply update_cursor_x_inv.
  - intros os. revert u c Hinv.
    induction os as [|o os IH]; intros u c Hinv u' c'; cbn [run_ops].
    + by intros [= <- <-].
    + destruct (run_op BUFFER_SIZE SEND_BUF_SIZE o u c)
        as [[[rc u1] c1]| | |] eqn:Hop; try done.
      apply IH. destruct o as [size|ok data|data| |ok new_x]; cbn in Hop.
      * destruct (telnet_user_recv BUFFER_SIZE u c size)
          as [[[[rc0 out] u0] c0]| | |] eqn:Hrecv; try done.
        injection Hop as <- <- <-.
        apply telnet_user_recv_run in Hrecv as [_ Hrun].
        by eapply recv_run_inv.
      * by eapply send_data_inv.
      * by eapply send_raw_inv.
      * injection Hop as Hop. by eapply flush_inv.
      * destruct (telnet_user_update_cursor_x SEND_BUF_SIZE ok u c new_x)
          as [[u0 c0]| | |] eqn:Hupd; try done.
        injection Hop as <- <- <-. by eapply update_cursor_x_inv.
Qed.

Lemma operations_keep_index_inv_witness :
  match run_ops 4 4 sample_ops (fresh_user 4 4)
          (peer_sends [[120; 13; 121; 255; 0; 122]%Z]) with
  | Done (u', _) => index_inv 4 4 u'
  | _ => False
  end.
Proof.
  assert (Hinv : index_inv 4 4 (fresh_user 4 4))
    by (unfold index_inv; cbn; lia).
  destruct (operations_keep_index_inv 4 4 (fresh_user 4 4)
              (peer_sends [[120; 13; 121; 255; 0; 122]%Z]) Hinv)
    as (_ & _ & _ & _ & _ & Hops).
  destruct (run_ops 4 4 sample_ops (fresh_user 4 4)
              (peer_sends [[120; 13; 121; 255; 0; 122]%Z]))
    as [[u' c']| | |] eqn:Hrun.
  - by eapply Hops.
  - vm_compute in Hrun. discriminate.
  - vm_compute in Hrun. discriminate.
  - vm_compute in Hrun. discriminate.
Defined.

(** ** Peer close *)

(** A byte read leaves the flags alone; a failed read either leaves the
    closed flag alone or is the end of the peer's stream. *)
Lemma next_byte_case_closed (BUFFER_SIZE : nat) (u : telnet_user_t)
    (c : tcp_conn_t) (rc : errno_t) (b : byte) (u' : telnet_user_t)
    (c' : tcp_conn_t) :
  next_byte_case BUFFER_SIZE u c rc b u' c' → 0 < BUFFER_SIZE →
  (rc = EOK → socket_closed u' = socket_closed u) ∧
  (socket_closed u' = socket_closed u ∨
   (rc = ENOENT ∧ peer_closed_state u' c')).
Proof.
  intros Hcase Hpos.
  inversion Hcase as [| |? ? ? Hd Hrc Hfill]; subst; simpl_fields; auto.
  split; [done|].
  inversion Hfill as [|r' _ _ [?|[-> Hfin]]|]; subst; auto; [lia|].
  right. split; [done|]. unfold peer_closed_state. simpl_fields. done.
Qed.

Lemma skip_run_closed (BUFFER_SIZE : nat) (u : telnet_user_t)
    (c : tcp_conn_t) (inside : bool) (code : telnet_cmd_t) (rc : errno_t)
    (nb : byte) (u' : telnet_user_t) (c' : tcp_conn_t) :
  skip_run BUFFER_SIZE u c inside code rc nb u' c' → 0 < BUFFER_SIZE →
  (rc = EOK → socket_closed u' = socket_closed u) ∧
  (socket_closed u' = socket_closed u ∨
   (rc = ENOENT ∧ peer_closed_state u' c')).
Proof.
  intros Hrun Hpos.
  induction Hrun as [u c inside code rc b u' c' Hnb Hrc
                    |u c inside code b u' c' Hnb Hcond
                    |u c inside code b u1 c1 rc nb u' c' Hnb Hz Hav Hrun IH].
  - by eapply next_byte_case_closed.
  - by eapply next_byte_case_closed.
  - destruct (next_byte_case_closed _ _ _ _ _ _ _ Hnb Hpos) as [H1 _].
    rewrite <-(H1 eq_refl). exact IH.
Qed.

Lemma recv_run_closed (BUFFER_SIZE : nat) (u : telnet_user_t)
    (c : tcp_conn_t) (size : nat) (dst : list byte) (rc : errno_t)
    (out : list byte) (u' : telnet_user_t) (c' : tcp_conn_t) :
  recv_run BUFFER_SIZE u c size dst rc out u' c' → 0 < BUFFER_SIZE →
  socket_closed u' = socket_closed u ∨
  (rc = ENOENT ∧ peer_closed_state u' c').
Proof.
  intros Hrun Hpos.
  induction Hrun as [u c size dst rc b u' c' Hskip Hrc
                    |u c size dst b u' c' Hskip Hcond
                    |u c size dst b u1 c1 rc out u' c' Hskip Hcond Hrun IH].
  - by eapply skip_run_closed.
  - by eapply skip_run_closed.
  - destruct (skip_run_closed _ _ _ _ _ _ _ _ _ Hskip Hpos) as [H1 _].
    rewrite <-(H1 eq_refl). exact IH.
Qed.

(** A call of [recv] that meets the end of the peer's stream. *)
Lemma recv_at_peer_close (BUFFER_SIZE : nat) (u : telnet_user_t)
    (c : tcp_conn_t) (size : nat) :
  0 < size →
  socket_buffer_len u ≤ socket_buffer_pos u →
  rx c = [] → rx_fin c = PeerClosed →
  telnet_user_recv BUFFER_SIZE u c size
  = Done (ENOENT, [], set_closed_aborted u, c).
Proof.
  intros Hsize Hd Hrx Hfin. unfold telnet_user_recv.
  destruct size as [|size]; [lia|]. cbn [Nat.eqb].
  rewrite recv_loop_S, recv_skip_loop_S.
  unfold telnet_user_recv_next_byte_locked.
  apply Nat.leb_le in Hd. rewrite Hd.
  unfold telnet_user_fill_recv_buf, tcp_conn_recv_wait.
  rewrite Hrx, Hfin. cbn.
  destruct c; cbn in *; by subst.
Qed.

Lemma peer_closed_state_fixed (u : telnet_user_t) (c : tcp_conn_t) :
  peer_closed_state u c → set_closed_aborted u = u.
Proof. intros (? & ? & _). destruct u; cbn in *; by subst. Qed.

(** In the closed state every operation that returns leaves the session
    closed, and [recv] returns the peer-closed error. *)
Lemma run_op_closed (BUFFER_SIZE SEND_BUF_SIZE : nat) (o : session_op)
    (u : telnet_user_t) (c : tcp_conn_t) (rc : errno_t) (u' : telnet_user_t)
    (c' : tcp_conn_t) :
  run_op BUFFER_SIZE SEND_BUF_SIZE o u c = Done (rc, u', c') →
  peer_closed_state u c →
  peer_closed_state u' c' ∧ (∀ size, o = OpRecv size → rc = ENOENT).
Proof.
  intros Hop Hst.
  assert (Hsame : ∀ u0 u1 c1,
            same_but_send u0 u1 →
            socket_buffer_len u0 = socket_buffer_len u →
            socket_buffer_pos u0 = socket_buffer_pos u →
            socket_closed u0 = socket_closed u →
            srvs_aborted u0 = srvs_aborted u →
            rx c1 = rx c → rx_fin c1 = rx_fin c → peer_closed_state u1 c1).
  { intros u0 u1 c1 (_ & Hl & Hp & Hc & Ha & _)%same_but_send_fields
      Hl0 Hp0 Hc0 Ha0 Hrx Hfin.
    unfold peer_closed_state in *.
    rewrite Hl, Hp, Hc, Ha, Hl0, Hp0, Hc0, Ha0, Hrx, Hfin. done. }
  destruct o as [size|ok data|data| |ok new_x]; cbn in Hop.
  - destruct size as [|size]; [done|].
    destruct Hst as (Hc & Ha & Hd & Hrx & Hfin).
    rewrite recv_at_peer_close in Hop by (done || lia).
    injection Hop as <- <- <-.
    rewrite (peer_closed_state_fixed u c) by done.
    split; [done|auto].
  - split; [|done].
    apply send_data_Done in Hop as (Hs & Hrx & Hfin & _).
    by eapply Hsame.
  - split; [|done].
    unfold telnet_user_send_raw, telnet_user_send_raw_locked in Hop.
    apply send_raw_loop_same in Hop as (Hs & Hrx & Hfin). by eapply Hsame.
  - split; [|done].
    pose proof (flush_frame u c) as Haux.
    injection Hop as Hop. rewrite Hop in Haux.
    destruct Haux as (Hs & Hrx & Hfin). by eapply Hsame.
  - split; [|done].
    destruct (telnet_user_update_cursor_x SEND_BUF_SIZE ok u c new_x)
      as [[u0 c0]| | |] eqn:Hupd; try done.
    injection Hop as <- <- <-.
    apply update_cursor_x_Done in Hupd as (u1 & -> & Hcase).
    destruct (int_wrap (cursor_x u - 1) =? new_x)%Z.
    + destruct Hcase as [rc Hrun].
      apply send_data_Done in Hrun as (Hs & Hrx & Hfin & _).
      apply same_but_send_fields in Hs as (_ & Hl & Hp & Hc & Ha & _).
      simpl_fields.
      by apply (Hsame (set_cursor u1 new_x (cursor_y u1)));
        auto using same_but_send_refl.
    + destruct Hcase as [-> ->].
      by apply (Hsame (set_cursor u new_x (cursor_y u)));
        auto using same_but_send_refl.
Qed.

(** No operation resets the closed flag. *)
Lemma run_op_closed_monotone (BUFFER_SIZE SEND_BUF_SIZE : nat)
    (o : session_op) (u : telnet_user_t) (c : tcp_conn_t) (rc : errno_t)
    (u' : telnet_user_t) (c' : tcp_conn_t) :
  0 < BUFFER_SIZE →
  run_op BUFFER_SIZE SEND_BUF_SIZE o u c = Done (rc, u', c') →
  socket_closed u = true → socket_closed u' = true.
Proof.
  intros Hpos Hop Hc.
  destruct o as [size|ok data|data| |ok new_x]; cbn in Hop.
  - destruct (telnet_user_recv BUFFER_SIZE u c size)
      as [[[[rc0 out] u0] c0]| | |] eqn:Hrecv; try done.
    injection Hop as <- <- <-.
    apply telnet_user_recv_run in Hrecv as [_ Hrun].
    apply recv_run_closed in Hrun as [Hsame|[_ (? & _)]]; [congruence..|done].
  - apply send_data_Done in Hop as (Hs & _).
    apply same_but_send_fields in Hs as (_ & _ & _ & Hc' & _).
    by rewrite Hc'.
  - unfold telnet_user_send_raw, telnet_user_send_raw_locked in Hop.
    apply send_raw_loop_same in Hop as (Hs & _).
    apply same_but_send_fields in Hs as (_ & _ & _ & Hc' & _).
    by rewrite Hc'.
  - pose proof (flush_frame u c) as Haux.
    injection Hop as Hop. rewrite Hop in Haux. destruct Haux as (Hs & _).
    apply same_but_send_fields in Hs as (_ & _ & _ & Hc' & _).
    by rewrite Hc'.
  - destruct (telnet_user_update_cursor_x SEND_BUF_SIZE ok u c new_x)
      as [[u0 c0]| | |] eqn:Hupd; try done.
    injection Hop as <- <- <-.
    apply update_cursor_x_Done in Hupd as (u1 & -> & Hcase).
    simpl_fields.
    destruct (int_wrap (cursor_x u - 1) =? new_x)%Z.
    + destruct Hcase as [rc Hrun].
      apply send_data_Done in Hrun as (Hs & _).
      apply same_but_send_fields in Hs as (_ & _ & _ & Hc' & _).
      by rewrite Hc'.
    + by destruct Hcase as [-> _].
Qed.

Lemma run_ops_closed (BUFFER_SIZE SEND_BUF_SIZE : nat)
    (os : list session_op) (u : telnet_user_t) (c : tcp_conn_t)
    (u' : telnet_user_t) (c' : tcp_conn_t) :
  run_ops BUFFER_SIZE SEND_BUF_SIZE os u c = Done (u', c') →
  peer_closed_state u c → peer_closed_state u' c'.
Proof.
  revert u c. induction os as [|o os IH]; intros u c; cbn [run_ops].
  - by intros [= <- <-].
  - destruct (run_op BUFFER_SIZE SEND_BUF_SIZE o u c)
      as [[[rc u1] c1]| | |] eqn:Hop; try done.
    intros Hrun Hst. apply (IH u1 c1 Hrun).
    by apply run_op_closed in Hop as [? _].
Qed.

(** C8: a refill that the transport answers with zero bytes sets
    [socket_closed] and [srvs.aborted] and fails with [ENOENT], which is
    not [EOK].  A call of [recv] during which the closed flag goes up
    returns [ENOENT] and leaves the session in the closed state; this is
    what a call does that finds the buffer drained and the stream at its
    end.  No operation takes the closed flag down again, and after any
    sequence of further operations every call of [recv] returns [ENOENT]
    without storing a byte. *)
Theorem peer_close_is_final (BUFFER_SIZE SEND_BUF_SIZE : nat) :
  0 < BUFFER_SIZE →
  (∀ u c c',
     tcp_conn_recv_wait c BUFFER_SIZE = Done (EOK, [], c') →
     telnet_user_fill_recv_buf BUFFER_SIZE u c
     = Done (ENOENT, set_closed_aborted u, c') ∧
     socket_closed (set_closed_aborted u) = true ∧
     srvs_aborted (set_closed_aborted u) = true) ∧
  ENOENT ≠ EOK ∧
  (∀ u c size rc out u' c',
     telnet_user_recv BUFFER_SIZE u c size = Done (rc, out, u', c') →
     socket_closed u = false → socket_closed u' = true →
     rc = ENOENT ∧ srvs_aborted u' = true ∧ peer_closed_state u' c') ∧
  (∀ u c size,
     0 < size → socket_buffer_len u ≤ socket_buffer_pos u →
     rx c = [] → rx_fin c = PeerClosed →
     telnet_user_recv BUFFER_SIZE u c size
     = Done (ENOENT, [], set_closed_aborted u, c)) ∧
  (∀ o u c rc u' c',
     run_op BUFFER_SIZE SEND_BUF_SIZE o u c = Done (rc, u', c') →
     socket_closed u = true → socket_closed u' = true) ∧
  (∀ os u c u' c' size,
     peer_closed_state u c →
     run_ops BUFFER_SIZE SEND_BUF_SIZE os u c = Done (u', c') →
     0 < size →
     telnet_user_recv BUFFER_SIZE u' c' size = Done (ENOENT, [], u', c')).
Proof.
  intros Hpos. split_and!.
  - intros u c c' Hwait. unfold telnet_user_fill_recv_buf.
    by rewrite Hwait.
  - done.
  - intros u c size rc out u' c' [_ Hrun]%telnet_user_recv_run Hopen Hclosed.
    apply recv_run_closed in Hrun as [Hsame|[-> Hst]]; [congruence| |done].
    split_and!; [done| |done]. by destruct Hst as (_ & ? & _).
  - intros u c size. apply recv_at_peer_close.
  - intros o u c rc u' c'. by apply run_op_closed_monotone.
  - intros os u c u' c' size Hst Hrun Hsize.
    apply run_ops_closed in Hrun; [|done].
    destruct Hrun as (Hc & Ha & Hd & Hrx & Hfin).
    rewrite recv_at_peer_close by done.
    by rewrite (peer_closed_state_fixed u' c').
Qed.

Lemma peer_close_is_final_witness :
  0 < 4 ∧
  telnet_user_recv 4 (fresh_user 4 4) (mk_conn [] PeerClosed [] []) 4
  = Done (ENOENT, [], set_closed_aborted (fresh_user 4 4),
          mk_conn [] PeerClosed [] []).
Proof.
  assert (Hpos : 0 < 4) by lia.
  split; [exact Hpos|].
  destruct (peer_close_is_final 4 4 Hpos) as (_ & _ & _ & Hrecv & _).
  apply Hrecv; [lia|cbn; lia|reflexivity|reflexivity].
Defined.

(** * Further properties *)

(** ** Session registry: attach, detach, add, destroy *)

Lemma list_alter_as_insert {A} (f : A → A) (l : list A) (i : nat) (x : A) :
  l !! i = Some x → alter f i l = <[i := f x]> l.
Proof.
  intros Hi. apply list_eq. intros j. destruct (decide (i = j)) as [->|Hne].
  - rewrite list_lookup_alter_eq, Hi.
    rewrite list_lookup_insert_eq by (by eapply lookup_lt_Some). done.
  - by rewrite list_lookup_alter_ne, list_lookup_insert_ne.
Qed.

(** X1: whenever the lookup returns, it returns either a pointer to the
    first session with the wanted service id, which is then not a zombie
    and has its connection count raised by exactly one while every other
    session is untouched, or [NULL], in which case no session has that
    service id and the registry is as it was.  A zombie is never
    returned. *)
Theorem lookup_returns_first_live_session (users : list telnet_user_t)
    (sid : Z) (p : user_ptr) (users' : list telnet_user_t) :
  telnet_user_get_for_client_connection users sid = (Returned p, users') →
  match p with
  | Some i =>
      ∃ s, users !! i = Some s ∧ service_id s = sid ∧
           telnet_user_is_zombie s = false ∧
           (∀ j s', j < i → users !! j = Some s' → service_id s' ≠ sid) ∧
           users' =
             <[i := set_locsrv_connection_count s
                      (locsrv_connection_count s + 1)%Z]> users
  | None => users' = users ∧ Forall (fun s => service_id s ≠ sid) users
  end.
Proof.
  unfold telnet_user_get_for_client_connection.
  destruct (list_find (fun tmp => service_id tmp = sid) users)
    as [[i s]|] eqn:Hfind.
  - apply list_find_Some in Hfind as (Hi & Hsid & Hfirst). cbn.
    destruct (task_finished s || socket_closed s) eqn:Hz; cbn; [done|].
    intros [= <- <-]. exists s. split_and!; try done.
    + unfold telnet_user_is_zombie. by rewrite orb_comm.
    + intros j s' Hj Hs'. by eapply Hfirst.
    + exact (list_alter_as_insert _ _ _ _ Hi).
  - apply list_find_None in Hfind. by intros [= <- <-].
Qed.

Lemma lookup_returns_first_live_session_witness :
  ∃ s, [mk_user 1 7 [] 0 0 [] 0 false true true 2 0 0 24;
        mk_user 2 7 [] 0 0 [] 0 false false false 0 0 0 24;
        mk_user 3 9 [] 0 0 [] 0 false false false 4 0 0 24] !! 2 = Some s ∧
       service_id s = 9%Z ∧ telnet_user_is_zombie s = false.
Proof.
  pose proof (lookup_returns_first_live_session
    [mk_user 1 7 [] 0 0 [] 0 false true true 2 0 0 24;
     mk_user 2 7 [] 0 0 [] 0 false false false 0 0 0 24;
     mk_user 3 9 [] 0 0 [] 0 false false false 4 0 0 24] 9 (Some 2) _
    eq_refl) as (s & H1 & H2 & H3 & _).
  exists s. split_and!; [exact H1|exact H2|exact H3].
Defined.

(** X2: attach followed by detach is the identity: when the lookup
    returns a session whose connection count was not negative,
    [telnet_user_notify_client_disconnected] on it passes its assertion
    and gives the session back as it was before the lookup, so that the
    registry is restored. *)
Theorem attach_detach_restores_registry (users : list telnet_user_t)
    (sid : Z) (i : nat) (users' : list telnet_user_t) :
  telnet_user_get_for_client_connection users sid
    = (Returned (Some i), users') →
  ∃ s s',
    users !! i = Some s ∧ users' !! i = Some s' ∧
    locsrv_connection_count s' = (locsrv_connection_count s + 1)%Z ∧
    ((0 ≤ locsrv_connection_count s)%Z →
     telnet_user_notify_client_disconnected s' = Done s ∧
     <[i := s]> users' = users).
Proof.
  unfold telnet_user_get_for_client_connection.
  destruct (list_find (fun tmp => service_id tmp = sid) users)
    as [[i0 s]|] eqn:Hfind; [|done].
  apply list_find_Some in Hfind as (Hi & Hsid & Hfirst). cbn.
  destruct (task_finished s || socket_closed s) eqn:Hz; cbn; [done|].
  intros [= <- <-].
  exists s, (set_locsrv_connection_count s (locsrv_connection_count s + 1)%Z).
  split_and!; try done.
  - by rewrite list_lookup_alter_eq, Hi.
  - intros Hcount. unfold telnet_user_notify_client_disconnected.
    simpl_fields.
    replace (0 <? locsrv_connection_count s + 1)%Z with true
      by (symmetry; apply Z.ltb_lt; lia).
    cbn [negb]. split.
    + replace (locsrv_connection_count s + 1 - 1)%Z
        with (locsrv_connection_count s) by lia.
      by destruct s.
    + rewrite (list_alter_as_insert _ _ _ _ Hi).
      rewrite list_insert_insert_eq. by apply list_insert_id.
Qed.

Lemma attach_detach_restores_registry_witness :
  ∃ s s',
    [mk_user 3 9 [] 0 0 [] 0 false false false 4 0 0 24] !! 0 = Some s ∧
    locsrv_connection_count s' = 5%Z ∧
    telnet_user_notify_client_disconnected s' = Done s.
Proof.
  destruct (attach_detach_restores_registry
    [mk_user 3 9 [] 0 0 [] 0 false false false 4 0 0 24] 9 0 _ eq_refl)
    as (s & s' & H1 & H2 & H3 & H4).
  exists s, s'. split_and!; [exact H1| |].
  - rewrite H3. injection H1 as <-. reflexivity.
  - apply H4. injection H1 as <-. cbn. lia.
Defined.

(** X3: a session added to the registry is found by its service id, at
    the tail of the list and with its connection count raised by one,
    provided it is not a zombie and no session added before has the same
    service id; when an earlier session has it, the lookup still goes
    to that one. *)
Theorem add_then_lookup (users : list telnet_user_t) (u : telnet_user_t) :
  (Forall (fun s => service_id s ≠ service_id u) users →
   telnet_user_is_zombie u = false →
   telnet_user_get_for_client_connection (telnet_user_add users u)
     (service_id u)
   = (Returned (Some (length users)),
      users ++ [set_locsrv_connection_count u
                  (locsrv_connection_count u + 1)%Z])) ∧
  (∀ i s,
     list_find (fun tmp => service_id tmp = service_id u) users
       = Some (i, s) →
     list_find (fun tmp => service_id tmp = service_id u)
       (telnet_user_add users u) = Some (i, s)).
Proof.
  unfold telnet_user_add. split.
  - intros Hfresh Hlive.
    assert (Hfind : list_find (fun tmp => service_id tmp = service_id u)
                      (users ++ [u]) = Some (length users, u)).
    { apply list_find_Some. split_and!.
      - by rewrite lookup_app_r, Nat.sub_diag by lia.
      - done.
      - intros j y Hy Hj. rewrite lookup_app_l in Hy by done.
        rewrite Forall_forall in Hfresh.
        apply Hfresh. by eapply list_elem_of_lookup_2. }
    rewrite (get_for_client_connection_live _ _ _ _ Hfind Hlive).
    f_equal.
    rewrite (list_alter_as_insert _ _ _ u)
      by (by rewrite lookup_app_r, Nat.sub_diag by lia).
    replace (length users) with (length users + 0) at 1 by lia.
    by rewrite insert_app_r.
  - intros i s Hfind. by apply list_find_app_l.
Qed.

Lemma add_then_lookup_witness :
  telnet_user_get_for_client_connection
    (telnet_user_add [mk_user 1 7 [] 0 0 [] 0 false true true 2 0 0 24]
       (mk_user 2 8 [] 0 0 [] 0 false false false 0 0 0 24)) 8
  = (Returned (Some 1),
     [mk_user 1 7 [] 0 0 [] 0 false true true 2 0 0 24;
      mk_user 2 8 [] 0 0 [] 0 false false false 1 0 0 24]).
Proof.
  destruct (add_then_lookup
              [mk_user 1 7 [] 0 0 [] 0 false true true 2 0 0 24]
              (mk_user 2 8 [] 0 0 [] 0 false false false 0 0 0 24))
    as [H _].
  apply H; [|reflexivity].
  constructor; [|constructor]. cbn. lia.
Defined.

(** X4: destroying the session that was added last gives the registry
    back; after a session is destroyed, a lookup of its service id
    returns [NULL] and changes nothing, provided no other session has
    that id; destroying through [NULL] fails the assertion. *)
Theorem destroy_unregisters (users : list telnet_user_t) :
  (∀ u, telnet_user_destroy (telnet_user_add users u) (Some (length users))
        = Done users) ∧
  (∀ i s,
     users !! i = Some s →
     (∀ j s', j ≠ i → users !! j = Some s' → service_id s' ≠ service_id s) →
     ∃ users',
       telnet_user_destroy users (Some i) = Done users' ∧
       length users' + 1 = length users ∧
       telnet_user_get_for_client_connection users' (service_id s)
       = (Returned None, users')) ∧
  telnet_user_destroy users None = AssertFailed.
Proof.
  split_and!; [| |done].
  - intros u. unfold telnet_user_destroy, telnet_user_add. f_equal.
    rewrite delete_middle. by rewrite app_nil_r.
  - intros i s Hi Huniq. exists (delete i users). split_and!; [done| |].
    + rewrite length_delete by eauto. apply lookup_lt_Some in Hi. lia.
    + unfold telnet_user_get_for_client_connection.
      assert (Hnone : list_find (fun tmp => service_id tmp = service_id s)
                        (delete i users) = None).
      { apply list_find_None, Forall_lookup. intros j s' Hj.
        destruct (decide (j < i)) as [Hlt|Hge].
        - rewrite list_lookup_delete_lt in Hj by done.
          apply (Huniq j); [lia|done].
        - rewrite list_lookup_delete_ge in Hj by lia.
          apply (Huniq (S j)); [lia|done]. }
      by rewrite Hnone.
Qed.

Lemma destroy_unregisters_witness :
  ∃ users',
    telnet_user_destroy
      [mk_user 1 7 [] 0 0 [] 0 false true true 2 0 0 24;
       mk_user 2 8 [] 0 0 [] 0 false false false 0 0 0 24] (Some 0)
    = Done users' ∧
    telnet_user_get_for_client_connection users' 7 = (Returned None, users').
Proof.
  destruct (destroy_unregisters
              [mk_user 1 7 [] 0 0 [] 0 false true true 2 0 0 24;
               mk_user 2 8 [] 0 0 [] 0 false false false 0 0 0 24])
    as (_ & H & _).
  destruct (H 0 (mk_user 1 7 [] 0 0 [] 0 false true true 2 0 0 24) eq_refl)
    as (users' & H1 & _ & H2).
  - intros [|[|j]] s' Hj Hs'; [done| |done].
    injection Hs' as <-. cbn. lia.
  - exists users'. split; [exact H1|exact H2].
Defined.

(** ** Creation *)

Lemma run_op_inv (BUFFER_SIZE SEND_BUF_SIZE : nat) (o : session_op)
    (u : telnet_user_t) (c : tcp_conn_t) (rc : errno_t) (u' : telnet_user_t)
    (c' : tcp_conn_t) :
  run_op BUFFER_SIZE SEND_BUF_SIZE o u c = Done (rc, u', c') →
  index_inv BUFFER_SIZE SEND_BUF_SIZE u →
  index_inv BUFFER_SIZE SEND_BUF_SIZE u'.
Proof.
  intros Hop Hinv. destruct o as [size|ok data|data| |ok new_x]; cbn in Hop.
  - destruct (telnet_user_recv BUFFER_SIZE u c size)
      as [[[[rc0 out] u0] c0]| | |] eqn:Hrecv; try done.
    injection Hop as <- <- <-.
    apply telnet_user_recv_run in Hrecv as [_ Hrun].
    by eapply recv_run_inv.
  - by eapply send_data_inv.
  - by eapply send_raw_inv.
  - injection Hop as Hop. by eapply flush_inv.
  - destruct (telnet_user_update_cursor_x SEND_BUF_SIZE ok u c new_x)
      as [[u0 c0]| | |] eqn:Hupd; try done.
    injection Hop as <- <- <-. by eapply update_cursor_x_inv.
Qed.

Lemma run_ops_inv (BUFFER_SIZE SEND_BUF_SIZE : nat) (os : list session_op)
    (u : telnet_user_t) (c : tcp_conn_t) (u' : telnet_user_t)
    (c' : tcp_conn_t) :
  run_ops BUFFER_SIZE SEND_BUF_SIZE os u c = Done (u', c') →
  index_inv BUFFER_SIZE SEND_BUF_SIZE u →
  index_inv BUFFER_SIZE SEND_BUF_SIZE u'.
Proof.
  revert u c. induction os as [|o os IH]; intros u c; cbn [run_ops].
  - by intros [= <- <-].
  - destruct (run_op BUFFER_SIZE SEND_BUF_SIZE o u c)
      as [[[rc u1] c1]| | |] eqn:Hop; try done.
    intros Hrun Hinv. apply (IH u1 c1 Hrun). by eapply run_op_inv.
Qed.

(** X5: [telnet_user_create], called with an id counter below
    [INT_MAX]: it returns no session when the allocation fails, and
    leaves the counter alone; it returns no session either when
    [asprintf] fails, but the counter has been raised by then, so the
    failed call uses up an id.  Otherwise the new session takes the
    raised counter as its id, so that a session created later has a
    larger id; it is not a zombie, holds no client and no buffered
    input, has the cursor at the origin, and whatever the block held
    before, the buffer-index invariants hold on it and on every session
    reached from it by the session operations. *)
Theorem created_session_is_in_order (BUFFER_SIZE SEND_BUF_SIZE : nat)
    (blk : telnet_user_t) (asprintf_rc counter : Z) :
  (INT_MIN ≤ counter < INT_MAX)%Z →
  telnet_user_create None asprintf_rc counter = (None, counter) ∧
  ((asprintf_rc < 0)%Z →
   telnet_user_create (Some blk) asprintf_rc counter
   = (None, (counter + 1)%Z)) ∧
  ((0 ≤ asprintf_rc)%Z →
   ∃ u,
     telnet_user_create (Some blk) asprintf_rc counter
     = (Some u, (counter + 1)%Z) ∧
     id u = (counter + 1)%Z ∧
     (∀ blk2 rc2 counter2 u2 counter3,
        (counter + 1 ≤ counter2 < INT_MAX)%Z →
        telnet_user_create (Some blk2) rc2 counter2 = (Some u2, counter3) →
        (id u < id u2)%Z ∧ counter3 = id u2) ∧
     telnet_user_is_zombie u = false ∧
     locsrv_connection_count u = 0%Z ∧
     buffered u = [] ∧ send_buf_used u = 0 ∧
     (cursor_x u, cursor_y u) = (0%Z, 0%Z) ∧
     (∀ os c u' c',
        run_ops BUFFER_SIZE SEND_BUF_SIZE os u c = Done (u', c') →
        index_inv BUFFER_SIZE SEND_BUF_SIZE u')).
Proof.
  intros Hc.
  assert (∀ z, (INT_MIN ≤ z < INT_MAX)%Z → int_wrap (z + 1) = (z + 1)%Z)
    as Hwrap.
  { intros z Hz. apply int_wrap_id.
    unfold int_range, INT_MIN, INT_MAX in *. lia. }
  split; [done|]. unfold telnet_user_create. rewrite Hwrap by done. split.
  - intros Hrc%Z.ltb_lt. by rewrite Hrc.
  - intros Hrc. destruct (asprintf_rc <? 0)%Z eqn:Hlt.
    { apply Z.ltb_lt in Hlt. lia. }
    eexists. split; [reflexivity|]. simpl_fields.
    split_and!; try done.
    + intros blk2 rc2 counter2 u2 counter3 Hle.
      rewrite Hwrap by (unfold INT_MIN, INT_MAX in *; lia).
      destruct (rc2 <? 0)%Z; [done|].
      intros [= <- <-]. simpl_fields. lia.
    + intros os c u' c' Hrun. eapply run_ops_inv; [exact Hrun|].
      unfold index_inv. simpl_fields. lia.
Qed.

Lemma created_session_is_in_order_witness :
  ∃ u,
    telnet_user_create (Some (zero_block 4 4 24)) 0 0 = (Some u, 1%Z) ∧
    id u = 1%Z ∧ telnet_user_is_zombie u = false.
Proof.
  destruct (created_session_is_in_order 4 4 (zero_block 4 4 24) 0 0)
    as (_ & _ & H).
  - vm_compute. split; [discriminate|reflexivity].
  - destruct H as (u & H1 & H2 & _ & H3 & _).
    + lia.
    + exists u. split_and!; [exact H1|exact H2|exact H3].
Defined.

(** ** Send path: raw data, the batch limit and failures *)

Section SendMore.

Variable BUFFER_SIZE : nat.
Variable SEND_BUF_SIZE : nat.

Local Abbreviation send_loop := (send_raw_loop SEND_BUF_SIZE).

(** What a returned copy loop has done with the data, also when a send
    failed: it has taken a prefix of the data, and each send carried one
    whole buffer. *)
Lemma send_raw_loop_prefix (fuel : nat) (u : telnet_user_t) (c : tcp_conn_t)
    (remain : nat) (data : list byte) (rc : errno_t) (u' : telnet_user_t)
    (c' : tcp_conn_t) :
  remain = SEND_BUF_SIZE - send_buf_used u →
  send_buf_used u ≤ SEND_BUF_SIZE →
  length (send_buf u) = SEND_BUF_SIZE →
  send_loop fuel u c remain data = Done (rc, u', c') →
  ∃ k n,
    k ≤ length data ∧
    out_stream u' c' = out_stream u c ++ take k data ∧
    length (tx c') = length (tx c) + n * SEND_BUF_SIZE ∧
    (rc = EOK → k = length data) ∧
    (rc ≠ EOK → k < length data ∧ send_buf_used u' = SEND_BUF_SIZE).
Proof.
  revert u c remain data.
  induction fuel as [|fuel IH]; intros u c remain [|d ds] Hrem Hused Hbuf;
    cbn [send_raw_loop].
  1,3: intros [= <- <- <-]; exists 0, 0; rewrite app_nil_r;
       split_and!; auto with lia.
  1: done.
  set (data := d :: ds).
  assert (Hstep : ∀ u1 c1 remain1,
    remain1 = SEND_BUF_SIZE - send_buf_used u1 →
    send_buf_used u1 ≤ SEND_BUF_SIZE →
    length (send_buf u1) = SEND_BUF_SIZE →
    send_loop fuel
      (set_send_buf u1
         (list_inserts (send_buf_used u1)
            (take (remain1 `min` length data) data) (send_buf u1))
         (send_buf_used u1 + remain1 `min` length data))
      c1 (remain1 - remain1 `min` length data)
      (drop (remain1 `min` length data) data) = Done (rc, u', c') →
    ∃ k n,
      k ≤ length data ∧
      out_stream u' c' = out_stream u1 c1 ++ take k data ∧
      length (tx c') = length (tx c1) + n * SEND_BUF_SIZE ∧
      (rc = EOK → k = length data) ∧
      (rc ≠ EOK → k < length data ∧ send_buf_used u' = SEND_BUF_SIZE)).
  { intros u1 c1 remain1 Hrem1 Hused1 Hbuf1 Hrun.
    set (now := remain1 `min` length data) in *.
    apply IH in Hrun as (k & n & Hk & Hout & Htx & Hok & Hfail);
      simpl_fields; [|lia..|by rewrite length_inserts].
    rewrite length_drop in Hk, Hok, Hfail.
    exists (now + k), n. split_and!; [lia| |done|lia|].
    - rewrite Hout. unfold out_stream. simpl_fields.
      assert (Hnow : length (take now data) = now)
        by (rewrite length_take; lia).
      rewrite <-Hnow at 1.
      rewrite take_inserts_append by lia.
      by rewrite <-!app_assoc, take_take_drop.
    - intros Hrc. destruct (Hfail Hrc). split; [lia|done]. }
  destruct (remain =? 0) eqn:Hz.
  - apply Nat.eqb_eq in Hz.
    pose proof (tcp_conn_send_spec c (take SEND_BUF_SIZE (send_buf u)))
      as Hsend.
    destruct (tcp_conn_send c (take SEND_BUF_SIZE (send_buf u)))
      as [rc0 c0].
    destruct Hsend as (_ & _ & Htx0 & _).
    destruct (rc0 =? EOK)%Z eqn:Hrc0; cbn [negb].
    + intros Hrun. apply Hstep in Hrun
        as (k & n & Hk & Hout & Htx & Hok & Hfail); simpl_fields;
        [|lia..|done].
      exists k, (S n). split_and!; try done.
      * rewrite Hout. unfold out_stream. simpl_fields.
        rewrite Htx0, take_0, app_nil_r.
        by replace (send_buf_used u) with SEND_BUF_SIZE by lia.
      * rewrite Htx, Htx0, length_app, length_take. lia.
    + intros [= <- <- <-]. apply Z.eqb_neq in Hrc0.
      exists 0, 0. split_and!; try done.
      * lia.
      * unfold out_stream. by rewrite Htx0, take_0, app_nil_r.
      * by rewrite Htx0.
      * intros _. subst data. cbn [length]. lia.
  - by apply Hstep.
Qed.

End SendMore.

(** X6: on a session in order and a connection that accepts what is
    sent, [send_raw] succeeds and the accepted stream grows by exactly
    the submitted bytes, untranslated; the cursor and everything but the
    batch buffer are as before, and nothing is taken from the receive
    side of the connection. *)
Theorem send_raw_is_verbatim (BUFFER_SIZE SEND_BUF_SIZE : nat)
    (u : telnet_user_t) (c : tcp_conn_t) (data : list byte) :
  0 < SEND_BUF_SIZE →
  buffers_typed BUFFER_SIZE SEND_BUF_SIZE u →
  index_inv BUFFER_SIZE SEND_BUF_SIZE u →
  tx_ok c →
  ∃ u' c',
    telnet_user_send_raw SEND_BUF_SIZE u c data = Done (EOK, u', c') ∧
    out_stream u' c' = out_stream u c ++ data ∧
    same_but_send u u' ∧
    (cursor_x u', cursor_y u') = (cursor_x u, cursor_y u) ∧
    rx c' = rx c ∧ rx_fin c' = rx_fin c ∧ tx_ok c'.
Proof.
  intros Hpos [_ Hbuf] (_ & _ & Hused) Hok.
  unfold telnet_user_send_raw, telnet_user_send_raw_locked.
  destruct (send_raw_loop_returns SEND_BUF_SIZE (length data) u c
              (SEND_BUF_SIZE - send_buf_used u) data Hpos (le_n _))
    as [[[rc u'] c'] Hrun].
  rewrite Hrun.
  apply send_raw_loop_Done in Hrun
    as (Hsame & _ & _ & Hrx & Hfin & Hrc & Hout); [|done..].
  destruct (Hrc Hok) as [-> Hok'].
  exists u', c'. split_and!; auto.
  apply same_but_send_fields in Hsame as (_ & _ & _ & _ & _ & -> & -> & _).
  done.
Qed.

Lemma send_raw_is_verbatim_witness :
  ∃ u' c',
    telnet_user_send_raw 4 (fresh_user 4 4) (peer_sends [])
      [10; 13; 0; 255; 8; 97]%Z = Done (EOK, u', c') ∧
    out_stream u' c' = [10; 13; 0; 255; 8; 97]%Z.
Proof.
  destruct (send_raw_is_verbatim 4 4 (fresh_user 4 4) (peer_sends [])
              [10; 13; 0; 255; 8; 97]%Z) as (u' & c' & H1 & H2 & _).
  - lia.
  - split; reflexivity.
  - unfold index_inv. cbn. lia.
  - constructor.
  - exists u', c'. split; [exact H1|exact H2].
Defined.

(** X7: as long as the submitted bytes fit into what is left of the batch
    buffer, [send_raw] does not call the transport at all: it returns
    success with the connection untouched and the bytes appended to the
    batch, even when they fill the buffer to the brim. *)
Theorem send_raw_batches_without_sending (SEND_BUF_SIZE : nat)
    (u : telnet_user_t) (c : tcp_conn_t) (data : list byte) :
  length (send_buf u) = SEND_BUF_SIZE →
  send_buf_used u + length data ≤ SEND_BUF_SIZE →
  ∃ u',
    telnet_user_send_raw SEND_BUF_SIZE u c data = Done (EOK, u', c) ∧
    same_but_send u u' ∧
    send_buf_used u' = send_buf_used u + length data ∧
    take (send_buf_used u') (send_buf u')
    = take (send_buf_used u) (send_buf u) ++ data.
Proof.
  intros Hbuf Hfit.
  unfold telnet_user_send_raw, telnet_user_send_raw_locked.
  destruct data as [|d ds].
  - exists u. cbn. rewrite Nat.add_0_r, app_nil_r.
    split_and!; auto using same_but_send_refl.
  - cbn [length] in *. cbn [send_raw_loop].
    destruct (SEND_BUF_SIZE - send_buf_used u =? 0) eqn:Hz.
    { apply Nat.eqb_eq in Hz. lia. }
    replace ((SEND_BUF_SIZE - send_buf_used u) `min` length (d :: ds))
      with (length (d :: ds)) by (cbn [length]; lia).
    rewrite firstn_all, drop_all.
    eexists. split_and!.
    + by destruct (length ds).
    + apply same_but_send_set.
    + done.
    + simpl_fields. apply take_inserts_append. cbn [length]. lia.
Qed.

Lemma send_raw_batches_without_sending_witness :
  ∃ u',
    telnet_user_send_raw 4 (fresh_user 4 4)
      (mk_conn [] PeerSilent [] [5%Z]) [1; 2; 3; 4]%Z
    = Done (EOK, u', mk_conn [] PeerSilent [] [5%Z]) ∧
    send_buf_used u' = 4.
Proof.
  destruct (send_raw_batches_without_sending 4 (fresh_user 4 4)
              (mk_conn [] PeerSilent [] [5%Z]) [1; 2; 3; 4]%Z)
    as (u' & H1 & _ & H2 & _).
  - reflexivity.
  - cbn. lia.
  - exists u'. split; [exact H1|exact H2].
Defined.

(** X8: when [send_raw] returns, with or without an error, the accepted
    stream is the one before followed by a prefix of the submitted
    bytes: nothing accepted earlier is lost or reordered.  The prefix is
    everything on success; on an error it is a proper prefix and the
    batch buffer is left full. *)
Theorem send_raw_failure_keeps_prefix (BUFFER_SIZE SEND_BUF_SIZE : nat)
    (u : telnet_user_t) (c : tcp_conn_t) (data : list byte) (rc : errno_t)
    (u' : telnet_user_t) (c' : tcp_conn_t) :
  buffers_typed BUFFER_SIZE SEND_BUF_SIZE u →
  index_inv BUFFER_SIZE SEND_BUF_SIZE u →
  telnet_user_send_raw SEND_BUF_SIZE u c data = Done (rc, u', c') →
  ∃ k,
    out_stream u' c' = out_stream u c ++ take k data ∧
    (rc = EOK → k = length data) ∧
    (rc ≠ EOK → k < length data ∧ send_buf_used u' = SEND_BUF_SIZE).
Proof.
  intros [_ Hbuf] (_ & _ & Hused) Hrun.
  unfold telnet_user_send_raw, telnet_user_send_raw_locked in Hrun.
  apply send_raw_loop_prefix in Hrun
    as (k & n & _ & Hout & _ & Hok & Hfail); [|done..].
  eauto.
Qed.

Lemma send_raw_failure_keeps_prefix_witness :
  ∃ u' c' k,
    telnet_user_send_raw 4 (fresh_user 4 4)
      (mk_conn [] PeerSilent [] [0; 5]%Z) [1; 2; 3; 4; 5; 6; 7; 8; 9; 10]%Z
    = Done (5%Z, u', c') ∧
    out_stream u' c' = take k [1; 2; 3; 4; 5; 6; 7; 8; 9; 10]%Z ∧
    k < 10 ∧ send_buf_used u' = 4.
Proof.
  destruct (telnet_user_send_raw 4 (fresh_user 4 4)
              (mk_conn [] PeerSilent [] [0; 5]%Z)
              [1; 2; 3; 4; 5; 6; 7; 8; 9; 10]%Z)
    as [[[rc u'] c']| | |] eqn:Hrun;
    [|vm_compute in Hrun; discriminate..].
  assert (Hrc : rc = 5%Z) by (vm_compute in Hrun; congruence).
  subst rc.
  destruct (send_raw_failure_keeps_prefix 4 4 (fresh_user 4 4)
              (mk_conn [] PeerSilent [] [0; 5]%Z)
              [1; 2; 3; 4; 5; 6; 7; 8; 9; 10]%Z 5%Z u' c')
    as (k & H1 & _ & H2).
  - split; reflexivity.
  - unfold index_inv. cbn. lia.
  - exact Hrun.
  - destruct H2 as [H2 H3]; [done|].
    exists u', c', k. split_and!; [reflexivity|exact H1|exact H2|exact H3].
Defined.

(** X9: [send_raw] hands the transport whole buffers only: when it
    returns, the number of bytes it has put on the wire is a multiple of
    [SEND_BUF_SIZE]. *)
Theorem send_raw_sends_whole_buffers (BUFFER_SIZE SEND_BUF_SIZE : nat)
    (u : telnet_user_t) (c : tcp_conn_t) (data : list byte) (rc : errno_t)
    (u' : telnet_user_t) (c' : tcp_conn_t) :
  buffers_typed BUFFER_SIZE SEND_BUF_SIZE u →
  index_inv BUFFER_SIZE SEND_BUF_SIZE u →
  telnet_user_send_raw SEND_BUF_SIZE u c data = Done (rc, u', c') →
  ∃ n, length (tx c') = length (tx c) + n * SEND_BUF_SIZE.
Proof.
  intros [_ Hbuf] (_ & _ & Hused) Hrun.
  unfold telnet_user_send_raw, telnet_user_send_raw_locked in Hrun.
  apply send_raw_loop_prefix in Hrun
    as (k & n & _ & _ & Htx & _); [|done..].
  eauto.
Qed.

Lemma send_raw_sends_whole_buffers_witness :
  ∃ u' c' n,
    telnet_user_send_raw 4 (fresh_user 4 4) (peer_sends [])
      [1; 2; 3; 4; 5; 6; 7; 8; 9; 10]%Z = Done (EOK, u', c') ∧
    length (tx c') = n * 4.
Proof.
  destruct (telnet_user_send_raw 4 (fresh_user 4 4) (peer_sends [])
              [1; 2; 3; 4; 5; 6; 7; 8; 9; 10]%Z)
    as [[[rc u'] c']| | |] eqn:Hrun;
    [|vm_compute in Hrun; discriminate..].
  assert (Hrc : rc = EOK)
    by (vm_compute in Hrun; injection Hrun as <- _ _; reflexivity).
  subst rc.
  destruct (send_raw_sends_whole_buffers 4 4 (fresh_user 4 4) (peer_sends [])
              [1; 2; 3; 4; 5; 6; 7; 8; 9; 10]%Z EOK u' c') as [n Hn].
  - split; reflexivity.
  - unfold index_inv. cbn. lia.
  - exact Hrun.
  - exists u', c', n. split; [reflexivity|exact Hn].
Defined.

(** X10: [flush] on an empty batch changes neither the session nor the
    wire, whether the transport call it still makes succeeds or not; in
    particular a second [flush] right after a successful one puts nothing
    more on the wire. *)
Theorem flush_of_empty_batch (u : telnet_user_t) (c : tcp_conn_t) :
  send_buf_used u = 0 →
  (let '(rc, u', c') := telnet_user_flush u c in
   u' = u ∧ tx c' = tx c ∧ (tx_ok c → rc = EOK)) ∧
  (∀ u0 c0,
     telnet_user_flush u0 c0 = (EOK, u, c) →
     let '(rc, u', c') := telnet_user_flush u c in
     u' = u ∧ tx c' = tx c).
Proof.
  intros Hused.
  assert (Hflush : let '(rc, u', c') := telnet_user_flush u c in
                   u' = u ∧ tx c' = tx c ∧ (tx_ok c → rc = EOK)).
  { unfold telnet_user_flush. rewrite Hused, take_0.
    pose proof (tcp_conn_send_spec c []) as Hsend.
    destruct (tcp_conn_send c []) as [rc c'].
    destruct Hsend as (_ & _ & Htx & Hrc).
    destruct (rc =? EOK)%Z eqn:Heq; cbn [negb].
    - rewrite app_nil_r in Htx. split_and!; [|done..].
      destruct u; cbn in *; by subst.
    - split_and!; [done..|]. intros Hok. by destruct (Hrc Hok). }
  split; [exact Hflush|].
  intros u0 c0 _. destruct (telnet_user_flush u c) as [[rc u'] c'].
  by destruct Hflush as (? & ? & _).
Qed.

Lemma flush_of_empty_batch_witness :
  telnet_user_flush (fresh_user 4 4) (mk_conn [] PeerSilent [1; 2]%Z [5%Z])
  = (5%Z, fresh_user 4 4, mk_conn [] PeerSilent [1; 2]%Z []).
Proof.
  destruct (flush_of_empty_batch (fresh_user 4 4)
              (mk_conn [] PeerSilent [1; 2]%Z [5%Z]) eq_refl) as [H _].
  destruct (telnet_user_flush (fresh_user 4 4)
              (mk_conn [] PeerSilent [1; 2]%Z [5%Z]))
    as [[rc u'] c'] eqn:Hflush.
  destruct H as (-> & _ & _).
  vm_compute in Hflush. injection Hflush as <- <-. reflexivity.
Defined.

(** ** Cursor model: the row and the size of the translation *)

(** X11: whenever [send_data] returns, the row has not gone down and has
    not passed [rows - 1] unless it was beyond it already, so a row on
    the screen stays on the screen; without an LF in the data the row is
    unchanged, and after data ending in LF the column is 0. *)
Theorem send_data_row_stays_on_screen (SEND_BUF_SIZE : nat) (ok : bool)
    (u : telnet_user_t) (c : tcp_conn_t) (data : list byte) (rc : errno_t)
    (u' : telnet_user_t) (c' : tcp_conn_t) :
  telnet_user_send_data SEND_BUF_SIZE ok u c data = Done (rc, u', c') →
  (cursor_y u ≤ cursor_y u' ≤ Z.max (cursor_y u) (rows u - 1))%Z ∧
  ((0 ≤ cursor_y u < rows u)%Z → (0 ≤ cursor_y u' < rows u')%Z) ∧
  (Forall (fun d => d ≠ 10%Z) data → cursor_y u' = cursor_y u) ∧
  (∀ pre, data = pre ++ [10%Z] → cursor_x u' = 0%Z).
Proof.
  intros Hrun.
  apply send_data_Done in Hrun as (Hsame & _).
  apply same_but_send_fields in Hsame as (_ & _ & _ & _ & _ & Hx & Hy & Hr).
  simpl_fields. rewrite Hx, Hy, Hr.
  destruct (cursor_fold_row (rows u) data (cursor_x u) (cursor_y u))
    as (Hrow & Hsame & Hcol).
  split; [exact Hrow|]. split; [|by split].
  intros Hscreen. lia.
Qed.

Lemma send_data_row_stays_on_screen_witness :
  ∃ u' c',
    telnet_user_send_data 4 true
      (mk_user 1 7 [] 0 0 [0; 0; 0; 0]%Z 0 false false false 0 3 1 3)
      (peer_sends []) [10; 97; 10; 10; 98; 10]%Z = Done (EOK, u', c') ∧
    (1 ≤ cursor_y u' ≤ 2)%Z ∧ cursor_x u' = 0%Z.
Proof.
  destruct (telnet_user_send_data 4 true
      (mk_user 1 7 [] 0 0 [0; 0; 0; 0]%Z 0 false false false 0 3 1 3)
      (peer_sends []) [10; 97; 10; 10; 98; 10]%Z)
    as [[[rc u'] c']| | |] eqn:Hrun;
    [|vm_compute in Hrun; discriminate..].
  assert (Hrc : rc = EOK)
    by (vm_compute in Hrun; injection Hrun as <- _ _; reflexivity).
  subst rc.
  destruct (send_data_row_stays_on_screen 4 true _ _ _ _ _ _ Hrun)
    as (Hrow & _ & _ & Hcol).
  exists u', c'. split; [reflexivity|]. split; [cbn in Hrow; lia|].
  exact (Hcol [10; 97; 10; 10; 98]%Z eq_refl).
Defined.

(** X12: the translation loop of [send_data] stores one byte for every
    byte of the data and one more for every LF in it: never fewer than
    [size] bytes, never more than [2 * size], and so always within the
    [3 * size + 1] bytes that are allocated for the result. *)
Theorem send_data_translation_size (u : telnet_user_t) (data : list byte) :
  length (send_data_convert u data []).1
  = length data + length (filter (fun d => d = 10%Z) data) ∧
  length data ≤ length (send_data_convert u data []).1 ≤ 2 * length data ∧
  length (send_data_convert u data []).1 < 3 * length data + 1.
Proof.
  destruct (send_data_convert_spec u data []) as [-> _]. cbn [app].
  assert (Hlen : length (lf_to_crlf data)
                 = length data + length (filter (fun d => d = 10%Z) data)).
  { unfold lf_to_crlf. induction data as [|d data IH]; [done|].
    change (d :: data) with ([d] ++ data) at 1.
    rewrite flat_map_app, length_app. unfold byte in *. rewrite IH.
    simpl (flat_map _ [d]).
    destruct (d =? 10)%Z eqn:Hd.
    - apply Z.eqb_eq in Hd. rewrite filter_cons_True by done. cbn. lia.
    - apply Z.eqb_neq in Hd. rewrite filter_cons_False by done. cbn. lia. }
  pose proof (length_filter (fun d => d = 10%Z) data) as Hfilter.
  unfold byte in *. rewrite Hlen. lia.
Qed.

(** ** Send path: successive submissions *)

Lemma send_data_typed (BUFFER_SIZE SEND_BUF_SIZE : nat) (ok : bool)
    (u : telnet_user_t) (c : tcp_conn_t) (data : list byte) (rc : errno_t)
    (u' : telnet_user_t) (c' : tcp_conn_t) :
  telnet_user_send_data SEND_BUF_SIZE ok u c data = Done (rc, u', c') →
  index_inv BUFFER_SIZE SEND_BUF_SIZE u →
  buffers_typed BUFFER_SIZE SEND_BUF_SIZE u →
  buffers_typed BUFFER_SIZE SEND_BUF_SIZE u'.
Proof.
  intros (Hsame & _ & _ & Hdone)%send_data_Done Hinv [Hsock Hsend].
  destruct (Hdone (proj2 (proj2 Hinv))) as (_ & Hlen & _).
  apply same_but_send_fields in Hsame as (Hbuf & _).
  unfold buffers_typed. rewrite Hbuf, Hlen. done.
Qed.

(** X13: submission boundaries do not show: on a session in order and a
    connection that accepts what is sent, submitting [s1] and then [s2]
    with [send_data] succeeds and leaves the same accepted stream and
    the same cursor as submitting [s1 ++ s2] at once. *)
Theorem send_data_twice_as_once (BUFFER_SIZE SEND_BUF_SIZE : nat)
    (u : telnet_user_t) (c : tcp_conn_t) (s1 s2 : list byte) :
  0 < SEND_BUF_SIZE →
  buffers_typed BUFFER_SIZE SEND_BUF_SIZE u →
  index_inv BUFFER_SIZE SEND_BUF_SIZE u →
  tx_ok c →
  ∃ u1 c1 u2 c2 u12 c12,
    telnet_user_send_data SEND_BUF_SIZE true u c s1 = Done (EOK, u1, c1) ∧
    telnet_user_send_data SEND_BUF_SIZE true u1 c1 s2 = Done (EOK, u2, c2) ∧
    telnet_user_send_data SEND_BUF_SIZE true u c (s1 ++ s2)
      = Done (EOK, u12, c12) ∧
    out_stream u2 c2 = out_stream u12 c12 ∧
    (cursor_x u2, cursor_y u2) = (cursor_x u12, cursor_y u12).
Proof.
  intros Hpos Hty Hinv Hok.
  assert (Hsend : ∀ u0 c0 s,
    buffers_typed BUFFER_SIZE SEND_BUF_SIZE u0 →
    index_inv BUFFER_SIZE SEND_BUF_SIZE u0 → tx_ok c0 →
    ∃ u' c',
      telnet_user_send_data SEND_BUF_SIZE true u0 c0 s = Done (EOK, u', c') ∧
      out_stream u' c' = out_stream u0 c0 ++ lf_to_crlf s ∧
      (cursor_x u', cursor_y u')
      = foldl (cursor_step (rows u0)) (cursor_x u0, cursor_y u0) s ∧
      rows u' = rows u0 ∧
      buffers_typed BUFFER_SIZE SEND_BUF_SIZE u' ∧
      index_inv BUFFER_SIZE SEND_BUF_SIZE u' ∧ tx_ok c').
  { intros u0 c0 s Hty0 Hinv0 Hok0.
    destruct (send_data_returns SEND_BUF_SIZE u0 c0 s Hpos)
      as [[[rc u'] c'] Hrun].
    pose proof (send_data_typed _ _ _ _ _ _ _ _ _ Hrun Hinv0 Hty0) as Hty'.
    pose proof (send_data_inv _ _ _ _ _ _ _ _ _ Hrun Hinv0) as Hinv'.
    pose proof Hrun as Hrun'.
    apply send_data_Done in Hrun' as (Hsame & _ & _ & Hdone).
    destruct (Hdone (proj2 (proj2 Hinv0))) as (_ & _ & _ & _ & Hrc & Hout).
    destruct (Hrc Hok0) as [-> Hok'].
    apply same_but_send_fields in Hsame
      as (_ & _ & _ & _ & _ & Hx & Hy & Hr).
    simpl_fields.
    exists u', c'. split_and!; try done.
    - apply Hout; [done|]. apply Hty0.
    - rewrite Hx, Hy. by rewrite <-surjective_pairing. }
  destruct (Hsend u c s1 Hty Hinv Hok)
    as (u1 & c1 & Hrun1 & Hout1 & Hcur1 & Hrows1 & Hty1 & Hinv1 & Hok1).
  destruct (Hsend u1 c1 s2 Hty1 Hinv1 Hok1)
    as (u2 & c2 & Hrun2 & Hout2 & Hcur2 & _).
  destruct (Hsend u c (s1 ++ s2) Hty Hinv Hok)
    as (u12 & c12 & Hrun12 & Hout12 & Hcur12 & _).
  exists u1, c1, u2, c2, u12, c12. split_and!; try done.
  - rewrite Hout2, Hout1, Hout12. unfold lf_to_crlf.
    by rewrite flat_map_app, app_assoc.
  - rewrite Hcur2, Hcur12, foldl_app, Hrows1. by rewrite Hcur1.
Qed.

Lemma send_data_twice_as_once_witness :
  ∃ u2 c2 u12 c12,
    run_ops 4 4 [OpSendData true [97; 10]%Z; OpSendData true [10; 8; 98]%Z]
      (fresh_user 4 4) (peer_sends []) = Done (u2, c2) ∧
    telnet_user_send_data 4 true (fresh_user 4 4) (peer_sends [])
      [97; 10; 10; 8; 98]%Z = Done (EOK, u12, c12) ∧
    out_stream u2 c2 = out_stream u12 c12.
Proof.
  destruct (send_data_twice_as_once 4 4 (fresh_user 4 4) (peer_sends [])
              [97; 10]%Z [10; 8; 98]%Z)
    as (u1 & c1 & u2 & c2 & u12 & c12 & H1 & H2 & H12 & Hout & _).
  - lia.
  - split; reflexivity.
  - unfold index_inv. cbn. lia.
  - constructor.
  - exists u2, c2, u12, c12. split_and!; [|exact H12|exact Hout].
    cbn [run_ops run_op]. rewrite H1, H2. reflexivity.
Defined.

(** ** Receive path: what a call leaves alone *)

Lemma same_but_recv_refl (u : telnet_user_t) : same_but_recv u u.
Proof. by destruct u. Qed.

Lemma same_but_recv_trans (u1 u2 u3 : telnet_user_t) :
  same_but_recv u1 u2 → same_but_recv u2 u3 → same_but_recv u1 u3.
Proof. unfold same_but_recv. intros -> ->. done. Qed.

Lemma same_but_recv_set_buffer (u : telnet_user_t) (b : list byte)
    (len pos : nat) :
  same_but_recv u (set_socket_buffer u b len pos).
Proof. done. Qed.

Lemma same_but_recv_set_closed (u : telnet_user_t) :
  same_but_recv u (set_closed_aborted u).
Proof. done. Qed.

Section ReceiveMore.

Variable BUFFER_SIZE : nat.
Variable SEND_BUF_SIZE : nat.

Local Abbreviation typed := (buffers_typed BUFFER_SIZE SEND_BUF_SIZE).
Local Abbreviation inv := (index_inv BUFFER_SIZE SEND_BUF_SIZE).

Lemma next_byte_case_frame (u : telnet_user_t) (c : tcp_conn_t)
    (rc : errno_t) (b : byte) (u' : telnet_user_t) (c' : tcp_conn_t) :
  next_byte_case BUFFER_SIZE u c rc b u' c' →
  same_but_recv u u' ∧
  tx c' = tx c ∧ tx_rc c' = tx_rc c ∧ rx_fin c' = rx_fin c.
Proof.
  assert (Hset : ∀ r, tx (set_rx c r) = tx c ∧
                      tx_rc (set_rx c r) = tx_rc c ∧
                      rx_fin (set_rx c r) = rx_fin c) by done.
  inversion 1 as [| |? ? ? Hd Hrc Hfill]; subst.
  - split; [apply same_but_recv_set_buffer|done].
  - split; [apply same_but_recv_set_buffer|apply Hset].
  - inversion Hfill; subst; (split; [|apply Hset]).
    + apply same_but_recv_refl.
    + apply same_but_recv_set_closed.
    + apply same_but_recv_set_buffer.
Qed.

Lemma skip_run_frame (u : telnet_user_t) (c : tcp_conn_t) (inside : bool)
    (code : telnet_cmd_t) (rc : errno_t) (nb : byte) (u' : telnet_user_t)
    (c' : tcp_conn_t) :
  skip_run BUFFER_SIZE u c inside code rc nb u' c' →
  same_but_recv u u' ∧
  tx c' = tx c ∧ tx_rc c' = tx_rc c ∧ rx_fin c' = rx_fin c.
Proof.
  induction 1 as [u c inside code rc b u' c' Hnb Hrc
                 |u c inside code b u' c' Hnb Hcond
                 |u c inside code b u1 c1 rc nb u' c' Hnb Hz Hav Hrun IH].
  - by eapply next_byte_case_frame.
  - by eapply next_byte_case_frame.
  - apply next_byte_case_frame in Hnb as (Hs & Htx & Hrc & Hfin).
    destruct IH as (Hs' & Htx' & Hrc' & Hfin').
    split_and!; [by eapply same_but_recv_trans|congruence..].
Qed.

Lemma recv_run_frame (u : telnet_user_t) (c : tcp_conn_t) (size : nat)
    (dst : list byte) (rc : errno_t) (out : list byte) (u' : telnet_user_t)
    (c' : tcp_conn_t) :
  recv_run BUFFER_SIZE u c size dst rc out u' c' →
  same_but_recv u u' ∧
  tx c' = tx c ∧ tx_rc c' = tx_rc c ∧ rx_fin c' = rx_fin c.
Proof.
  induction 1 as [u c size dst rc b u' c' Hskip Hrc
                 |u c size dst b u' c' Hskip Hcond
                 |u c size dst b u1 c1 rc out u' c' Hskip Hcond Hrun IH].
  - by eapply skip_run_frame.
  - by eapply skip_run_frame.
  - apply skip_run_frame in Hskip as (Hs & Htx & Hrc & Hfin).
    destruct IH as (Hs' & Htx' & Hrc' & Hfin').
    split_and!; [by eapply same_but_recv_trans|congruence..].
Qed.

(** *** Errors come before the first stored byte *)

Lemma skip_run_avail (u : telnet_user_t) (c : tcp_conn_t) (inside : bool)
    (code : telnet_cmd_t) (rc : errno_t) (nb : byte) (u' : telnet_user_t)
    (c' : tcp_conn_t) :
  skip_run BUFFER_SIZE u c inside code rc nb u' c' →
  telnet_user_byte_avail u = true →
  rc = EOK ∧ c' = c.
Proof.
  unfold telnet_user_byte_avail.
  induction 1 as [u c inside code rc b u' c' Hnb Hrc
                 |u c inside code b u' c' Hnb Hcond
                 |u c inside code b u1 c1 rc nb u' c' Hnb Hz Hav Hrun IH];
    intros Havail%Nat.ltb_lt.
  - inversion Hnb; subst; try done. lia.
  - split; [done|]. inversion Hnb; subst; try done. lia.
  - assert (c1 = c) as -> by (inversion Hnb; subst; try done; lia).
    apply IH. exact Hav.
Qed.

Lemma recv_run_error_empty (u : telnet_user_t) (c : tcp_conn_t) (size : nat)
    (dst : list byte) (rc : errno_t) (out : list byte) (u' : telnet_user_t)
    (c' : tcp_conn_t) :
  recv_run BUFFER_SIZE u c size dst rc out u' c' →
  dst = [] ∨ telnet_user_byte_avail u = true →
  rc ≠ EOK → out = [].
Proof.
  induction 1 as [u c size dst rc b u' c' Hskip Hrc
                 |u c size dst b u' c' Hskip Hcond
                 |u c size dst b u1 c1 rc out u' c' Hskip Hcond Hrun IH];
    intros Hstart Hfail.
  - destruct Hstart as [->|Hav]; [done|].
    by apply skip_run_avail in Hskip as [? _].
  - done.
  - apply IH; [|done]. unfold recv_continue in Hcond.
    apply andb_true_iff in Hcond as [_ [Hav|Hl%Nat.eqb_eq]%orb_true_iff].
    + by right.
    + left. by apply length_zero_iff_nil.
Qed.

(** *** Order *)

Lemma recv_filter_byte_zero_or_same (inside : bool) (code : telnet_cmd_t)
    (b : byte) :
  (recv_filter_byte inside code b).1.2 = 0%Z ∨
  (recv_filter_byte inside code b).1.2 = b.
Proof.
  unfold recv_filter_byte.
  destruct inside; [destruct (TELNET_IS_OPTION_CODE b)|];
    destruct (b =? TELNET_IAC)%Z; cbn; auto.
Qed.

Lemma skip_run_order (u : telnet_user_t) (c : tcp_conn_t) (inside : bool)
    (code : telnet_cmd_t) (rc : errno_t) (nb : byte) (u' : telnet_user_t)
    (c' : tcp_conn_t) :
  skip_run BUFFER_SIZE u c inside code rc nb u' c' →
  typed u → inv u →
  ∃ consumed,
    in_stream u c = consumed ++ in_stream u' c' ∧ typed u' ∧ inv u' ∧
    (rc = EOK →
     (if (nb =? 0)%Z then [] else [cr_to_lf nb])
       `sublist_of` (cr_to_lf <$> consumed)).
Proof.
  induction 1 as [u c inside code rc b u' c' Hnb Hrc
                 |u c inside code b u' c' Hnb Hcond
                 |u c inside code b u1 c1 rc nb u' c' Hnb Hz Hav Hrun IH];
    intros Hty Hinv.
  - pose proof (next_byte_case_inv BUFFER_SIZE SEND_BUF_SIZE _ _ _ _ _ _ Hnb Hinv) as Hinv'.
    inversion Hnb as [| |? ? ? ? ? Hfill]; subst; try done.
    destruct (fill_case_stream BUFFER_SIZE SEND_BUF_SIZE _ _ _ _ _ Hfill Hrc) as [Hs Hty'].
    exists []. rewrite Hs. auto.
  - pose proof (next_byte_case_inv BUFFER_SIZE SEND_BUF_SIZE _ _ _ _ _ _ Hnb Hinv) as Hinv'.
    destruct (next_byte_case_stream BUFFER_SIZE SEND_BUF_SIZE _ _ _ _ _ Hnb Hty Hinv)
      as [Hs Hty'].
    exists [b]. split_and!; [done..|]. intros _.
    destruct (recv_filter_byte_zero_or_same inside code b) as [->| ->].
    + apply sublist_nil_l.
    + destruct (b =? 0)%Z; [apply sublist_nil_l|done].
  - pose proof (next_byte_case_inv BUFFER_SIZE SEND_BUF_SIZE _ _ _ _ _ _ Hnb Hinv) as Hinv'.
    destruct (next_byte_case_stream BUFFER_SIZE SEND_BUF_SIZE _ _ _ _ _ Hnb Hty Hinv)
      as [Hs Hty'].
    destruct (IH Hty' Hinv') as (consumed & Hs' & Hty'' & Hinv'' & Hsub).
    exists (b :: consumed). rewrite Hs, Hs'. split_and!; [done..|].
    intros Hrc. rewrite fmap_cons. apply sublist_cons. by apply Hsub.
Qed.

Lemma recv_run_order (u : telnet_user_t) (c : tcp_conn_t) (size : nat)
    (dst : list byte) (rc : errno_t) (out : list byte) (u' : telnet_user_t)
    (c' : tcp_conn_t) :
  recv_run BUFFER_SIZE u c size dst rc out u' c' →
  typed u → inv u →
  ∃ consumed new,
    in_stream u c = consumed ++ in_stream u' c' ∧
    out = dst ++ new ∧
    new `sublist_of` (cr_to_lf <$> consumed).
Proof.
  induction 1 as [u c size dst rc b u' c' Hskip Hrc
                 |u c size dst b u' c' Hskip Hcond
                 |u c size dst b u1 c1 rc out u' c' Hskip Hcond Hrun IH];
    intros Hty Hinv.
  - destruct (skip_run_order _ _ _ _ _ _ _ _ Hskip Hty Hinv)
      as (consumed & Hs & _).
    exists consumed, []. rewrite app_nil_r.
    split_and!; [done..|apply sublist_nil_l].
  - destruct (skip_run_order _ _ _ _ _ _ _ _ Hskip Hty Hinv)
      as (consumed & Hs & _ & _ & Hsub).
    exists consumed, (if (b =? 0)%Z then [] else [cr_to_lf b]).
    split_and!; [done|apply recv_store_decode|by apply Hsub].
  - destruct (skip_run_order _ _ _ _ _ _ _ _ Hskip Hty Hinv)
      as (consumed & Hs & Hty' & Hinv' & Hsub).
    destruct (IH Hty' Hinv') as (consumed' & new & Hs' & Hout & Hsub').
    exists (consumed ++ consumed'),
      ((if (b =? 0)%Z then [] else [cr_to_lf b]) ++ new).
    split_and!.
    + by rewrite Hs, Hs', app_assoc.
    + by rewrite Hout, recv_store_decode, app_assoc.
    + rewrite fmap_app. apply sublist_app; [by apply Hsub|done].
Qed.

(** *** A closed connection does not block *)

Lemma recv_wait_events_closed (r : list rx_event) (n : nat) :
  recv_wait_events r PeerClosed n ≠ Blocked.
Proof. induction r as [|[[|b bs]|code] r IH]; cbn; done. Qed.

Lemma recv_next_byte_closed (u : telnet_user_t) (c : tcp_conn_t) :
  rx_fin c = PeerClosed →
  telnet_user_recv_next_byte_locked BUFFER_SIZE u c ≠ Blocked.
Proof.
  intros Hfin.
  unfold telnet_user_recv_next_byte_locked, telnet_user_fill_recv_buf,
    tcp_conn_recv_wait.
  destruct (socket_buffer_len u <=? socket_buffer_pos u); [|done].
  rewrite Hfin.
  pose proof (recv_wait_events_closed (rx c) BUFFER_SIZE) as Hw.
  destruct (recv_wait_events (rx c) PeerClosed BUFFER_SIZE)
    as [[[rc0 bs] r']| | |]; try done.
  destruct (negb (rc0 =? EOK)%Z) eqn:Hrc; [by rewrite Hrc|].
  by destruct (length bs =? 0).
Qed.

Lemma recv_skip_loop_closed (fuel : nat) (u : telnet_user_t)
    (c : tcp_conn_t) (inside : bool) (code : telnet_cmd_t) :
  rx_fin c = PeerClosed →
  recv_skip_loop BUFFER_SIZE fuel u c inside code ≠ Blocked.
Proof.
  revert u c inside code.
  induction fuel as [|fuel IH]; intros u c inside code Hfin; [done|].
  rewrite recv_skip_loop_S.
  pose proof (recv_next_byte_closed u c Hfin) as Hnb.
  destruct (telnet_user_recv_next_byte_locked BUFFER_SIZE u c)
    as [[[[rc0 b] u1] c1]| | |] eqn:Hstep; try done.
  apply recv_next_byte_Done, next_byte_case_frame in Hstep
    as (_ & _ & _ & Hfin1).
  destruct (negb (rc0 =? EOK)%Z); [done|].
  destruct (((recv_filter_byte inside code b).1.2 =? 0)%Z
            && telnet_user_byte_avail u1); [|done].
  apply IH. congruence.
Qed.

Lemma recv_loop_closed (fuel : nat) (u : telnet_user_t) (c : tcp_conn_t)
    (size : nat) (dst : list byte) :
  rx_fin c = PeerClosed →
  recv_loop BUFFER_SIZE fuel u c size dst ≠ Blocked.
Proof.
  revert u c size dst.
  induction fuel as [|fuel IH]; intros u c size dst Hfin; [done|].
  rewrite recv_loop_S.
  pose proof (recv_skip_loop_closed (S (recv_budget u c)) u c false 0%Z Hfin)
    as Hskip.
  destruct (recv_skip_loop BUFFER_SIZE (S (recv_budget u c)) u c false 0%Z)
    as [[[[rc0 b] u1] c1]| | |] eqn:Hstep; try done.
  apply recv_skip_loop_run, skip_run_frame in Hstep as (_ & _ & _ & Hfin1).
  destruct (negb (rc0 =? EOK)%Z); [done|].
  destruct (recv_continue u1 _ _); [|done].
  apply IH. congruence.
Qed.

End ReceiveMore.

(** ** Receive path: the filter, fill by fill *)

Lemma telnet_filter_step (inside : bool) (code : telnet_cmd_t) (b : byte)
    (bs : list byte) :
  telnet_filter inside (b :: bs) =
  (if ((recv_filter_byte inside code b).1.2 =? 0)%Z then []
   else [cr_to_lf (recv_filter_byte inside code b).1.2])
  ++ telnet_filter (recv_filter_byte inside code b).1.1 bs.
Proof.
  cbn [telnet_filter].
  unfold recv_filter_byte, TELNET_IS_OPTION_CODE, TELNET_IAC, TELNET_WILL,
    TELNET_WONT, TELNET_DO, TELNET_DONT.
  destruct (b =? 255)%Z eqn:H255.
  - by destruct inside;
      [destruct ((b =? 251)%Z || (b =? 252)%Z || (b =? 253)%Z
                 || (b =? 254)%Z)|].
  - destruct inside; [|done].
    assert (Hcode : (251 <=? b)%Z && (b <=? 254)%Z
                    = (b =? 251)%Z || (b =? 252)%Z || (b =? 253)%Z
                      || (b =? 254)%Z).
    { destruct (251 <=? b)%Z eqn:H1, (b <=? 254)%Z eqn:H2,
        (b =? 251)%Z eqn:H3, (b =? 252)%Z eqn:H4, (b =? 253)%Z eqn:H5,
        (b =? 254)%Z eqn:H6; try reflexivity; exfalso;
        rewrite ?Z.leb_le, ?Z.leb_gt, ?Z.eqb_eq, ?Z.eqb_neq in *; lia. }
    rewrite Hcode.
    by destruct ((b =? 251)%Z || (b =? 252)%Z || (b =? 253)%Z
                 || (b =? 254)%Z).
Qed.

(** A byte that leaves the filter was read outside a command. *)
Lemma recv_filter_byte_out_normal (inside : bool) (code : telnet_cmd_t)
    (b : byte) :
  (recv_filter_byte inside code b).1.2 ≠ 0%Z →
  (recv_filter_byte inside code b).1.1 = false.
Proof.
  unfold recv_filter_byte.
  destruct inside; [destruct (TELNET_IS_OPTION_CODE b)|];
    destruct (b =? TELNET_IAC)%Z; cbn; done.
Qed.

Lemma recv_wait_events_segments (BUFFER_SIZE : nat) (r : list rx_event)
    (fin : rx_end) (rc : errno_t) (bs : list byte) (r' : list rx_event) :
  segments_fit BUFFER_SIZE r →
  recv_wait_events r fin BUFFER_SIZE = Done (rc, bs, r') →
  segments_fit BUFFER_SIZE r' ∧
  filter_fills (rx_segments r)
  = telnet_filter false bs ++ filter_fills (rx_segments r').
Proof.
  unfold segments_fit, filter_fills.
  revert rc bs r'.
  induction r as [|[[|b bs0]|code] r IH]; intros rc bs r' Hfit Hw;
    cbn in Hw.
  - destruct fin; [done|]. by injection Hw as <- <- <-.
  - cbn [rx_segments] in Hfit. apply Forall_cons in Hfit as [_ Hfit].
    by apply (IH rc).
  - cbn [rx_segments] in Hfit. apply Forall_cons in Hfit as [Hlen Hfit].
    injection Hw as <- <- <-.
    rewrite take_ge, drop_ge by done. done.
  - injection Hw as <- <- <-. done.
Qed.

Section ReceiveFills.

Variable BUFFER_SIZE : nat.
Variable SEND_BUF_SIZE : nat.

Local Abbreviation typed := (buffers_typed BUFFER_SIZE SEND_BUF_SIZE).
Local Abbreviation inv := (index_inv BUFFER_SIZE SEND_BUF_SIZE).
Local Abbreviation fits := (segments_fit BUFFER_SIZE).

Lemma buffered_drained (u : telnet_user_t) :
  telnet_user_byte_avail u = false → buffered u = [].
Proof.
  unfold telnet_user_byte_avail, buffered. intros Hav%Nat.ltb_ge.
  apply drop_ge. rewrite length_take. lia.
Qed.

(** What a returned read of the next byte did, in terms of the buffered
    bytes and the pending fills. *)
Lemma recv_next_byte_fills (u : telnet_user_t) (c : tcp_conn_t)
    (rc : errno_t) (b : byte) (u' : telnet_user_t) (c' : tcp_conn_t) :
  telnet_user_recv_next_byte_locked BUFFER_SIZE u c = Done (rc, b, u', c') →
  typed u → inv u → fits (rx c) →
  typed u' ∧ inv u' ∧ fits (rx c') ∧
  ((telnet_user_byte_avail u = true ∧ rc = EOK ∧
    buffered u = b :: buffered u' ∧ rx c' = rx c) ∨
   (telnet_user_byte_avail u = false ∧ rc = EOK ∧
    filter_fills (rx_segments (rx c))
    = telnet_filter false (b :: buffered u')
      ++ filter_fills (rx_segments (rx c'))) ∨
   (telnet_user_byte_avail u = false ∧ rc ≠ EOK ∧
    telnet_user_byte_avail u' = false ∧
    filter_fills (rx_segments (rx c))
    = filter_fills (rx_segments (rx c')))).
Proof.
  intros Hnb Hty Hinv Hfit.
  pose proof (recv_next_byte_Done _ _ _ _ _ _ _ Hnb) as Hcase.
  pose proof (next_byte_case_inv BUFFER_SIZE SEND_BUF_SIZE _ _ _ _ _ _
                Hcase Hinv) as Hinv'.
  destruct (telnet_user_byte_avail u) eqn:Hav.
  - rewrite (recv_next_byte_avail _ _ _ Hav) in Hnb.
    injection Hnb as <- <- <- <-.
    destruct (next_byte_case_stream BUFFER_SIZE SEND_BUF_SIZE _ _ _ _ _
                Hcase Hty Hinv) as [Hs Hty'].
    split_and!; [done..|]. left. split_and!; [done..| |done].
    unfold in_stream in Hs. fold (buffered u) in Hs.
    change (socket_buffer u !!! socket_buffer_pos u
            :: drop (socket_buffer_pos
                       (set_socket_buffer_pos u (S (socket_buffer_pos u))))
                 (take (socket_buffer_len
                          (set_socket_buffer_pos u (S (socket_buffer_pos u))))
                    (socket_buffer
                       (set_socket_buffer_pos u (S (socket_buffer_pos u)))))
               ++ rx_stream (rx c))
      with ((socket_buffer u !!! socket_buffer_pos u
             :: buffered (set_socket_buffer_pos u (S (socket_buffer_pos u))))
            ++ rx_stream (rx c)) in Hs.
    by apply app_inv_tail in Hs.
  - unfold telnet_user_byte_avail in Hav. apply Nat.ltb_ge in Hav.
    unfold telnet_user_recv_next_byte_locked in Hnb.
    apply Nat.leb_le in Hav. rewrite Hav in Hnb. apply Nat.leb_le in Hav.
    unfold telnet_user_fill_recv_buf, tcp_conn_recv_wait in Hnb.
    destruct (recv_wait_events (rx c) (rx_fin c) BUFFER_SIZE)
      as [[[rc0 bs] r']| | |] eqn:Hw; try done.
    destruct (recv_wait_events_segments _ _ _ _ _ _ Hfit Hw) as [Hfit' Hff].
    apply recv_wait_events_Done in Hw as (_ & _ & Hlen & Herr & _).
    destruct (rc0 =? EOK)%Z eqn:Hrc0; cbn [negb] in Hnb.
    + apply Z.eqb_eq in Hrc0 as ->.
      destruct (length bs =? 0) eqn:Hl.
      * apply Nat.eqb_eq, length_zero_iff_nil in Hl as ->.
        change (negb (ENOENT =? EOK)%Z) with true in Hnb.
        injection Hnb as <- <- <- <-.
        split_and!; [done..|]. right. right.
        split_and!; try done; by apply Nat.ltb_ge.
      * apply Nat.eqb_neq in Hl.
        change (negb (EOK =? EOK)%Z) with false in Hnb.
        injection Hnb as <- <- <- <-.
        destruct Hty as [Hsock Hsend].
        assert (Hbuf : list_inserts 0 bs (socket_buffer u)
                       = bs ++ drop (length bs) (socket_buffer u))
          by (apply list_inserts_prefix; lia).
        split_and!.
        -- split; [|done]. simpl_fields. by rewrite length_inserts.
        -- done.
        -- done.
        -- right. left. split_and!; [done..|].
           rewrite Hff. do 2 f_equal.
           unfold buffered. simpl_fields. rewrite Hbuf.
           rewrite take_app_length.
           destruct bs as [|b0 bs]; [done|]. done.
    + rewrite Hrc0 in Hnb. cbn [negb] in Hnb.
      apply Z.eqb_neq in Hrc0. injection Hnb as <- <- <- <-.
      destruct (Herr Hrc0) as (-> & _).
      split_and!; [done..|]. right. right.
      split_and!; try done; by apply Nat.ltb_ge.
Qed.

Lemma recv_skip_loop_fills (fuel : nat) (u : telnet_user_t) (c : tcp_conn_t)
    (inside : bool) (code : telnet_cmd_t) (rc : errno_t) (nb : byte)
    (u' : telnet_user_t) (c' : tcp_conn_t) :
  recv_skip_loop BUFFER_SIZE fuel u c inside code = Done (rc, nb, u', c') →
  typed u → inv u → fits (rx c) →
  inside = false ∨ telnet_user_byte_avail u = true →
  typed u' ∧ inv u' ∧ fits (rx c') ∧
  telnet_filter inside (buffered u) ++ filter_fills (rx_segments (rx c))
  = (if (rc =? EOK)%Z
     then (if (nb =? 0)%Z then [] else [cr_to_lf nb]) else [])
    ++ telnet_filter false (buffered u')
    ++ filter_fills (rx_segments (rx c')).
Proof.
  revert u c inside code.
  induction fuel as [|fuel IH]; intros u c inside code; [done|].
  rewrite recv_skip_loop_S.
  destruct (telnet_user_recv_next_byte_locked BUFFER_SIZE u c)
    as [[[[rc0 b] u1] c1]| | |] eqn:Hnb; try done.
  intros Hrun Hty Hinv Hfit Hstart.
  destruct (recv_next_byte_fills _ _ _ _ _ _ Hnb Hty Hinv Hfit)
    as (Hty1 & Hinv1 & Hfit1 & Hcase).
  assert (Hstep : rc0 = EOK →
    telnet_filter inside (buffered u) ++ filter_fills (rx_segments (rx c))
    = (if ((recv_filter_byte inside code b).1.2 =? 0)%Z then []
       else [cr_to_lf (recv_filter_byte inside code b).1.2])
      ++ telnet_filter (recv_filter_byte inside code b).1.1 (buffered u1)
      ++ filter_fills (rx_segments (rx c1))).
  { intros ->.
    destruct Hcase as [(Hav & _ & Hbuf & Hrx)|[(Hav & _ & Hff)|(_ & ? & _)]];
      [| |done].
    - rewrite Hbuf, Hrx, (telnet_filter_step inside code).
      by rewrite <-app_assoc.
    - destruct Hstart as [->|Hav']; [|congruence].
      rewrite (buffered_drained u Hav). cbn [telnet_filter app].
      rewrite Hff, (telnet_filter_step false code).
      by rewrite <-app_assoc. }
  destruct (rc0 =? EOK)%Z eqn:Hrc0; cbn [negb] in Hrun.
  - apply Z.eqb_eq in Hrc0 as ->. specialize (Hstep eq_refl).
    destruct (((recv_filter_byte inside code b).1.2 =? 0)%Z
              && telnet_user_byte_avail u1) eqn:Hcond.
    + apply andb_true_iff in Hcond as [Hz Hav1].
      rewrite Hz in Hstep. cbn [app] in Hstep. rewrite Hstep.
      apply (IH _ _ _ _ Hrun Hty1 Hinv1 Hfit1). by right.
    + injection Hrun as <- <- <- <-.
      split_and!; [done..|]. rewrite Hstep. cbn [Z.eqb EOK].
      do 2 f_equal.
      apply andb_false_iff in Hcond as [Hnz|Hav1].
      * apply Z.eqb_neq in Hnz.
        by rewrite (recv_filter_byte_out_normal _ _ _ Hnz).
      * by rewrite (buffered_drained u1 Hav1).
  - apply Z.eqb_neq in Hrc0. injection Hrun as <- <- <- <-.
    split_and!; [done..|].
    destruct Hcase as [(_ & ? & _)|[(_ & ? & _)|(Hav & _ & Hav1 & Hff)]];
      [done..|].
    rewrite (buffered_drained u Hav), (buffered_drained u1 Hav1), Hff.
    apply Z.eqb_neq in Hrc0. rewrite Hrc0. by destruct inside.
Qed.

Lemma recv_loop_fills (fuel : nat) (u : telnet_user_t) (c : tcp_conn_t)
    (size : nat) (dst : list byte) (rc : errno_t) (out : list byte)
    (u' : telnet_user_t) (c' : tcp_conn_t) :
  recv_loop BUFFER_SIZE fuel u c size dst = Done (rc, out, u', c') →
  typed u → inv u → fits (rx c) →
  dst ++ filter_fills (buffered u :: rx_segments (rx c))
  = out ++ filter_fills (buffered u' :: rx_segments (rx c')).
Proof.
  revert u c size dst.
  induction fuel as [|fuel IH]; intros u c size dst; [done|].
  rewrite recv_loop_S.
  destruct (recv_skip_loop BUFFER_SIZE (S (recv_budget u c)) u c false 0%Z)
    as [[[[rc0 b] u1] c1]| | |] eqn:Hskip; try done.
  intros Hrun Hty Hinv Hfit.
  destruct (recv_skip_loop_fills _ _ _ _ _ _ _ _ _ Hskip Hty Hinv Hfit)
    as (Hty1 & Hinv1 & Hfit1 & Hff); [by left|].
  change (filter_fills (buffered u :: rx_segments (rx c)))
    with (telnet_filter false (buffered u)
          ++ filter_fills (rx_segments (rx c))).
  rewrite Hff.
  destruct (rc0 =? EOK)%Z eqn:Hrc0; cbn [negb] in Hrun.
  - destruct (recv_continue u1 _ _).
    + rewrite <-(IH _ _ _ _ Hrun Hty1 Hinv1 Hfit1).
      by rewrite recv_store_decode, <-app_assoc.
    + injection Hrun as <- <- <- <-.
      by rewrite recv_store_decode, <-app_assoc.
  - by injection Hrun as <- <- <- <-.
Qed.

End ReceiveFills.

(** X14: a call of [recv] that returns has put nothing on the wire and
    has neither made nor used up a send result; on the session it has
    changed nothing but the receive buffer, its two indices and the flags
    [socket_closed] and [srvs.aborted]: batch buffer, cursor, connection
    count and [task_finished] are as before.  Telnet commands are
    answered by silence. *)
Theorem recv_leaves_send_side_alone (BUFFER_SIZE : nat) (u : telnet_user_t)
    (c : tcp_conn_t) (size : nat) (rc : errno_t) (out : list byte)
    (u' : telnet_user_t) (c' : tcp_conn_t) :
  telnet_user_recv BUFFER_SIZE u c size = Done (rc, out, u', c') →
  tx c' = tx c ∧ tx_rc c' = tx_rc c ∧ rx_fin c' = rx_fin c ∧
  out_stream u' c' = out_stream u c ∧
  same_but_recv u u' ∧
  send_buf u' = send_buf u ∧ send_buf_used u' = send_buf_used u ∧
  (cursor_x u', cursor_y u') = (cursor_x u, cursor_y u) ∧
  locsrv_connection_count u' = locsrv_connection_count u ∧
  task_finished u' = task_finished u.
Proof.
  intros [_ Hrun]%telnet_user_recv_run.
  apply recv_run_frame in Hrun as (Hsame & Htx & Hrc & Hfin).
  unfold out_stream. rewrite Htx.
  unfold same_but_recv in Hsame. rewrite Hsame. simpl_fields.
  split_and!; try done.
Qed.

Lemma recv_leaves_send_side_alone_witness :
  ∃ out u' c',
    telnet_user_recv 4
      (set_send_buf (fresh_user 4 4) [104; 105; 0; 0]%Z 2)
      (peer_sends [[255; 253; 24; 65]%Z]) 4 = Done (EOK, out, u', c') ∧
    tx c' = [] ∧ out_stream u' c' = [104; 105]%Z.
Proof.
  destruct (telnet_user_recv 4
      (set_send_buf (fresh_user 4 4) [104; 105; 0; 0]%Z 2)
      (peer_sends [[255; 253; 24; 65]%Z]) 4)
    as [[[[rc out] u'] c']| | |] eqn:Hrun;
    [|vm_compute in Hrun; discriminate..].
  assert (Hrc : rc = EOK)
    by (vm_compute in Hrun; injection Hrun as <- _ _ _; reflexivity).
  subst rc.
  destruct (recv_leaves_send_side_alone 4 _ _ _ _ _ _ _ Hrun)
    as (Htx & _ & _ & Hout & _).
  exists out, u', c'. split_and!; [reflexivity|exact Htx|exact Hout].
Defined.

(** X15: [recv] returns an error only before it has stored a byte: when
    the error code is not [EOK], nothing was stored for the caller, so no
    byte that was taken out of the stream for the caller is lost with an
    error. *)
Theorem recv_error_stores_nothing (BUFFER_SIZE : nat) (u : telnet_user_t)
    (c : tcp_conn_t) (size : nat) (rc : errno_t) (out : list byte)
    (u' : telnet_user_t) (c' : tcp_conn_t) :
  telnet_user_recv BUFFER_SIZE u c size = Done (rc, out, u', c') →
  rc ≠ EOK → out = [].
Proof.
  intros [_ Hrun]%telnet_user_recv_run Hrc.
  eapply recv_run_error_empty; [exact Hrun|by left|exact Hrc].
Qed.

Lemma recv_error_stores_nothing_witness :
  ∃ u' c',
    telnet_user_recv 4 (fresh_user 4 4)
      (mk_conn [RxData [0; 255; 253]%Z; RxError 5; RxData [65]%Z]
         PeerSilent [] []) 4
    = Done (5%Z, [], u', c').
Proof.
  destruct (telnet_user_recv 4 (fresh_user 4 4)
      (mk_conn [RxData [0; 255; 253]%Z; RxError 5; RxData [65]%Z]
         PeerSilent [] []) 4)
    as [[[[rc out] u'] c']| | |] eqn:Hrun;
    [|vm_compute in Hrun; discriminate..].
  assert (Hrc : rc = 5%Z)
    by (vm_compute in Hrun; injection Hrun as <- _ _ _; reflexivity).
  subst rc.
  rewrite (recv_error_stores_nothing 4 _ _ _ _ _ _ _ Hrun) by done.
  by exists u', c'.
Defined.

(** X16: [recv] takes the pending input from the front and hands it on in
    order: the input before the call is the bytes consumed followed by
    the input after it, and the bytes stored are, in the same order, some
    of the consumed bytes with CR turned into LF; nothing is invented,
    repeated or reordered, whatever commands the input holds. *)
Theorem recv_keeps_order (BUFFER_SIZE SEND_BUF_SIZE : nat)
    (u : telnet_user_t) (c : tcp_conn_t) (size : nat) (rc : errno_t)
    (out : list byte) (u' : telnet_user_t) (c' : tcp_conn_t) :
  buffers_typed BUFFER_SIZE SEND_BUF_SIZE u →
  index_inv BUFFER_SIZE SEND_BUF_SIZE u →
  telnet_user_recv BUFFER_SIZE u c size = Done (rc, out, u', c') →
  ∃ consumed,
    in_stream u c = consumed ++ in_stream u' c' ∧
    out `sublist_of` (cr_to_lf <$> consumed) ∧
    length out ≤ length consumed.
Proof.
  intros Hty Hinv [_ Hrun]%telnet_user_recv_run.
  apply (recv_run_order BUFFER_SIZE SEND_BUF_SIZE) in Hrun
    as (consumed & new & Hs & -> & Hsub); [|done..].
  exists consumed. cbn [app]. split_and!; [done..|].
  apply sublist_length in Hsub. by rewrite length_fmap in Hsub.
Qed.

Lemma recv_keeps_order_witness :
  ∃ out u' c' consumed,
    telnet_user_recv 4 (fresh_user 4 4)
      (peer_sends [[120; 255]; [13; 0; 121; 122]]%Z) 3
    = Done (EOK, out, u', c') ∧
    [120; 255; 13; 0; 121; 122]%Z = consumed ++ in_stream u' c' ∧
    out `sublist_of` (cr_to_lf <$> consumed).
Proof.
  destruct (telnet_user_recv 4 (fresh_user 4 4)
      (peer_sends [[120; 255]; [13; 0; 121; 122]]%Z) 3)
    as [[[[rc out] u'] c']| | |] eqn:Hrun;
    [|vm_compute in Hrun; discriminate..].
  assert (Hrc : rc = EOK)
    by (vm_compute in Hrun; injection Hrun as <- _ _ _; reflexivity).
  subst rc.
  destruct (recv_keeps_order 4 4 (fresh_user 4 4)
              (peer_sends [[120; 255]; [13; 0; 121; 122]]%Z) 3 EOK out u' c')
    as (consumed & H1 & H2 & _).
  - split; reflexivity.
  - unfold index_inv. cbn. lia.
  - exact Hrun.
  - exists out, u', c', consumed.
    split_and!; [reflexivity|exact H1|exact H2].
Defined.

(** X17: what [recv] does with telnet commands, exactly: the filter that
    drops NUL, folds CR to LF and skips commands is applied to each fill
    of the buffer on its own, starting outside a command.  When every
    pending segment fits into the buffer, the bytes stored by a returned
    call followed by the filtered fills that are left are the filtered
    fills as they were before the call, the rest of the buffer counting
    as the first fill.  A command that is cut by the end of a fill is
    therefore not skipped as a whole: the bytes of it that come with the
    next fill are filtered as data. *)
Theorem recv_filters_fill_by_fill (BUFFER_SIZE SEND_BUF_SIZE : nat)
    (u : telnet_user_t) (c : tcp_conn_t) (size : nat) (rc : errno_t)
    (out : list byte) (u' : telnet_user_t) (c' : tcp_conn_t) :
  buffers_typed BUFFER_SIZE SEND_BUF_SIZE u →
  index_inv BUFFER_SIZE SEND_BUF_SIZE u →
  segments_fit BUFFER_SIZE (rx c) →
  telnet_user_recv BUFFER_SIZE u c size = Done (rc, out, u', c') →
  filter_fills (buffered u :: rx_segments (rx c))
  = out ++ filter_fills (buffered u' :: rx_segments (rx c')).
Proof.
  intros Hty Hinv Hfit. unfold telnet_user_recv.
  destruct (size =? 0); [done|].
  intros Hrun.
  by apply (recv_loop_fills BUFFER_SIZE SEND_BUF_SIZE) in Hrun.
Qed.

Lemma recv_filters_fill_by_fill_witness :
  ∃ out u' c',
    telnet_user_recv 4 (fresh_user 4 4)
      (peer_sends [[120; 255; 253]; [24; 13; 255; 241]; [0; 121]]%Z) 8
    = Done (EOK, out, u', c') ∧
    [120; 24; 10; 121]%Z
    = out ++ filter_fills (buffered u' :: rx_segments (rx c')).
Proof.
  destruct (telnet_user_recv 4 (fresh_user 4 4)
      (peer_sends [[120; 255; 253]; [24; 13; 255; 241]; [0; 121]]%Z) 8)
    as [[[[rc out] u'] c']| | |] eqn:Hrun;
    [|vm_compute in Hrun; discriminate..].
  assert (Hrc : rc = EOK)
    by (vm_compute in Hrun; injection Hrun as <- _ _ _; reflexivity).
  subst rc.
  exists out, u', c'. split; [reflexivity|].
  assert (Hty : buffers_typed 4 4 (fresh_user 4 4)) by (split; reflexivity).
  assert (Hinv : index_inv 4 4 (fresh_user 4 4))
    by (unfold index_inv; cbn; lia).
  assert (Hfit : segments_fit 4
            (rx (peer_sends
                   [[120; 255; 253]; [24; 13; 255; 241]; [0; 121]]%Z)))
    by (unfold segments_fit; cbn; repeat constructor; cbn; lia).
  rewrite <-(recv_filters_fill_by_fill 4 4 _ _ _ _ _ _ _ Hty Hinv Hfit Hrun).
  vm_compute. reflexivity.
Defined.

(** X18: once the peer has closed its side, [recv] never blocks: every
    call with a positive capacity returns, with data or with an error. *)
Theorem recv_returns_when_peer_closed (BUFFER_SIZE : nat)
    (u : telnet_user_t) (c : tcp_conn_t) (size : nat) :
  0 < size → rx_fin c = PeerClosed →
  ∃ rc out u' c',
    telnet_user_recv BUFFER_SIZE u c size = Done (rc, out, u', c') ∧
    (rc = EOK → 1 ≤ length out).
Proof.
  intros Hsize Hfin.
  pose proof (telnet_user_recv_no_fault BUFFER_SIZE u c size Hsize)
    as [Ha Hf].
  assert (Hb : telnet_user_recv BUFFER_SIZE u c size ≠ Blocked).
  { unfold telnet_user_recv. destruct (size =? 0); [done|].
    by apply recv_loop_closed. }
  destruct (telnet_user_recv BUFFER_SIZE u c size)
    as [[[[rc out] u'] c']| | |] eqn:Hrecv; try done.
  exists rc, out, u', c'. split; [done|].
  apply telnet_user_recv_run in Hrecv as [_ Hrun].
  by apply recv_run_length in Hrun as [_ Hok].
Qed.

Lemma recv_returns_when_peer_closed_witness :
  ∃ rc out u' c',
    telnet_user_recv 4 (fresh_user 4 4)
      (mk_conn [RxData [0; 0]%Z] PeerClosed [] []) 4
    = Done (rc, out, u', c').
Proof.
  destruct (recv_returns_when_peer_closed 4 (fresh_user 4 4)
              (mk_conn [RxData [0; 0]%Z] PeerClosed [] []) 4)
    as (rc & out & u' & c' & H & _).
  - lia.
  - reflexivity.
  - by exists rc, out, u', c'.
Defined.
